(** * ICU4C [common/umutex.c]: mutexes, atomic counters and their pluggable
      back ends

    A shallow embedding of [umutex.c] and the properties of its
    initialisation protocol, its registration entry points and its
    teardown.  The C statics become the fields of one record, the calls into
    the operating system are logged, a failing [U_ASSERT] of a debug build
    ends the run, and so does a primitive of the platform that is handed the
    null pointer.  The mutexes of the platform and who holds them come in
    where the threads of the initialisation protocol are interleaved. *)

From Stdlib Require Import ZArith List Bool Lia.
From stdpp Require Import base tactics option gmap relations.
Import ListNotations.

Local Open Scope Z_scope.

(** ** The build: the preprocessor symbols the file tests *)

Record build : Type := Build {
  def_WIN32 : bool;          (* defined(WIN32) *)
  def__WIN32 : bool;         (* defined(_WIN32) *)
  def_macintosh : bool;      (* defined(macintosh) *)
  def_OS2 : bool;            (* defined(OS2) *)
  ICU_USE_THREADS : bool;    (* ICU_USE_THREADS == 1 *)
  def__DEBUG : bool;         (* defined(_DEBUG) *)
  def_HPUX_CMA : bool;       (* defined(HPUX_CMA) *)
  U_DEBUG : bool             (* U_ASSERT is compiled in *)
}.

(** [#define POSIX], undone for [_WIN32], [macintosh] and [OS2]. *)
Definition POSIX (b : build) : bool :=
  negb (def__WIN32 b || def_macintosh b || def_OS2 b).

(** ** Values *)

(** [UMTX] is [void *]; the null pointer is [0]. *)
Definition UMTX : Type := Z.
Definition NULL : UMTX := 0.

(** [int32_t], with the wrap-around of a two's complement increment. *)
Definition wrap32 (z : Z) : Z := (z + 2 ^ 31) mod 2 ^ 32 - 2 ^ 31.

(** Modelled from the spec: [UErrorCode] and [U_FAILURE] of
    [unicode/utypes.h], which is not among the sources.  The spec asks for
    two distinct failure codes; the values are those of ICU. *)
Definition UErrorCode : Type := Z.
Definition U_ZERO_ERROR : UErrorCode := 0.
Definition U_ILLEGAL_ARGUMENT_ERROR : UErrorCode := 1.
Definition U_INVALID_STATE_ERROR : UErrorCode := 27.
Definition U_FAILURE (x : UErrorCode) : bool := U_ZERO_ERROR <? x.

(** A [UMTX *]: null, the address of one of the two statics, of the local
    [tMutex] of the thread [t] running [umtx_init], or of a [UMTX] variable
    of a caller. *)
Inductive UMTX_ptr : Type :=
| null_ptr
| addr_gGlobalMutex
| addr_gIncDecMutex
| addr_tMutex (t : positive)
| addr_caller (n : positive).

#[global] Instance UMTX_ptr_eq_dec : EqDecision UMTX_ptr.
Proof. solve_decision. Defined.

(** The pointer as a [void *] value, as the build without threads stores
    it ([*mutex = mutex]).  Only the null pointer is [0]. *)
Definition as_UMTX (p : UMTX_ptr) : UMTX :=
  match p with
  | null_ptr => 0
  | addr_gGlobalMutex => -1
  | addr_gIncDecMutex => -2
  | addr_tMutex t => Z.neg (t~1~1)
  | addr_caller n => Z.neg (n~0)
  end.

(** The state of an embedder's back end, which its callbacks read and
    update. *)
Definition user_state : Type := Z.

(** The callback types of [uclean.h].  A callback gets the context and a
    pointer to the [UMTX] (or to the [int32_t]); it is a function of what the
    pointer refers to and of the embedder's state. *)
Definition UMtxInitFn : Type :=
  Z -> UMTX -> UErrorCode -> user_state -> UMTX * UErrorCode * user_state.
Definition UMtxFn : Type :=
  Z -> UMTX -> user_state -> UMTX * user_state.
Definition UMtxAtomicFn : Type :=
  Z -> Z -> user_state -> Z * Z * user_state.   (* (result, *p) *)

(** The operating system primitives the file calls. *)
Inductive os_call : Type :=
| EnterCriticalSection (cs : UMTX)
| LeaveCriticalSection (cs : UMTX)
| InitializeCriticalSection (cs : UMTX)
| DeleteCriticalSection (cs : UMTX)
| pthread_mutex_lock (m : UMTX)
| pthread_mutex_unlock (m : UMTX)
| pthread_mutex_init (m : UMTX) (mutexattr_default : bool)
| pthread_mutex_destroy (m : UMTX)
| InterlockedIncrement
| InterlockedDecrement.

(** Modelled from the spec: the allocator of [cmemory.h] ([uprv_malloc],
    [uprv_free], [cmemory_inUse]), an external collaborator with
    [allocate(size) -> pointer|failure] and [release(pointer)] that reports
    whether any allocation has occurred.  [refusals] says which of the coming
    requests fail. *)
Record cmemory : Type := Cmemory {
  blocks : gset positive;
  refusals : list bool;
  gHeapInUse : bool
}.

(** ** The state: the statics of the file and what surrounds them *)

Record world : Type := World {
  gGlobalMutex : UMTX;
  gIncDecMutex : UMTX;
  gRecursionCount : Z;
  pMutexInitFn : option UMtxInitFn;
  pMutexDestroyFn : option UMtxFn;
  pMutexLockFn : option UMtxFn;
  pMutexUnlockFn : option UMtxFn;
  gMutexContext : Z;
  pIncFn : option UMtxAtomicFn;
  pDecFn : option UMtxAtomicFn;
  gIncDecContext : Z;
  frames : gmap positive UMTX;     (* the [tMutex] of each thread *)
  handles : gmap positive UMTX;    (* the callers' [UMTX] variables *)
  heap : cmemory;
  os_calls : list os_call;         (* oldest first *)
  user : user_state
}.

Definition set_gGlobalMutex (v : UMTX) (w : world) : world :=
  World v (gIncDecMutex w) (gRecursionCount w) (pMutexInitFn w)
    (pMutexDestroyFn w) (pMutexLockFn w) (pMutexUnlockFn w) (gMutexContext w)
    (pIncFn w) (pDecFn w) (gIncDecContext w) (frames w) (handles w) (heap w)
    (os_calls w) (user w).

Definition set_gIncDecMutex (v : UMTX) (w : world) : world :=
  World (gGlobalMutex w) v (gRecursionCount w) (pMutexInitFn w)
    (pMutexDestroyFn w) (pMutexLockFn w) (pMutexUnlockFn w) (gMutexContext w)
    (pIncFn w) (pDecFn w) (gIncDecContext w) (frames w) (handles w) (heap w)
    (os_calls w) (user w).

Definition set_gRecursionCount (v : Z) (w : world) : world :=
  World (gGlobalMutex w) (gIncDecMutex w) v (pMutexInitFn w)
    (pMutexDestroyFn w) (pMutexLockFn w) (pMutexUnlockFn w) (gMutexContext w)
    (pIncFn w) (pDecFn w) (gIncDecContext w) (frames w) (handles w) (heap w)
    (os_calls w) (user w).

Definition set_pMutexInitFn (v : option UMtxInitFn) (w : world) : world :=
  World (gGlobalMutex w) (gIncDecMutex w) (gRecursionCount w) v
    (pMutexDestroyFn w) (pMutexLockFn w) (pMutexUnlockFn w) (gMutexContext w)
    (pIncFn w) (pDecFn w) (gIncDecContext w) (frames w) (handles w) (heap w)
    (os_calls w) (user w).

Definition set_pMutexDestroyFn (v : option UMtxFn) (w : world) : world :=
  World (gGlobalMutex w) (gIncDecMutex w) (gRecursionCount w) (pMutexInitFn w)
    v (pMutexLockFn w) (pMutexUnlockFn w) (gMutexContext w)
    (pIncFn w) (pDecFn w) (gIncDecContext w) (frames w) (handles w) (heap w)
    (os_calls w) (user w).

Definition set_pMutexLockFn (v : option UMtxFn) (w : world) : world :=
  World (gGlobalMutex w) (gIncDecMutex w) (gRecursionCount w) (pMutexInitFn w)
    (pMutexDestroyFn w) v (pMutexUnlockFn w) (gMutexContext w)
    (pIncFn w) (pDecFn w) (gIncDecContext w) (frames w) (handles w) (heap w)
    (os_calls w) (user w).

Definition set_pMutexUnlockFn (v : option UMtxFn) (w : world) : world :=
  World (gGlobalMutex w) (gIncDecMutex w) (gRecursionCount w) (pMutexInitFn w)
    (pMutexDestroyFn w) (pMutexLockFn w) v (gMutexContext w)
    (pIncFn w) (pDecFn w) (gIncDecContext w) (frames w) (handles w) (heap w)
    (os_calls w) (user w).

Definition set_gMutexContext (v : Z) (w : world) : world :=
  World (gGlobalMutex w) (gIncDecMutex w) (gRecursionCount w) (pMutexInitFn w)
    (pMutexDestroyFn w) (pMutexLockFn w) (pMutexUnlockFn w) v
    (pIncFn w) (pDecFn w) (gIncDecContext w) (frames w) (handles w) (heap w)
    (os_calls w) (user w).

Definition set_pIncFn (v : option UMtxAtomicFn) (w : world) : world :=
  World (gGlobalMutex w) (gIncDecMutex w) (gRecursionCount w) (pMutexInitFn w)
    (pMutexDestroyFn w) (pMutexLockFn w) (pMutexUnlockFn w) (gMutexContext w)
    v (pDecFn w) (gIncDecContext w) (frames w) (handles w) (heap w)
    (os_calls w) (user w).

Definition set_pDecFn (v : option UMtxAtomicFn) (w : world) : world :=
  World (gGlobalMutex w) (gIncDecMutex w) (gRecursionCount w) (pMutexInitFn w)
    (pMutexDestroyFn w) (pMutexLockFn w) (pMutexUnlockFn w) (gMutexContext w)
    (pIncFn w) v (gIncDecContext w) (frames w) (handles w) (heap w)
    (os_calls w) (user w).

Definition set_frames (v : gmap positive UMTX) (w : world) : world :=
  World (gGlobalMutex w) (gIncDecMutex w) (gRecursionCount w) (pMutexInitFn w)
    (pMutexDestroyFn w) (pMutexLockFn w) (pMutexUnlockFn w) (gMutexContext w)
    (pIncFn w) (pDecFn w) (gIncDecContext w) v (handles w) (heap w)
    (os_calls w) (user w).

Definition set_handles (v : gmap positive UMTX) (w : world) : world :=
  World (gGlobalMutex w) (gIncDecMutex w) (gRecursionCount w) (pMutexInitFn w)
    (pMutexDestroyFn w) (pMutexLockFn w) (pMutexUnlockFn w) (gMutexContext w)
    (pIncFn w) (pDecFn w) (gIncDecContext w) (frames w) v (heap w)
    (os_calls w) (user w).

Definition set_heap (v : cmemory) (w : world) : world :=
  World (gGlobalMutex w) (gIncDecMutex w) (gRecursionCount w) (pMutexInitFn w)
    (pMutexDestroyFn w) (pMutexLockFn w) (pMutexUnlockFn w) (gMutexContext w)
    (pIncFn w) (pDecFn w) (gIncDecContext w) (frames w) (handles w) v
    (os_calls w) (user w).

Definition set_os_calls (v : list os_call) (w : world) : world :=
  World (gGlobalMutex w) (gIncDecMutex w) (gRecursionCount w) (pMutexInitFn w)
    (pMutexDestroyFn w) (pMutexLockFn w) (pMutexUnlockFn w) (gMutexContext w)
    (pIncFn w) (pDecFn w) (gIncDecContext w) (frames w) (handles w) (heap w)
    v (user w).

Definition set_user (v : user_state) (w : world) : world :=
  World (gGlobalMutex w) (gIncDecMutex w) (gRecursionCount w) (pMutexInitFn w)
    (pMutexDestroyFn w) (pMutexLockFn w) (pMutexUnlockFn w) (gMutexContext w)
    (pIncFn w) (pDecFn w) (gIncDecContext w) (frames w) (handles w) (heap w)
    (os_calls w) v.

(** The statics as the loader leaves them (all null, the counter zero), no
    caller variable set, nothing allocated; [plan] is what the allocator
    will refuse. *)
Definition initial_world (plan : list bool) : world :=
  World NULL NULL 0 None None None None 0 None None 0 ∅ ∅
    (Cmemory ∅ plan false) [] 0.

(** [*p] and [*p = v].  A variable that was never written holds [NULL]. *)
Definition load (w : world) (p : UMTX_ptr) : UMTX :=
  match p with
  | null_ptr => NULL
  | addr_gGlobalMutex => gGlobalMutex w
  | addr_gIncDecMutex => gIncDecMutex w
  | addr_tMutex t => default NULL (frames w !! t)
  | addr_caller n => default NULL (handles w !! n)
  end.

Definition store (p : UMTX_ptr) (v : UMTX) (w : world) : world :=
  match p with
  | null_ptr => w
  | addr_gGlobalMutex => set_gGlobalMutex v w
  | addr_gIncDecMutex => set_gIncDecMutex v w
  | addr_tMutex t => set_frames (<[t := v]> (frames w)) w
  | addr_caller n => set_handles (<[n := v]> (handles w)) w
  end.

(** ** Runs: a call returns, a [U_ASSERT] of a debug build fails, or a
    primitive of the platform is handed the null pointer and faults *)

Inductive outcome (A : Type) : Type :=
| Done (a : A) (w : world)
| AssertionFailed (w : world)
| Crashed (w : world).
Arguments Done {A} a w.
Arguments AssertionFailed {A} w.
Arguments Crashed {A} w.

Definition M (A : Type) : Type := world -> outcome A.

Definition ret {A : Type} (a : A) : M A := fun w => Done a w.

Definition bind {A B : Type} (m : M A) (k : A -> M B) : M B :=
  fun w =>
    match m w with
    | Done a w' => k a w'
    | AssertionFailed w' => AssertionFailed w'
    | Crashed w' => Crashed w'
    end.

Declare Scope run_scope.
Delimit Scope run_scope with run.
Notation "'let*' x ':=' m 'in' k" := (bind m (fun x => k))
  (at level 10, x name, m at level 100, k at level 200) : run_scope.
Notation "m '>>' k" := (bind m (fun _ => k))
  (at level 90, right associativity) : run_scope.

Definition get {A : Type} (f : world -> A) : M A := fun w => Done (f w) w.
Definition modify (f : world -> world) : M unit := fun w => Done tt (f w).

(** The mutex a primitive of the platform is handed. *)
Definition handle_of (c : os_call) : option UMTX :=
  match c with
  | EnterCriticalSection h | LeaveCriticalSection h
  | InitializeCriticalSection h | DeleteCriticalSection h
  | pthread_mutex_lock h | pthread_mutex_unlock h
  | pthread_mutex_init h _ | pthread_mutex_destroy h => Some h
  | InterlockedIncrement | InterlockedDecrement => None
  end.

Definition null_handle (c : os_call) : bool :=
  match handle_of c with Some h => h =? NULL | None => false end.

(** A call of the platform is logged.  Handed the null pointer for a
    mutex, the primitive dereferences it and the run ends there.  With a
    pointer that is not null the call returns: a run follows one thread as
    far as the platform lets it go on.  Whether the platform grants a lock
    depends on who holds the mutex, which is no part of the world of one
    run; it is taken into account where threads are interleaved, with
    [platform_event]. *)
Definition call (c : os_call) : M unit := fun w =>
  let w' := set_os_calls (os_calls w ++ [c]) w in
  if null_handle c then Crashed w' else Done tt w'.

(** The world a run ends in. *)
Definition final {A : Type} (o : outcome A) : world :=
  match o with Done _ w => w | AssertionFailed w => w | Crashed w => w end.

(** Modelled from the spec: [U_ASSERT] of [uassert.h], which is not among
    the sources: fatal in a debug build when the condition is false, and in a
    release build the condition is not even evaluated.  [locals] are the
    local variables the condition may write. *)
Definition U_ASSERT_locals {A : Type} (b : build) (locals : A)
    (cond : A -> M (bool * A)) : M A :=
  if U_DEBUG b then
    bind (cond locals) (fun r =>
      if fst r then ret (snd r) else fun w => AssertionFailed w)
  else ret locals.

Definition U_ASSERT (b : build) (cond : M bool) : M unit :=
  U_ASSERT_locals b tt (fun _ => bind cond (fun c => ret (c, tt))).

(** Modelled from the spec: [uprv_malloc], [uprv_free] and [cmemory_inUse]
    of [cmemory.h].  A request that is granted returns a block that is not in
    use; every request marks the heap as used. *)
Definition uprv_malloc : M UMTX := fun w =>
  let h := heap w in
  match refusals h with
  | true :: plan => Done NULL (set_heap (Cmemory (blocks h) plan true) w)
  | _ =>
      let a := fresh (blocks h) in
      Done (Z.pos a)
           (set_heap (Cmemory ({[a]} ∪ blocks h) (tail (refusals h)) true) w)
  end.

Definition uprv_free (p : UMTX) : M unit :=
  modify (fun w =>
    let h := heap w in
    match p with
    | Z.pos a => set_heap (Cmemory (blocks h ∖ {[a]}) (refusals h) (gHeapInUse h)) w
    | _ => w
    end).

Definition cmemory_inUse : M bool := get (fun w => gHeapInUse (heap w)).

(** The call of a registered [UMtxFn] with [gMutexContext] and [mutex]. *)
Definition call_UMtxFn (fn : UMtxFn) (mutex : UMTX_ptr) : M unit :=
  modify (fun w =>
    let '(v, u) := fn (gMutexContext w) (load w mutex) (user w) in
    set_user u (store mutex v w)).

(** ** The functions of [umutex.c] *)

Local Open Scope run_scope.

Definition when (c : bool) (m : M unit) : M unit := if c then m else ret tt.

(** [if (mutex == NULL) mutex = &gGlobalMutex;] *)
Definition or_global (mutex : UMTX_ptr) : UMTX_ptr :=
  if decide (mutex = null_ptr) then addr_gGlobalMutex else mutex.

(** [umtx_lock].  It calls [umtx_init], which calls it back: [init] stands
    for that call, and the knot is tied below. *)
Definition umtx_lock_body (b : build) (init : UMTX_ptr -> M unit)
    (mutex : UMTX_ptr) : M unit :=
  let mutex := or_global mutex in
  (let* v := get (fun w => load w mutex) in
   when (v =? NULL)
     (U_ASSERT b (ret false) >>
      init mutex)) >>
  (let* fn := get pMutexLockFn in
   match fn with
   | Some f => call_UMtxFn f mutex
   | None =>
       if ICU_USE_THREADS b then
         let* v := get (fun w => load w mutex) in
         if def_WIN32 b then call (EnterCriticalSection v)
         else if POSIX b then call (pthread_mutex_lock v)
         else ret tt
       else ret tt
   end) >>
  when (def_WIN32 b && def__DEBUG b)
    (when (bool_decide (mutex = addr_gGlobalMutex))
       (modify (fun w => set_gRecursionCount (wrap32 (gRecursionCount w + 1)) w) >>
        U_ASSERT b (get (fun w => gRecursionCount w =? 1)))).

(** [umtx_unlock] *)
Definition umtx_unlock (b : build) (mutex : UMTX_ptr) : M unit :=
  let mutex := or_global mutex in
  let* v := get (fun w => load w mutex) in
  if v =? NULL then
    U_ASSERT b (ret false)      (* and [return] *)
  else
    when (def_WIN32 b && def__DEBUG b)
      (when (bool_decide (mutex = addr_gGlobalMutex))
         (modify (fun w => set_gRecursionCount (wrap32 (gRecursionCount w - 1)) w) >>
          U_ASSERT b (get (fun w => gRecursionCount w =? 0)))) >>
    let* fn := get pMutexUnlockFn in
    match fn with
    | Some f => call_UMtxFn f mutex
    | None =>
        if ICU_USE_THREADS b then
          let* v := get (fun w => load w mutex) in
          if def_WIN32 b then call (LeaveCriticalSection v)
          else if POSIX b then call (pthread_mutex_unlock v)
          else ret tt
        else ret tt
    end.

(** The call of a registered [UMtxInitFn] with [gMutexContext], [mutex] and
    the address of [status]; the result is what it left in [status]. *)
Definition call_UMtxInitFn (fn : UMtxInitFn) (mutex : UMTX_ptr)
    (status : UErrorCode) : M UErrorCode :=
  fun w =>
    let '(v, status', u) := fn (gMutexContext w) (load w mutex) status (user w) in
    Done status' (set_user u (store mutex v w)).

(** [umtx_raw_init]: the platform specific allocation and initialisation. *)
Definition umtx_raw_init (b : build) (mutex : UMTX_ptr) : M unit :=
  let* fn := get pMutexInitFn in
  match fn with
  | Some f =>
      let* status := call_UMtxInitFn f mutex U_ZERO_ERROR in
      if U_FAILURE status then ret tt    (* TODO of the source: [return] *)
      else ret tt
  | None =>
      if ICU_USE_THREADS b then
        if def_WIN32 b then
          let* cs := uprv_malloc in
          if cs =? NULL then ret tt
          else
            call (InitializeCriticalSection cs) >>
            modify (store mutex cs)
        else if POSIX b then
          let* m := uprv_malloc in
          if m =? NULL then ret tt
          else
            call (pthread_mutex_init m (def_HPUX_CMA b)) >>
            modify (store mutex m)
        else ret tt
      else
        modify (store mutex (as_UMTX mutex))
  end.

(** [umtx_destroy].  It calls itself once, on [gIncDecMutex]: [self] stands
    for that call. *)
Definition umtx_destroy_body (b : build) (self : UMTX_ptr -> M unit)
    (mutex : UMTX_ptr) : M unit :=
  let mutex := or_global mutex in
  let* v := get (fun w => load w mutex) in
  if v =? NULL then ret tt      (* someone already did it *)
  else
    (let* fn := get pMutexDestroyFn in
     match fn with
     | Some f => call_UMtxFn f mutex
     | None =>
         if ICU_USE_THREADS b then
           let* v := get (fun w => load w mutex) in
           if def_WIN32 b then
             call (DeleteCriticalSection v) >>
             uprv_free v
           else if POSIX b then
             call (pthread_mutex_destroy v) >>
             uprv_free v
           else ret tt
         else ret tt
     end) >>
    modify (store mutex NULL) >>
    when (POSIX b)
      (when (bool_decide (mutex = addr_gGlobalMutex))
         (self addr_gIncDecMutex)).

Definition umtx_destroy (b : build) : UMTX_ptr -> M unit :=
  umtx_destroy_body b (umtx_destroy_body b (fun _ => ret tt)).

(** [umtx_init], run by the thread [t], whose frame holds [tMutex].  [lock]
    stands for its calls of [umtx_lock]. *)
Definition umtx_init_body (b : build) (lock : UMTX_ptr -> M unit)
    (t : positive) (mutex : UMTX_ptr) : M unit :=
  let mutex := or_global mutex in
  if bool_decide (mutex = addr_gGlobalMutex) then
    (* Initialization of the global mutex. *)
    let* v := get (fun w => load w mutex) in
    if negb (v =? NULL) then ret tt
    else
      umtx_raw_init b mutex >>
      modify (set_gRecursionCount 0) >>
      when (POSIX b) (umtx_raw_init b addr_gIncDecMutex)
  else
    (* Thread safe initialization, using the global mutex. *)
    let tMutex := addr_tMutex t in
    modify (store tMutex NULL) >>
    lock null_ptr >>
    let* isInitialized := get (fun w => negb (load w mutex =? NULL)) in
    umtx_unlock b null_ptr >>
    if isInitialized then ret tt
    else
      umtx_raw_init b tMutex >>
      lock null_ptr >>
      (let* v := get (fun w => load w mutex) in
       when (v =? NULL)
         (let* tv := get (fun w => load w tMutex) in
          modify (store mutex tv) >>
          modify (store tMutex NULL))) >>
      umtx_unlock b null_ptr >>
      let* tv := get (fun w => load w tMutex) in
      when (negb (tv =? NULL)) (umtx_destroy b tMutex).

(** The knot: [umtx_lock(mutex)] on an uninitialised mutex calls
    [umtx_init(mutex)], which for a mutex of a caller calls
    [umtx_lock(NULL)], which on an uninitialised global mutex calls
    [umtx_init(&gGlobalMutex)], which locks nothing. *)
Definition umtx_init (b : build) (t : positive) : UMTX_ptr -> M unit :=
  umtx_init_body b
    (umtx_lock_body b (umtx_init_body b (fun _ => ret tt) t)) t.

Definition umtx_lock (b : build) (t : positive) : UMTX_ptr -> M unit :=
  umtx_lock_body b (umtx_init b t).

Definition is_set {A : Type} (fn : option A) : bool :=
  match fn with Some _ => true | None => false end.

(** [u_setMutexFunctions]; the result is what it leaves in [*status]. *)
Definition u_setMutexFunctions (context : Z) (i : option UMtxInitFn)
    (d l u : option UMtxFn) (status : UErrorCode) : M UErrorCode :=
  if U_FAILURE status then ret status
  else
    (* Can not set a mutex function to a NULL value *)
    if negb (is_set i) || negb (is_set d) || negb (is_set l) || negb (is_set u)
    then ret U_ILLEGAL_ARGUMENT_ERROR
    else
      (* If ICU is not in an initial state, disallow this operation. *)
      let* inUse := cmemory_inUse in
      if inUse then ret U_INVALID_STATE_ERROR
      else
        modify (set_pMutexInitFn i) >>
        modify (set_pMutexDestroyFn d) >>
        modify (set_pMutexLockFn l) >>
        modify (set_pMutexUnlockFn u) >>
        modify (set_gMutexContext context) >>
        ret status.

(** The call of a registered [UMtxAtomicFn] with [gIncDecContext] and [p];
    the result is what it returned and what it left in [*p]. *)
Definition call_UMtxAtomicFn (fn : UMtxAtomicFn) (p : Z) : M (Z * Z) :=
  fun w =>
    let '(retVal, p', u) := fn (gIncDecContext w) p (user w) in
    Done (retVal, p') (set_user u w).

(** [umtx_atomic_inc] and [umtx_atomic_dec], on the [int32_t] that [p]
    points to: the result is [retVal] and the new [*p]. *)
Definition umtx_atomic_inc (b : build) (p : Z) : M (Z * Z) :=
  let* fn := get pIncFn in
  match fn with
  | Some f => call_UMtxAtomicFn f p
  | None =>
      if def_WIN32 b && ICU_USE_THREADS b then
        call InterlockedIncrement >>
        ret (wrap32 (p + 1), wrap32 (p + 1))
      else if POSIX b && ICU_USE_THREADS b then
        let* m := get gIncDecMutex in
        call (pthread_mutex_lock m) >>
        let p := wrap32 (p + 1) in         (* retVal = ++( *p ) *)
        call (pthread_mutex_unlock m) >>
        ret (p, p)
      else
        let p := wrap32 (p + 1) in
        ret (p, p)
  end.

Definition umtx_atomic_dec (b : build) (p : Z) : M (Z * Z) :=
  let* fn := get pDecFn in
  match fn with
  | Some f => call_UMtxAtomicFn f p
  | None =>
      if def_WIN32 b && ICU_USE_THREADS b then
        call InterlockedDecrement >>
        ret (wrap32 (p - 1), wrap32 (p - 1))
      else if POSIX b && ICU_USE_THREADS b then
        let* m := get gIncDecMutex in
        call (pthread_mutex_lock m) >>
        let p := wrap32 (p - 1) in         (* retVal = --( *p ) *)
        call (pthread_mutex_unlock m) >>
        ret (p, p)
      else
        let p := wrap32 (p - 1) in
        ret (p, p)
  end.

(** [u_setAtomicIncDecFunctions]; the result is what it leaves in
    [*status].  The source does not store [context]. *)
Definition u_setAtomicIncDecFunctions (b : build) (context : Z)
    (ip dp : option UMtxAtomicFn) (status : UErrorCode) : M UErrorCode :=
  if U_FAILURE status then ret status
  else
    if negb (is_set ip) || negb (is_set dp) then ret U_ILLEGAL_ARGUMENT_ERROR
    else
      let* inUse := cmemory_inUse in
      if inUse then ret U_INVALID_STATE_ERROR
      else
        modify (set_pIncFn ip) >>
        modify (set_pDecFn dp) >>
        let testInt := 0 in
        let* testInt := U_ASSERT_locals b testInt (fun testInt =>
          let* r := umtx_atomic_inc b testInt in ret (fst r =? 1, snd r)) in
        U_ASSERT b (ret (testInt =? 1)) >>
        let* testInt := U_ASSERT_locals b testInt (fun testInt =>
          let* r := umtx_atomic_dec b testInt in ret (fst r =? 0, snd r)) in
        U_ASSERT b (ret (testInt =? 0)) >>
        ret status.

(** [umtx_cleanup] *)
Definition umtx_cleanup (b : build) : M bool :=
  umtx_destroy b null_ptr >>
  modify (set_pMutexInitFn None) >>
  modify (set_pMutexDestroyFn None) >>
  modify (set_pMutexLockFn None) >>
  modify (set_pMutexUnlockFn None) >>
  modify (set_gMutexContext 0) >>
  modify (set_pIncFn None) >>
  modify (set_pDecFn None) >>
  ret true.

(** ** One thread of the initialisation protocol

    A thread inside [umtx_init] on a mutex that is not the global one is at
    one of five points.  What it does between two of them is one step: the
    two critical sections are steps because the global mutex serialises
    them, and the construction and the disposal of [tMutex] touch only the
    thread's own variable. *)

Inductive init_pc : Type :=
| at_check         (* before the first critical section *)
| at_construct     (* before [umtx_raw_init(&tMutex)] *)
| at_install       (* before the second critical section *)
| at_discard       (* before [umtx_destroy(&tMutex)] *)
| returned.

#[global] Instance init_pc_eq_dec : EqDecision init_pc.
Proof. solve_decision. Defined.

Definition init_step (b : build) (t : positive) (mutex : UMTX_ptr)
    (pc : init_pc) : M init_pc :=
  let tMutex := addr_tMutex t in
  match pc with
  | at_check =>
      modify (store tMutex NULL) >>
      umtx_lock b t null_ptr >>
      let* isInitialized := get (fun w => negb (load w mutex =? NULL)) in
      umtx_unlock b null_ptr >>
      ret (if isInitialized then returned else at_construct)
  | at_construct =>
      umtx_raw_init b tMutex >>
      ret at_install
  | at_install =>
      umtx_lock b t null_ptr >>
      (let* v := get (fun w => load w mutex) in
       when (v =? NULL)
         (let* tv := get (fun w => load w tMutex) in
          modify (store mutex tv) >>
          modify (store tMutex NULL))) >>
      umtx_unlock b null_ptr >>
      let* tv := get (fun w => load w tMutex) in
      ret (if negb (tv =? NULL) then at_discard else returned)
  | at_discard =>
      umtx_destroy b tMutex >>
      ret returned
  | returned => ret returned
  end.

(** The thread running alone, for at most [n] steps. *)
Fixpoint init_run (b : build) (t : positive) (mutex : UMTX_ptr) (n : nat)
    (pc : init_pc) : M unit :=
  match n with
  | O => ret tt
  | S n =>
      if decide (pc = returned) then ret tt
      else
        let* pc := init_step b t mutex pc in
        init_run b t mutex n pc
  end.

(** Threads that all initialise the mutex [mutex], interleaved: a state is
    the point each thread is at and the world they share. *)
Inductive sys_step (b : build) (mutex : UMTX_ptr) :
    gmap positive init_pc * world -> gmap positive init_pc * world -> Prop :=
| sys_step_thread (pcs : gmap positive init_pc) (w w' : world)
    (t : positive) (pc pc' : init_pc) :
    pcs !! t = Some pc ->
    pc <> returned ->
    init_step b t mutex pc w = Done pc' w' ->
    sys_step b mutex (pcs, w) (<[t := pc']> pcs, w').

(** ** The protocol statement by statement, on the platform's mutexes

    The steps above take each critical section as one step.  Below, a step
    is one statement of [umtx_init] that reads or writes what the threads
    share, and what keeps two threads out of the critical sections at the
    same time is the platform's mutex: the platform grants a lock when no
    thread holds the mutex, and the thread that holds it releases it. *)

Inductive fine_pc : Type :=
| f_lock1                          (* [tMutex = NULL; umtx_lock(NULL);] *)
| f_read                           (* [isInitialized = ( *mutex != NULL );] *)
| f_unlock1 (isInitialized : bool) (* [umtx_unlock(NULL); if (isInitialized) return;] *)
| f_construct                      (* [umtx_raw_init(&tMutex);] *)
| f_lock2                          (* [umtx_lock(NULL);] *)
| f_test                           (* [if ( *mutex == NULL )] *)
| f_copy                           (* [*mutex = tMutex;] *)
| f_clear                          (* [tMutex = NULL;] *)
| f_unlock2                        (* [umtx_unlock(NULL); if (tMutex != NULL)] *)
| f_destroy                        (* [umtx_destroy(&tMutex);] *)
| f_returned.

#[global] Instance fine_pc_eq_dec : EqDecision fine_pc.
Proof. solve_decision. Defined.










(** ** What the properties are stated with *)

(** [m] leaves the part [proj] of the world as it is, whether it returns or
    a [U_ASSERT] stops it. *)
Definition keeps {X A : Type} (proj : world -> X) (m : M A) : Prop :=
  forall w, proj (final (m w)) = proj w.

(** [m] returns: no [U_ASSERT] stops it. *)
Definition returns {A : Type} (m : M A) : Prop :=
  forall w, exists a w', m w = Done a w'.

Definition is_caller (p : UMTX_ptr) : bool :=
  match p with addr_caller _ => true | _ => false end.

Definition is_tMutex (p : UMTX_ptr) : bool :=
  match p with addr_tMutex _ => true | _ => false end.

Definition is_global (p : UMTX_ptr) : bool :=
  match p with addr_gGlobalMutex => true | _ => false end.

(** What the assertions of [umtx_lock(NULL)] and [umtx_unlock(NULL)] look
    at. *)
Definition lock_state (w : world) : UMTX * bool * bool * Z :=
  (gGlobalMutex w, is_set (pMutexLockFn w), is_set (pMutexUnlockFn w),
   gRecursionCount w).

Definition win_debug (b : build) : bool := def_WIN32 b && def__DEBUG b.

Definition calm (b : build) (w : world) : Prop :=
  gGlobalMutex w <> NULL /\ pMutexLockFn w = None /\ pMutexUnlockFn w = None /\
  (win_debug b = true -> gRecursionCount w = 0).

(** The build has threads and a platform branch ([WIN32] or [POSIX]). *)
Definition native_threads (b : build) : bool :=
  ICU_USE_THREADS b && (def_WIN32 b || POSIX b).

(** The allocator grants the next request. *)
Definition granted (w : world) : bool :=
  match refusals (heap w) with true :: _ => false | _ => true end.

(** The allocator grants the next two requests. *)
Definition granted_twice (w : world) : bool :=
  match refusals (heap w) with
  | true :: _ | _ :: true :: _ => false
  | _ => true
  end.

(** [umtx_lock] without its call of [umtx_init]. *)
Definition umtx_lock_no_init (b : build) : UMTX_ptr -> M unit :=
  umtx_lock_body b (fun _ => ret tt).

(** ** Sample builds and callbacks *)

Definition posix_release : build :=
  Build false false false false true false false false.
Definition posix_debug : build :=
  Build false false false false true false false true.
Definition win32_debug : build :=
  Build true true false false true true false true.

(** An init callback that stores a handle and then reports a failure. *)
Definition failing_init : UMtxInitFn :=
  fun _ _ _ u => (7, U_INVALID_STATE_ERROR, u).

Definition plain_fn : UMtxFn := fun _ m u => (m, u).

(** Atomic callbacks that update the integer, pass the self-test of
    [u_setAtomicIncDecFunctions], and otherwise return the value the integer
    had before. *)
Definition stale_inc : UMtxAtomicFn :=
  fun _ p u => (if p =? 0 then 1 else p, wrap32 (p + 1), u).
Definition stale_dec : UMtxAtomicFn :=
  fun _ p u => (if p =? 1 then 0 else p, wrap32 (p - 1), u).

(** ** The interface, call after call *)

(** A caller passes [NULL] or the address of a [UMTX] of its own. *)
Definition caller_ptr (m : option positive) : UMTX_ptr :=
  match m with None => null_ptr | Some n => addr_caller n end.

Inductive api_call : Type :=
| call_umtx_init (m : option positive)
| call_umtx_lock (m : option positive)
| call_umtx_unlock (m : option positive)
| call_umtx_destroy (m : option positive)
| call_u_setMutexFunctions (context : Z) (i : option UMtxInitFn)
    (d l u : option UMtxFn) (status : UErrorCode)
| call_umtx_atomic_inc (p : Z)
| call_umtx_atomic_dec (p : Z)
| call_u_setAtomicIncDecFunctions (context : Z) (ip dp : option UMtxAtomicFn)
    (status : UErrorCode)
| call_umtx_cleanup.

Definition run_call (b : build) (t : positive) (c : api_call) : M unit :=
  match c with
  | call_umtx_init m => umtx_init b t (caller_ptr m)
  | call_umtx_lock m => umtx_lock b t (caller_ptr m)
  | call_umtx_unlock m => umtx_unlock b (caller_ptr m)
  | call_umtx_destroy m => umtx_destroy b (caller_ptr m)
  | call_u_setMutexFunctions context i d l u status =>
      u_setMutexFunctions context i d l u status >> ret tt
  | call_umtx_atomic_inc p => umtx_atomic_inc b p >> ret tt
  | call_umtx_atomic_dec p => umtx_atomic_dec b p >> ret tt
  | call_u_setAtomicIncDecFunctions context ip dp status =>
      u_setAtomicIncDecFunctions b context ip dp status >> ret tt
  | call_umtx_cleanup => umtx_cleanup b >> ret tt
  end.

(** The calls of one thread, one after the other. *)
Fixpoint run_calls (b : build) (t : positive) (cs : list api_call) : M unit :=
  match cs with
  | [] => ret tt
  | c :: cs => run_call b t c >> run_calls b t cs
  end.

(** The registration record: the six callbacks and the two contexts. *)
Definition registration (w : world) :
    option UMtxInitFn * option UMtxFn * option UMtxFn * option UMtxFn * Z *
    option UMtxAtomicFn * option UMtxAtomicFn * Z :=
  (pMutexInitFn w, pMutexDestroyFn w, pMutexLockFn w, pMutexUnlockFn w,
   gMutexContext w, pIncFn w, pDecFn w, gIncDecContext w).

(** The four mutex callbacks are all set or all null, and so are the two
    atomic callbacks. *)
Definition all_or_none (w : world) : Prop :=
  is_set (pMutexDestroyFn w) = is_set (pMutexInitFn w) /\
  is_set (pMutexLockFn w) = is_set (pMutexInitFn w) /\
  is_set (pMutexUnlockFn w) = is_set (pMutexInitFn w) /\
  is_set (pDecFn w) = is_set (pIncFn w).

(** A mutex back end is registered. *)
Definition backend_registered (w : world) : Prop :=
  is_set (pMutexInitFn w) = true /\ is_set (pMutexDestroyFn w) = true /\
  is_set (pMutexLockFn w) = true /\ is_set (pMutexUnlockFn w) = true.

(** [m] keeps the invariant [I], whether it returns or a [U_ASSERT] stops
    it. *)
Definition preserves {A : Type} (I : world -> Prop) (m : M A) : Prop :=
  forall w, I w -> I (final (m w)).

(** The call a build with threads makes to the platform: [win] under
    [WIN32], else [posix] under [POSIX]; no call without threads. *)
Definition platform_call (b : build) (win posix : os_call) : list os_call :=
  if ICU_USE_THREADS b then
    if def_WIN32 b then [win] else if POSIX b then [posix] else []
  else [].

(** The world after the platform's calls [cs]. *)
Definition logged (cs : list os_call) (w : world) : world :=
  set_os_calls (os_calls w ++ cs) w.

(** A back end that counts: its init callback numbers the mutexes from the
    embedder's state, its other callbacks leave the mutex as it is. *)
Definition counting_init : UMtxInitFn :=
  fun _ _ status u => (u + 1, status, u + 1).
Definition exact_inc : UMtxAtomicFn :=
  fun _ p u => (wrap32 (p + 1), wrap32 (p + 1), u).
Definition exact_dec : UMtxAtomicFn :=
  fun _ p u => (wrap32 (p - 1), wrap32 (p - 1), u).

(** ** The protocol, as the platform's mutexes run it *)

(** What one step of a thread does to the mutex, to the thread's [tMutex]
    and to the allocated blocks: the point before, the mutex, [tMutex] and
    the blocks before, then the same four after. *)
Inductive step_effect :
    init_pc -> UMTX -> UMTX -> gset positive ->
    init_pc -> UMTX -> UMTX -> gset positive -> Prop :=
| effect_check_live (hv tv : UMTX) (B : gset positive) :
    hv <> NULL -> step_effect at_check hv tv B returned hv NULL B
| effect_check_null (tv : UMTX) (B : gset positive) :
    step_effect at_check NULL tv B at_construct NULL NULL B
| effect_construct_refused (hv : UMTX) (B : gset positive) :
    step_effect at_construct hv NULL B at_install hv NULL B
| effect_construct_granted (hv : UMTX) (a : positive) (B : gset positive) :
    a ∉ B ->
    step_effect at_construct hv NULL B at_install hv (Z.pos a) ({[a]} ∪ B)
| effect_install_claimed (tv : UMTX) (B : gset positive) :
    step_effect at_install NULL tv B returned tv NULL B
| effect_install_nothing (hv : UMTX) (B : gset positive) :
    hv <> NULL -> step_effect at_install hv NULL B returned hv NULL B
| effect_install_lost (hv tv : UMTX) (B : gset positive) :
    hv <> NULL -> tv <> NULL ->
    step_effect at_install hv tv B at_discard hv tv B
| effect_discard (hv : UMTX) (a : positive) (B : gset positive) :
    step_effect at_discard hv (Z.pos a) B returned hv NULL (B ∖ {[a]}).

(** What [tMutex] can hold at each point. *)
Definition temp_ok (pc : init_pc) (tv : UMTX) : Prop :=
  match pc with
  | at_check => True
  | at_construct | returned => tv = NULL
  | at_install => tv = NULL \/ exists a, tv = Z.pos a
  | at_discard => exists a, tv = Z.pos a
  end.

(** The thread holds the block [a] in its [tMutex]. *)
Definition holds_block (pc : init_pc) (tv : UMTX) (a : positive) : Prop :=
  (pc = at_install \/ pc = at_discard) /\ tv = Z.pos a.

(** The platform's mutexes are in use and the global mutex is in order. *)
Definition platform_calm (b : build) (w : world) : Prop :=
  calm b w /\ pMutexInitFn w = None /\ pMutexDestroyFn w = None.

(** The accounts of a race that started with the blocks [B0], where [hv] is
    the mutex, [tv t] the [tMutex] of the thread [t] and [B] the allocated
    blocks: every thread's [tMutex] fits its point; the blocks of the start
    are all there; the mutex and the threads hold blocks that are allocated,
    are not of the start and are all different; and every allocated block is
    of the start, or the mutex's, or some thread's. *)
Definition accounts (B0 : gset positive) (pcs : gmap positive init_pc)
    (hv : UMTX) (tv : positive -> UMTX) (B : gset positive) : Prop :=
  (hv = NULL \/ exists a, hv = Z.pos a) /\
  (forall t pc, pcs !! t = Some pc -> temp_ok pc (tv t)) /\
  B0 ⊆ B /\
  (forall a, hv = Z.pos a -> (a ∈ B) /\ (a ∉ B0)) /\
  (forall t pc a, pcs !! t = Some pc -> holds_block pc (tv t) a ->
     (a ∈ B) /\ (a ∉ B0) /\ hv <> Z.pos a) /\
  (forall t t' pc pc' a,
     pcs !! t = Some pc -> pcs !! t' = Some pc' ->
     holds_block pc (tv t) a -> holds_block pc' (tv t') a -> t = t') /\
  (forall a, a ∈ B ->
     (a ∈ B0) \/ hv = Z.pos a \/
     exists t pc, pcs !! t = Some pc /\ holds_block pc (tv t) a).

(** The accounts of the threads racing for the mutex [n] in the world they
    share. *)
Definition race_accounts (b : build) (n : positive) (B0 : gset positive)
    (s : gmap positive init_pc * world) : Prop :=
  platform_calm b (snd s) /\
  accounts B0 (fst s) (load (snd s) (addr_caller n))
    (fun t => load (snd s) (addr_tMutex t)) (blocks (heap (snd s))).

(** The steps a thread at the point [pc] has left at most. *)
Definition steps_left (pc : init_pc) : nat :=
  match pc with
  | at_check => 4
  | at_construct => 3
  | at_install => 2
  | at_discard => 1
  | returned => 0
  end.

(** ** A counter, through [umtx_atomic_inc] and [umtx_atomic_dec] *)

Inductive atomic_op : Type := op_inc | op_dec.




(** The calls of the platform that one call makes where no callback is
    registered and the guard is [m]. *)
Definition atomic_calls (b : build) (m : UMTX) (op : atomic_op) : list os_call :=
  if def_WIN32 b && ICU_USE_THREADS b then
    [match op with
     | op_inc => InterlockedIncrement
     | op_dec => InterlockedDecrement
     end]
  else if POSIX b && ICU_USE_THREADS b then
    [pthread_mutex_lock m; pthread_mutex_unlock m]
  else [].





(** A [U_ASSERT] has stopped the run. *)
Definition asserted {A : Type} (o : outcome A) : bool :=
  match o with AssertionFailed _ => true | _ => false end.

(** The build takes the guard [gIncDecMutex] for a counter: [POSIX] with
    threads, where [WIN32] with threads does not come first. *)
Definition uses_guard (b : build) : bool :=
  negb (def_WIN32 b && ICU_USE_THREADS b) && (POSIX b && ICU_USE_THREADS b).

(** * Properties *)

(** ** Runs that end *)

Lemma bind_Done {A B : Type} (m : M A) (k : A -> M B) w r w' :
  bind m k w = Done r w' ->
  exists a w1, m w = Done a w1 /\ k a w1 = Done r w'.
Proof.
  unfold bind. destruct (m w) as [a w1|w1|w1]; [eauto | discriminate..].
Qed.

Lemma bind_Done_intro {A B : Type} (m : M A) (k : A -> M B) w a w1 :
  m w = Done a w1 -> bind m k w = k a w1.
Proof. unfold bind. now intros ->. Qed.

(** ** What a call leaves alone *)

(** [proj] is a part of the world that only the stores through the pointers
    outside [mine] can change. *)
Section Frame.
Context {X : Type} (proj : world -> X) (mine : UMTX_ptr -> bool).
Hypothesis proj_store : forall p v w, mine p = false -> proj (store p v w) = proj w.
Hypothesis proj_count : forall v w, proj (set_gRecursionCount v w) = proj w.
Hypothesis proj_heap : forall v w, proj (set_heap v w) = proj w.
Hypothesis proj_os_calls : forall v w, proj (set_os_calls v w) = proj w.
Hypothesis proj_user : forall v w, proj (set_user v w) = proj w.
Hypothesis global_not_mine : mine addr_gGlobalMutex = false.
Hypothesis incdec_not_mine : mine addr_gIncDecMutex = false.

Lemma keeps_ret {A : Type} (a : A) : keeps proj (ret a).
Proof. now intros w. Qed.

Lemma keeps_get {A : Type} (f : world -> A) : keeps proj (get f).
Proof. now intros w. Qed.

Lemma keeps_bind {A B : Type} (m : M A) (k : A -> M B) :
  keeps proj m -> (forall a, keeps proj (k a)) -> keeps proj (bind m k).
Proof.
  intros Hm Hk w. unfold bind. specialize (Hm w).
  destruct (m w) as [a w1|w1|w1]; simpl in *; [|done..].
  now rewrite Hk.
Qed.

Lemma keeps_modify (f : world -> world) :
  (forall w, proj (f w) = proj w) -> keeps proj (modify f).
Proof. intros Hf w. apply Hf. Qed.

Lemma keeps_when c m : keeps proj m -> keeps proj (when c m).
Proof. destruct c; [done | intros _; apply keeps_ret]. Qed.

Lemma keeps_call c : keeps proj (call c).
Proof. intros w. unfold call. destruct (null_handle c); apply proj_os_calls. Qed.

Lemma keeps_U_ASSERT_locals {A : Type} b (locals : A) cond :
  (forall a, keeps proj (cond a)) -> keeps proj (U_ASSERT_locals b locals cond).
Proof.
  intros Hc. unfold U_ASSERT_locals. destruct (U_DEBUG b); [|apply keeps_ret].
  apply keeps_bind; [done|]. intros [[] a]; simpl; [apply keeps_ret | now intros w].
Qed.

Lemma keeps_U_ASSERT b cond : keeps proj cond -> keeps proj (U_ASSERT b cond).
Proof.
  intros Hc. apply keeps_U_ASSERT_locals. intros _.
  apply keeps_bind; [done | intros c; apply keeps_ret].
Qed.

Lemma keeps_uprv_malloc : keeps proj uprv_malloc.
Proof.
  intros w. unfold uprv_malloc.
  destruct (refusals (heap w)) as [|[] plan]; simpl; apply proj_heap.
Qed.

Lemma keeps_uprv_free p : keeps proj (uprv_free p).
Proof.
  apply keeps_modify. intros w. destruct p; [done | apply proj_heap | done].
Qed.

Lemma keeps_call_UMtxFn fn p : mine p = false -> keeps proj (call_UMtxFn fn p).
Proof.
  intros Hp. apply keeps_modify. intros w.
  destruct (fn _ _ _) as [v u]. now rewrite proj_user, proj_store.
Qed.

Lemma keeps_call_UMtxInitFn fn p status :
  mine p = false -> keeps proj (call_UMtxInitFn fn p status).
Proof.
  intros Hp w. unfold call_UMtxInitFn.
  destruct (fn _ _ _ _) as [[v s] u]. simpl. now rewrite proj_user, proj_store.
Qed.

Ltac keeps_step :=
  first
    [ apply keeps_ret | apply keeps_get | apply keeps_call
    | apply keeps_uprv_malloc | apply keeps_uprv_free
    | apply keeps_call_UMtxFn; assumption
    | apply keeps_call_UMtxInitFn; assumption
    | apply keeps_U_ASSERT | apply keeps_when
    | apply keeps_bind; [|intros ?]
    | apply keeps_modify; intros ?; first [apply proj_count | apply proj_store; assumption]
    | match goal with
      | |- keeps proj (if ?c then _ else _) => destruct c
      | |- keeps proj (match ?x with _ => _ end) => destruct x
      end ].

Lemma or_global_null_not_mine : mine (or_global null_ptr) = false.
Proof. exact global_not_mine. Qed.

Lemma keeps_umtx_raw_init b p : mine p = false -> keeps proj (umtx_raw_init b p).
Proof. intros Hp. unfold umtx_raw_init. repeat keeps_step. Qed.

Lemma keeps_umtx_unlock b p :
  mine (or_global p) = false -> keeps proj (umtx_unlock b p).
Proof. intros Hp. unfold umtx_unlock. repeat keeps_step. Qed.

Lemma keeps_umtx_destroy_body b self p :
  mine (or_global p) = false ->
  (or_global p = addr_gGlobalMutex -> keeps proj (self addr_gIncDecMutex)) ->
  keeps proj (umtx_destroy_body b self p).
Proof.
  intros Hp Hself. unfold umtx_destroy_body.
  repeat first
    [ assumption
    | match goal with
      | |- keeps proj (when (bool_decide _) _) =>
          unfold when; case_bool_decide; [now apply Hself | apply keeps_ret]
      end
    | keeps_step ].
Qed.

Lemma keeps_umtx_destroy b p :
  mine (or_global p) = false -> keeps proj (umtx_destroy b p).
Proof.
  intros Hp. unfold umtx_destroy.
  apply keeps_umtx_destroy_body; [done|]. intros _.
  apply keeps_umtx_destroy_body; [done | intros _; apply keeps_ret].
Qed.

Lemma keeps_umtx_lock_body b init p :
  mine (or_global p) = false -> keeps proj (init (or_global p)) ->
  keeps proj (umtx_lock_body b init p).
Proof.
  intros Hp Hinit. unfold umtx_lock_body.
  repeat first [assumption | keeps_step].
Qed.

Lemma keeps_umtx_init_global b lock t :
  keeps proj (umtx_init_body b lock t addr_gGlobalMutex).
Proof.
  unfold umtx_init_body. simpl.
  repeat first [ apply keeps_umtx_raw_init; assumption | keeps_step ].
Qed.

(** Locking and unlocking the global mutex, also when the lock first has
    to initialise it. *)
Lemma keeps_umtx_lock_global b t : keeps proj (umtx_lock b t null_ptr).
Proof.
  unfold umtx_lock.
  apply keeps_umtx_lock_body; [apply or_global_null_not_mine|].
  apply keeps_umtx_init_global.
Qed.

Lemma keeps_umtx_unlock_global b : keeps proj (umtx_unlock b null_ptr).
Proof. apply keeps_umtx_unlock, or_global_null_not_mine. Qed.
End Frame.

Lemma handles_store p v w : is_caller p = false -> handles (store p v w) = handles w.
Proof. now destruct p. Qed.

Lemma frames_store p v w : is_tMutex p = false -> frames (store p v w) = frames w.
Proof. now destruct p. Qed.

Lemma final_Done {A : Type} (m : M A) w a w' : m w = Done a w' -> final (m w) = w'.
Proof. now intros ->. Qed.

(** The callers' variables are out of reach of everything that works on
    the statics and on [tMutex]. *)
Lemma handles_umtx_lock_global b t w :
  handles (final (umtx_lock b t null_ptr w)) = handles w.
Proof. now apply (keeps_umtx_lock_global handles is_caller handles_store). Qed.

Lemma handles_umtx_unlock_global b w :
  handles (final (umtx_unlock b null_ptr w)) = handles w.
Proof. now apply (keeps_umtx_unlock_global handles is_caller handles_store). Qed.

Lemma handles_umtx_raw_init b p w :
  is_caller p = false -> handles (final (umtx_raw_init b p w)) = handles w.
Proof. intros Hp. now apply (keeps_umtx_raw_init handles is_caller handles_store). Qed.

Lemma handles_umtx_destroy b p w :
  is_caller (or_global p) = false -> handles (final (umtx_destroy b p w)) = handles w.
Proof. intros Hp. now apply (keeps_umtx_destroy handles is_caller handles_store). Qed.

(** Locking and unlocking the global mutex leaves every [tMutex] alone. *)
Lemma frames_umtx_lock_global b t w :
  frames (final (umtx_lock b t null_ptr w)) = frames w.
Proof. now apply (keeps_umtx_lock_global frames is_tMutex frames_store). Qed.

Lemma frames_umtx_unlock_global b w :
  frames (final (umtx_unlock b null_ptr w)) = frames w.
Proof. now apply (keeps_umtx_unlock_global frames is_tMutex frames_store). Qed.

(** ** The recursive calls of the source *)

(** [umtx_init] calls [umtx_lock], as in the source. *)
Lemma umtx_init_unfold b t mutex w :
  umtx_init b t mutex w = umtx_init_body b (umtx_lock b t) t mutex w.
Proof. reflexivity. Qed.

(** [umtx_destroy] calls itself, as in the source. *)
Lemma umtx_destroy_unfold b mutex w :
  umtx_destroy b mutex w = umtx_destroy_body b (umtx_destroy b) mutex w.
Proof.
  unfold umtx_destroy at 1. unfold umtx_destroy_body at 1.
  unfold umtx_destroy_body at 2.
  unfold bind, when. repeat case_match; try reflexivity.
Qed.

Lemma bind_assoc {A B C : Type} (m : M A) (k : A -> M B) (k' : B -> M C) w :
  bind (bind m k) k' w = bind m (fun a => bind (k a) k') w.
Proof. unfold bind. now destruct (m w). Qed.

Lemma bind_ret_l {A B : Type} (a : A) (k : A -> M B) w : bind (ret a) k w = k a w.
Proof. reflexivity. Qed.

Lemma bind_ext {A B : Type} (m : M A) (k k' : A -> M B) w :
  (forall a w', k a w' = k' a w') -> bind m k w = bind m k' w.
Proof. intros Hk. unfold bind. now destruct (m w). Qed.

Lemma bind_unit_r (m : M unit) (k : unit -> M unit) w :
  (forall a w', k a w' = Done tt w') -> bind m k w = m w.
Proof. intros Hk. unfold bind. destruct (m w) as [[] w'|w'|w']; [apply Hk | done..]. Qed.

Ltac run_eq :=
  repeat first
    [ reflexivity
    | discriminate
    | rewrite bind_assoc
    | rewrite bind_ret_l
    | rewrite bind_unit_r by (intros; reflexivity)
    | apply bind_ext; intros ? ?
    | progress simpl
    | progress unfold when
    | match goal with
      | |- context [if ?c then _ else _] => destruct c
      | H : context [if ?c then _ else _] |- _ => destruct c
      end ].

(** [umtx_init] on a mutex of a caller is the thread of the protocol run
    alone. *)
Lemma umtx_init_run b t n w :
  umtx_init b t (addr_caller n) w = init_run b t (addr_caller n) 4 at_check w.
Proof.
  rewrite umtx_init_unfold. unfold umtx_init_body, init_run, init_step.
  run_eq.
Qed.

(** ** The steps of the protocol *)

Lemma handles_Done_lock b t w a w' :
  umtx_lock b t null_ptr w = Done a w' -> handles w' = handles w /\ frames w' = frames w.
Proof.
  intros H%final_Done. rewrite <- H.
  split; [apply handles_umtx_lock_global | apply frames_umtx_lock_global].
Qed.

Lemma handles_Done_unlock b w a w' :
  umtx_unlock b null_ptr w = Done a w' -> handles w' = handles w /\ frames w' = frames w.
Proof.
  intros H%final_Done. rewrite <- H.
  split; [apply handles_umtx_unlock_global | apply frames_umtx_unlock_global].
Qed.

(** The first critical section reads the mutex and changes no variable of
    a caller. *)
Lemma step_check b t n w pc w1 :
  init_step b t (addr_caller n) at_check w = Done pc w1 ->
  handles w1 = handles w /\ frames w1 = <[t := NULL]> (frames w) /\
  pc = (if load w (addr_caller n) =? NULL then at_construct else returned).
Proof.
  unfold init_step. intros H.
  apply bind_Done in H as (? & w0 & [= <- <-] & H1).
  apply bind_Done in H1 as (? & wa & [Ha Fa]%handles_Done_lock & H2).
  apply bind_Done in H2 as (isInitialized & ? & [= <- <-] & H3).
  apply bind_Done in H3 as (? & wb & [Hb Fb]%handles_Done_unlock & [= <- <-]).
  simpl in *. rewrite Hb, Fb, Ha, Fa. repeat split.
  now destruct (default NULL (handles w !! n) =? NULL).
Qed.

Lemma step_construct b t n w pc w1 :
  init_step b t (addr_caller n) at_construct w = Done pc w1 ->
  pc = at_install /\ umtx_raw_init b (addr_tMutex t) w = Done tt w1 /\
  handles w1 = handles w.
Proof.
  unfold init_step. intros H.
  apply bind_Done in H as ([] & w0 & H0 & [= <- <-]).
  repeat split; [done|].
  rewrite <- (final_Done _ _ _ _ H0). now apply handles_umtx_raw_init.
Qed.

(** The second critical section installs [tMutex] when the mutex is still
    null, and otherwise leaves both as they are. *)
Lemma step_install b t n w pc w1 :
  init_step b t (addr_caller n) at_install w = Done pc w1 ->
  if load w (addr_caller n) =? NULL then
    handles w1 = <[n := load w (addr_tMutex t)]> (handles w) /\
    frames w1 = <[t := NULL]> (frames w) /\ pc = returned
  else
    handles w1 = handles w /\ frames w1 = frames w /\
    pc = (if load w (addr_tMutex t) =? NULL then returned else at_discard).
Proof.
  unfold init_step. intros H.
  apply bind_Done in H as (? & wa & [Ha Fa]%handles_Done_lock & H1).
  apply bind_Done in H1 as (? & wm & Hm & H2).
  apply bind_Done in H2 as (? & wb & [Hb Fb]%handles_Done_unlock & [= <- <-]).
  simpl in *. rewrite Hb, Fb. clear Hb Fb.
  unfold bind, get, when in Hm. simpl in Hm.
  rewrite Ha in Hm. destruct (default NULL (handles w !! n) =? NULL).
  - injection Hm as <- <-. simpl. rewrite Ha, Fa, lookup_insert_eq. simpl.
    repeat split.
  - injection Hm as <- <-. rewrite Ha, Fa. repeat split.
    now destruct (default NULL (frames w !! t) =? NULL).
Qed.

(** ** Calls that return *)

(** A failing [U_ASSERT] ends a run, and so does a primitive of the
    platform that is handed the null pointer.  [umtx_raw_init] and
    [umtx_destroy] contain no [U_ASSERT] and hand over what they have found
    not to be null; [umtx_unlock] returns at once on a null mutex; a build
    without threads calls no primitive. *)

Lemma returns_ret {A : Type} (a : A) : returns (ret a).
Proof. intros w. now exists a, w. Qed.

Lemma returns_get {A : Type} (f : world -> A) : returns (get f).
Proof. intros w. now exists (f w), w. Qed.

Lemma returns_modify f : returns (modify f).
Proof. intros w. now exists tt, (f w). Qed.

Lemma returns_bind {A B : Type} (m : M A) (k : A -> M B) :
  returns m -> (forall a, returns (k a)) -> returns (bind m k).
Proof.
  intros Hm Hk w. destruct (Hm w) as (a & w1 & H1).
  destruct (Hk a w1) as (r & w2 & H2). exists r, w2.
  now rewrite (bind_Done_intro _ _ _ _ _ H1).
Qed.

Lemma returns_when c m : returns m -> returns (when c m).
Proof. destruct c; [done | intros _; apply returns_ret]. Qed.

Lemma returns_uprv_malloc : returns uprv_malloc.
Proof.
  intros w. unfold uprv_malloc.
  destruct (refusals (heap w)) as [|[] plan]; eauto.
Qed.

Lemma returns_call_UMtxInitFn fn p status : returns (call_UMtxInitFn fn p status).
Proof. intros w. unfold call_UMtxInitFn. destruct (fn _ _ _ _) as [[v s] u]. eauto. Qed.

Lemma returns_call_UMtxAtomicFn fn p : returns (call_UMtxAtomicFn fn p).
Proof. intros w. unfold call_UMtxAtomicFn. destruct (fn _ _ _) as [[v s] u]. eauto. Qed.

Lemma returns_U_ASSERT_locals {A : Type} b (locals : A) cond :
  U_DEBUG b = false -> returns (U_ASSERT_locals b locals cond).
Proof. intros Hb. unfold U_ASSERT_locals. rewrite Hb. apply returns_ret. Qed.

Lemma returns_U_ASSERT b cond : U_DEBUG b = false -> returns (U_ASSERT b cond).
Proof. apply returns_U_ASSERT_locals. Qed.

Ltac returns_step :=
  first
    [ apply returns_ret | apply returns_get | apply returns_modify
    | apply returns_uprv_malloc | apply returns_call_UMtxInitFn
    | apply returns_call_UMtxAtomicFn
    | apply returns_U_ASSERT; assumption
    | apply returns_U_ASSERT_locals; assumption
    | apply returns_when
    | apply returns_bind; [|intros ?]
    | match goal with
      | |- returns (if ?c then _ else _) => destruct c
      | |- returns (match ?x with _ => _ end) => destruct x
      end ].

Lemma call_live c w :
  null_handle c = false ->
  call c w = Done tt (set_os_calls (os_calls w ++ [c]) w).
Proof. intros Hc. unfold call. now rewrite Hc. Qed.

Lemma returns_call c : null_handle c = false -> returns (call c).
Proof. intros Hc w. rewrite call_live by done. eauto. Qed.

Lemma returns_umtx_raw_init b p : returns (umtx_raw_init b p).
Proof.
  intros w. unfold umtx_raw_init, bind, get.
  destruct (pMutexInitFn w) as [f|].
  { destruct (returns_call_UMtxInitFn f p U_ZERO_ERROR w) as (status & w' & ->).
    destruct (U_FAILURE status); eauto. }
  destruct (ICU_USE_THREADS b); [|unfold modify; eauto].
  destruct (def_WIN32 b); [|destruct (POSIX b); [|unfold ret; eauto]];
    unfold uprv_malloc; destruct (refusals (heap w)) as [|[] plan];
    simpl; unfold ret, modify; eauto.
Qed.

Lemma returns_umtx_destroy_body b self p :
  (forall q, returns (self q)) -> returns (umtx_destroy_body b self p).
Proof.
  intros Hself w. unfold umtx_destroy_body. unfold bind at 1. unfold get at 1.
  destruct (load w (or_global p) =? NULL) eqn:Hv; [now apply returns_ret|].
  assert (exists w1,
            (let* fn := get pMutexDestroyFn in
             match fn with
             | Some f => call_UMtxFn f (or_global p)
             | None =>
                 if ICU_USE_THREADS b then
                   let* v := get (fun w0 => load w0 (or_global p)) in
                   if def_WIN32 b then
                     call (DeleteCriticalSection v) >> uprv_free v
                   else if POSIX b then
                     call (pthread_mutex_destroy v) >> uprv_free v
                   else ret tt
                 else ret tt
             end) w = Done tt w1) as (w1 & H1).
  { unfold bind at 1. unfold get at 1.
    destruct (pMutexDestroyFn w); [unfold call_UMtxFn, modify; eauto|].
    destruct (ICU_USE_THREADS b); [|unfold ret; eauto].
    unfold bind at 1. unfold get at 1.
    destruct (def_WIN32 b); [|destruct (POSIX b); [|unfold ret; eauto]].
    - rewrite (bind_Done_intro _ _ _ _ _
                 (call_live (DeleteCriticalSection _) w Hv)).
      unfold uprv_free, modify. eauto.
    - rewrite (bind_Done_intro _ _ _ _ _
                 (call_live (pthread_mutex_destroy _) w Hv)).
      unfold uprv_free, modify. eauto. }
  rewrite (bind_Done_intro _ _ _ _ _ H1).
  apply returns_bind; [apply returns_modify|]. intros _.
  repeat apply returns_when. apply Hself.
Qed.

Lemma returns_umtx_destroy b p : returns (umtx_destroy b p).
Proof.
  apply returns_umtx_destroy_body. intros q.
  apply returns_umtx_destroy_body. intros _. apply returns_ret.
Qed.

Lemma returns_umtx_unlock b p : U_DEBUG b = false -> returns (umtx_unlock b p).
Proof.
  intros Hb w. unfold umtx_unlock. unfold bind at 1. unfold get at 1.
  destruct (load w (or_global p) =? NULL) eqn:Hv.
  { now apply returns_U_ASSERT. }
  assert (exists w1,
            when (def_WIN32 b && def__DEBUG b)
              (when (bool_decide (or_global p = addr_gGlobalMutex))
                 (modify (fun w0 => set_gRecursionCount
                                      (wrap32 (gRecursionCount w0 - 1)) w0) >>
                  U_ASSERT b (get (fun w0 => gRecursionCount w0 =? 0)))) w
              = Done tt w1 /\
            load w1 (or_global p) = load w (or_global p)) as (w1 & H1 & Hl).
  { unfold when. destruct (def_WIN32 b && def__DEBUG b); [|now exists w].
    destruct (bool_decide _); [|now exists w].
    unfold bind, modify, U_ASSERT, U_ASSERT_locals. rewrite Hb.
    eexists. split; [reflexivity|]. now destruct (or_global p). }
  rewrite (bind_Done_intro _ _ _ _ _ H1). unfold bind at 1. unfold get at 1.
  destruct (pMutexUnlockFn w1); [unfold call_UMtxFn, modify; eauto|].
  destruct (ICU_USE_THREADS b); [|unfold ret; eauto].
  unfold bind at 1. unfold get at 1. rewrite Hl.
  destruct (def_WIN32 b); [|destruct (POSIX b); [|unfold ret; eauto]];
    now apply returns_call.
Qed.

(** Without threads, a release build returns from everything. *)
Lemma returns_umtx_lock_body b init p :
  ICU_USE_THREADS b = false -> U_DEBUG b = false ->
  returns (init (or_global p)) -> returns (umtx_lock_body b init p).
Proof.
  intros Ht Hb Hinit. unfold umtx_lock_body, call_UMtxFn. rewrite Ht.
  repeat first [assumption | returns_step].
Qed.

Lemma returns_umtx_init b t p :
  ICU_USE_THREADS b = false -> U_DEBUG b = false -> returns (umtx_init b t p).
Proof.
  intros Ht Hb. unfold umtx_init, umtx_init_body.
  repeat first
    [ apply returns_umtx_raw_init | apply returns_umtx_destroy
    | apply returns_umtx_unlock; assumption
    | apply returns_umtx_lock_body; [assumption..|]
    | returns_step ].
Qed.

Lemma returns_umtx_lock b t p :
  ICU_USE_THREADS b = false -> U_DEBUG b = false -> returns (umtx_lock b t p).
Proof.
  intros Ht Hb. apply returns_umtx_lock_body; [done..|].
  now apply returns_umtx_init.
Qed.

(** ** [umtx_destroy] *)

Lemma umtx_destroy_Done b p w : exists w', umtx_destroy b p w = Done tt w'.
Proof. destruct (returns_umtx_destroy b p w) as ([] & w' & H). eauto. Qed.

Lemma umtx_destroy_noop b p w :
  load w (or_global p) = NULL -> umtx_destroy b p w = Done tt w.
Proof.
  intros H. unfold umtx_destroy, umtx_destroy_body, bind, get. now rewrite H.
Qed.

Lemma load_store_eq p v w : p <> null_ptr -> load (store p v w) p = v.
Proof. destruct p; simpl; intros; rewrite ?lookup_insert_eq; done. Qed.

Lemma or_global_not_null p : or_global p <> null_ptr.
Proof. unfold or_global. now destruct (decide _). Qed.

(** Destroying [gIncDecMutex] leaves [gGlobalMutex] alone. *)
Lemma gGlobalMutex_destroy_incdec b self w :
  gGlobalMutex (final (umtx_destroy_body b self addr_gIncDecMutex w)) = gGlobalMutex w.
Proof.
  apply (keeps_umtx_destroy_body gGlobalMutex
           (fun p => bool_decide (p = addr_gGlobalMutex)));
    try done.
  now intros [] v w0 Hp.
Qed.

(** After [umtx_destroy] the mutex is null. *)
Lemma umtx_destroy_null b p w w' :
  umtx_destroy b p w = Done tt w' -> load w' (or_global p) = NULL.
Proof.
  unfold umtx_destroy. unfold umtx_destroy_body at 1. intros H.
  apply bind_Done in H as (v & ? & [= <- <-] & H1).
  destruct (load w (or_global p) =? NULL) eqn:Hv.
  { injection H1 as <-. now apply Z.eqb_eq. }
  apply bind_Done in H1 as (? & w1 & _ & H2).
  apply bind_Done in H2 as (? & w2 & [= <- <-] & H3).
  pose proof (or_global_not_null p) as Hp.
  unfold when in H3. destruct (POSIX b); [case_bool_decide as Hg|].
  - rewrite Hg in *. apply final_Done in H3. rewrite <- H3.
    apply gGlobalMutex_destroy_incdec.
  - injection H3 as <-. now apply load_store_eq.
  - injection H3 as <-. now apply load_store_eq.
Qed.

(** A second [umtx_destroy] changes nothing. *)
Lemma umtx_destroy_twice b p w :
  (umtx_destroy b p >> umtx_destroy b p) w = umtx_destroy b p w.
Proof.
  destruct (umtx_destroy_Done b p w) as (w' & H).
  rewrite (bind_Done_intro _ _ _ _ _ H), H.
  apply umtx_destroy_noop. eapply umtx_destroy_null, H.
Qed.

(** The last step disposes of the [tMutex] that was not installed. *)
Lemma step_discard b t n w pc w1 :
  init_step b t (addr_caller n) at_discard w = Done pc w1 ->
  pc = returned /\ umtx_destroy b (addr_tMutex t) w = Done tt w1 /\
  handles w1 = handles w /\ load w1 (addr_tMutex t) = NULL.
Proof.
  unfold init_step. intros H.
  apply bind_Done in H as ([] & w0 & H0 & [= <- <-]).
  repeat split; [done | |].
  - rewrite <- (final_Done _ _ _ _ H0). now apply handles_umtx_destroy.
  - apply (umtx_destroy_null _ _ _ _ H0).
Qed.

(** No step of any thread changes a mutex that is live. *)
Lemma init_step_live b t n pc w pc' w' :
  load w (addr_caller n) <> NULL ->
  init_step b t (addr_caller n) pc w = Done pc' w' ->
  handles w' = handles w.
Proof.
  intros Hlive H. destruct pc.
  - now apply step_check in H as (? & _).
  - now apply step_construct in H as (_ & _ & ?).
  - apply step_install in H. apply Z.eqb_neq in Hlive. rewrite Hlive in H.
    now destruct H.
  - now apply step_discard in H as (_ & _ & ? & _).
  - now injection H as <- <-.
Qed.

Lemma sys_step_live b n pcs w pcs' w' :
  load w (addr_caller n) <> NULL ->
  sys_step b (addr_caller n) (pcs, w) (pcs', w') ->
  handles w' = handles w.
Proof.
  intros Hlive H. inversion H; subst. eapply init_step_live; eauto.
Qed.

(** However the threads interleave, a mutex that is live stays what it
    is: it is installed at most once. *)
Lemma sys_steps_live b n s s' :
  rtc (sys_step b (addr_caller n)) s s' ->
  load (snd s) (addr_caller n) <> NULL ->
  handles (snd s') = handles (snd s).
Proof.
  induction 1 as [s | [pcs w] [pcs1 w1] s' Hstep _ IH]; [done|].
  simpl. intros Hlive.
  pose proof (sys_step_live _ _ _ _ _ _ Hlive Hstep) as Heq.
  rewrite <- Heq. apply IH. simpl in *. now rewrite Heq.
Qed.

(** ** Debug builds: when no [U_ASSERT] fails *)

Lemma umtx_lock_global_live b t w :
  gGlobalMutex w <> NULL -> pMutexLockFn w = None ->
  (win_debug b = true -> gRecursionCount w = 0) ->
  exists w', umtx_lock b t null_ptr w = Done tt w' /\
    gGlobalMutex w' = gGlobalMutex w /\ pMutexLockFn w' = None /\
    pMutexUnlockFn w' = pMutexUnlockFn w /\
    gRecursionCount w' = (if win_debug b then 1 else gRecursionCount w).
Proof.
  intros Hlive%Z.eqb_neq Hfn Hcount.
  unfold umtx_lock, umtx_lock_body, win_debug in *. simpl.
  unfold bind, get, when, call, modify, U_ASSERT, U_ASSERT_locals, ret. simpl.
  rewrite Hlive, Hfn.
  destruct (ICU_USE_THREADS b), (def_WIN32 b), (POSIX b), (def__DEBUG b),
    (U_DEBUG b); unfold null_handle; simpl in *; rewrite ?Hlive; simpl;
    unfold bind; simpl; rewrite ?Hcount by done; simpl; eauto 10.
Qed.

Lemma umtx_unlock_global_live b w :
  gGlobalMutex w <> NULL -> pMutexUnlockFn w = None ->
  (win_debug b = true -> gRecursionCount w = 1) ->
  exists w', umtx_unlock b null_ptr w = Done tt w' /\
    gGlobalMutex w' = gGlobalMutex w /\ pMutexLockFn w' = pMutexLockFn w /\
    pMutexUnlockFn w' = None /\
    gRecursionCount w' = (if win_debug b then 0 else gRecursionCount w).
Proof.
  intros Hlive%Z.eqb_neq Hfn Hcount.
  unfold umtx_unlock, win_debug in *. simpl.
  unfold bind, get, when, call, modify, U_ASSERT, U_ASSERT_locals, ret. simpl.
  rewrite Hlive.
  destruct (ICU_USE_THREADS b), (def_WIN32 b), (POSIX b), (def__DEBUG b),
    (U_DEBUG b); simpl in *; rewrite ?Hcount by done; simpl; rewrite Hfn;
    unfold null_handle; simpl; rewrite ?Hlive; simpl; eauto 10.
Qed.

Lemma lock_state_store p v w :
  is_global p = false -> lock_state (store p v w) = lock_state w.
Proof. now destruct p. Qed.

Lemma lock_state_umtx_raw_init b p w :
  is_global p = false -> lock_state (final (umtx_raw_init b p w)) = lock_state w.
Proof. intros Hp. now apply (keeps_umtx_raw_init lock_state is_global lock_state_store). Qed.

Lemma lock_state_umtx_destroy b p w :
  is_global (or_global p) = false ->
  lock_state (final (umtx_destroy b p w)) = lock_state w.
Proof. intros Hp. now apply (keeps_umtx_destroy lock_state is_global lock_state_store). Qed.

Lemma calm_lock_state b w w' : lock_state w' = lock_state w -> calm b w -> calm b w'.
Proof.
  unfold lock_state, calm. intros [= Hg Hl Hu Hc] (Hlive & HL & HU & HC).
  rewrite HL in Hl. rewrite HU in Hu. simpl in *.
  destruct (pMutexLockFn w'); [discriminate|].
  destruct (pMutexUnlockFn w'); [discriminate|].
  now rewrite Hg, Hc.
Qed.

(** The critical section [umtx_lock(NULL); body; umtx_unlock(NULL)] returns
    when [body] returns and stays off the statics. *)
Lemma critical_section_calm {A : Type} b t (body : M A) w :
  calm b w ->
  (forall w0, exists a w1, body w0 = Done a w1 /\ lock_state w1 = lock_state w0) ->
  exists a wa w1 w',
    umtx_lock b t null_ptr w = Done tt wa /\ body wa = Done a w1 /\
    umtx_unlock b null_ptr w1 = Done tt w' /\ calm b w'.
Proof.
  intros (Hlive & Hl & Hu & Hc) Hbody.
  destruct (umtx_lock_global_live b t w Hlive Hl Hc) as (wa & Ha & Hg & Hl' & Hu' & Hc').
  destruct (Hbody wa) as (a & w1 & Hb & [= Hg1 Hl1 Hu1 Hc1]).
  destruct (umtx_unlock_global_live b w1) as (w' & Hw' & Hg2 & Hl2 & Hu2 & Hc2).
  - congruence.
  - rewrite Hu', Hu in Hu1. now destruct (pMutexUnlockFn w1).
  - intros Hwd. rewrite Hc1, Hc', Hwd. done.
  - exists a, wa, w1, w'. repeat split; try done.
    + congruence.
    + rewrite Hl2. rewrite Hl' in Hl1. now destruct (pMutexLockFn w1).
    + intros Hwd. now rewrite Hc2, Hwd.
Qed.

(** In a debug build where the global mutex is live, is handled by the
    platform and is not held, every step of the protocol returns and leaves
    it so. *)
Lemma init_step_calm b t n pc w :
  calm b w ->
  exists pc' w', init_step b t (addr_caller n) pc w = Done pc' w' /\ calm b w'.
Proof.
  intros Hcalm. destruct pc; simpl.
  - set (w0 := store (addr_tMutex t) NULL w).
    assert (calm b w0) as Hcalm0 by now apply (calm_lock_state b w).
    destruct (critical_section_calm b t
                (get (fun w => negb (load w (addr_caller n) =? NULL))) w0 Hcalm0)
      as (a & wa & w1 & w' & Ha & [= <- <-] & Hu & Hcalm').
    { intros w1. now eexists _, w1. }
    eexists _, w'. split; [|done].
    unfold bind at 1. unfold modify at 1. fold w0.
    rewrite (bind_Done_intro _ _ _ _ _ Ha). unfold bind at 1. unfold get at 1.
    now rewrite (bind_Done_intro _ _ _ _ _ Hu).
  - destruct (returns_umtx_raw_init b (addr_tMutex t) w) as ([] & w' & H).
    exists at_install, w'. rewrite (bind_Done_intro _ _ _ _ _ H). split; [done|].
    apply (calm_lock_state b w); [|done].
    rewrite <- (final_Done _ _ _ _ H). now apply lock_state_umtx_raw_init.
  - destruct (critical_section_calm b t
                (let* v := get (fun w => load w (addr_caller n)) in
                 when (v =? NULL)
                   (let* tv := get (fun w => load w (addr_tMutex t)) in
                    modify (store (addr_caller n) tv) >>
                    modify (store (addr_tMutex t) NULL))) w Hcalm)
      as (a & wa & w1 & w' & Ha & Hb & Hu & Hcalm').
    { intros w1. unfold bind, get, when, modify, ret.
      destruct (_ =? _); now eexists _, _. }
    eexists _, w'. split; [|done].
    rewrite (bind_Done_intro _ _ _ _ _ Ha), (bind_Done_intro _ _ _ _ _ Hb).
    now rewrite (bind_Done_intro _ _ _ _ _ Hu).
  - destruct (returns_umtx_destroy b (addr_tMutex t) w) as ([] & w' & H).
    exists returned, w'. rewrite (bind_Done_intro _ _ _ _ _ H). split; [done|].
    apply (calm_lock_state b w); [|done].
    rewrite <- (final_Done _ _ _ _ H). now apply lock_state_umtx_destroy.
  - now exists returned, w.
Qed.

Lemma init_run_calm b t n k pc w :
  calm b w -> exists w', init_run b t (addr_caller n) k pc w = Done tt w'.
Proof.
  revert pc w. induction k as [|k IH]; intros pc w Hcalm; simpl.
  - now exists w.
  - destruct (decide (pc = returned)); [now exists w|].
    destruct (init_step_calm b t n pc w Hcalm) as (pc' & w1 & H1 & Hcalm1).
    rewrite (bind_Done_intro _ _ _ _ _ H1). now apply IH.
Qed.

(** [umtx_init] on a mutex of a caller returns when the global mutex is in
    order, and in a release build without threads. *)
Lemma umtx_init_quiet b t n w :
  (ICU_USE_THREADS b = false /\ U_DEBUG b = false) \/ calm b w ->
  exists w', umtx_init b t (addr_caller n) w = Done tt w'.
Proof.
  intros [[Ht Hb] | Hcalm].
  - destruct (returns_umtx_init b t (addr_caller n) Ht Hb w) as ([] & w' & H).
    eauto.
  - rewrite umtx_init_run. now apply init_run_calm.
Qed.

(** ** Construction and disposal by the platform *)

Lemma load_store_ne p q v w : q <> p -> load (store p v w) q = load w q.
Proof.
  intros Hq. destruct p, q; simpl; try done;
    rewrite lookup_insert_ne; congruence.
Qed.

Lemma umtx_raw_init_granted b p w :
  pMutexInitFn w = None -> native_threads b = true -> granted w = true ->
  p <> null_ptr ->
  exists w', umtx_raw_init b p w = Done tt w' /\
    load w' p = Z.pos (fresh (blocks (heap w))) /\
    (fresh (blocks (heap w)) ∉ blocks (heap w)) /\
    blocks (heap w') = {[fresh (blocks (heap w))]} ∪ blocks (heap w) /\
    (forall q, q <> p -> load w' q = load w q) /\
    refusals (heap w') = tail (refusals (heap w)) /\
    pMutexInitFn w' = None.
Proof.
  intros Hfn Hb Hg Hp. unfold umtx_raw_init, native_threads, granted in *.
  unfold bind at 1. unfold get at 1. rewrite Hfn.
  destruct (ICU_USE_THREADS b); [|done]. simpl in Hb.
  assert (uprv_malloc w = Done (Z.pos (fresh (blocks (heap w))))
            (set_heap (Cmemory ({[fresh (blocks (heap w))]} ∪ blocks (heap w))
                         (tail (refusals (heap w))) true) w)) as Hm.
  { unfold uprv_malloc. now destruct (refusals (heap w)) as [|[] ?]. }
  destruct (def_WIN32 b); [|destruct (POSIX b); [|done]];
    rewrite (bind_Done_intro _ _ _ _ _ Hm); simpl;
    (eexists; split; [reflexivity|]);
    (split; [now apply load_store_eq|]);
    (split; [apply is_fresh|]);
    (split; [now destruct p|]);
    (split; [intros q Hq; rewrite load_store_ne by done; now destruct q|]);
    now destruct p.
Qed.

Lemma umtx_raw_init_refused b p w :
  pMutexInitFn w = None -> native_threads b = true -> granted w = false ->
  exists w', umtx_raw_init b p w = Done tt w' /\
    (forall q, load w' q = load w q) /\ blocks (heap w') = blocks (heap w).
Proof.
  intros Hfn Hb Hg. unfold umtx_raw_init, native_threads, granted in *.
  unfold bind at 1. unfold get at 1. rewrite Hfn.
  destruct (ICU_USE_THREADS b); [|done]. simpl in Hb.
  destruct (refusals (heap w)) as [|[] plan] eqn:Hplan; try done.
  assert (uprv_malloc w = Done NULL (set_heap (Cmemory (blocks (heap w)) plan true) w))
    as Hm by (unfold uprv_malloc; now rewrite Hplan).
  destruct (def_WIN32 b); [|destruct (POSIX b); [|done]];
    rewrite (bind_Done_intro _ _ _ _ _ Hm); simpl;
    (eexists; split; [reflexivity|]); (split; [now intros []|done]).
Qed.

(** The platform's disposal of a mutex other than the global one releases
    its block. *)
Lemma umtx_destroy_native b p a w :
  pMutexDestroyFn w = None -> native_threads b = true ->
  is_global (or_global p) = false -> load w (or_global p) = Z.pos a ->
  exists w', umtx_destroy b p w = Done tt w' /\
    blocks (heap w') = blocks (heap w) ∖ {[a]} /\
    os_calls w' = os_calls w ++
      [if def_WIN32 b then DeleteCriticalSection (Z.pos a)
       else pthread_mutex_destroy (Z.pos a)].
Proof.
  intros Hfn Hb Hp Ha. unfold umtx_destroy, native_threads in *.
  unfold umtx_destroy_body at 1.
  unfold bind at 1. unfold get at 1. rewrite Ha. simpl.
  assert (bool_decide (or_global p = addr_gGlobalMutex) = false) as ->.
  { apply bool_decide_eq_false. intros Heq. now rewrite Heq in Hp. }
  destruct (ICU_USE_THREADS b); [|done]. simpl in Hb.
  unfold bind, get, call, uprv_free, modify, when, ret. simpl.
  rewrite Hfn, Ha.
  destruct (def_WIN32 b), (POSIX b); try done; simpl;
    (eexists; split; [reflexivity|]);
    now destruct (or_global p).
Qed.

(** ** [umtx_init] on a mutex of a caller *)

Lemma init_run_step b t mutex k pc w :
  pc <> returned ->
  init_run b t mutex (S k) pc w =
  (let* pc := init_step b t mutex pc in init_run b t mutex k pc) w.
Proof. intros Hpc. simpl. now destruct (decide (pc = returned)). Qed.

Lemma init_run_returned b t mutex k w :
  init_run b t mutex k returned w = Done tt w.
Proof. now destruct k. Qed.

(** On a null mutex the call installs what [umtx_raw_init] built in
    [tMutex], and hands [tMutex] over. *)
Lemma umtx_init_installs b t n w w' :
  load w (addr_caller n) = NULL ->
  umtx_init b t (addr_caller n) w = Done tt w' ->
  exists w1 w2,
    init_step b t (addr_caller n) at_check w = Done at_construct w1 /\
    umtx_raw_init b (addr_tMutex t) w1 = Done tt w2 /\
    handles w' = <[n := load w2 (addr_tMutex t)]> (handles w) /\
    load w' (addr_tMutex t) = NULL.
Proof.
  intros Hnull. rewrite umtx_init_run, init_run_step by done. intros H.
  apply bind_Done in H as (pc1 & w1 & H1 & H).
  pose proof (step_check _ _ _ _ _ _ H1) as (Hh1 & _ & Hpc).
  rewrite Hnull in Hpc. simpl in Hpc. subst pc1.
  rewrite init_run_step in H by done.
  apply bind_Done in H as (pc2 & w2 & H2 & H).
  pose proof (step_construct _ _ _ _ _ _ H2) as (-> & Hraw & Hh2).
  rewrite init_run_step in H by done.
  apply bind_Done in H as (pc3 & w3 & H3 & H).
  apply step_install in H3.
  assert (load w2 (addr_caller n) = NULL) as Hnull2.
  { simpl in *. now rewrite Hh2, Hh1. }
  rewrite Hnull2 in H3. simpl in H3. destruct H3 as (Hh3 & Hf3 & ->).
  rewrite init_run_returned in H. injection H as <-.
  exists w1, w2. repeat split; try done.
  - now rewrite Hh3, Hh2, Hh1.
  - simpl. now rewrite Hf3, lookup_insert_eq.
Qed.




(** ** [umtx_destroy] is idempotent *)

(** C5.  [umtx_destroy] on a null mutex changes nothing; after
    [umtx_destroy] the mutex is null, whatever it was; and a second
    [umtx_destroy] of the same mutex leaves what the first one left. *)
Theorem umtx_destroy_idempotent (b : build) (mutex : UMTX_ptr) (w : world) :
  (load w (or_global mutex) = NULL -> umtx_destroy b mutex w = Done tt w) /\
  (exists w', umtx_destroy b mutex w = Done tt w' /\
              load w' (or_global mutex) = NULL) /\
  (umtx_destroy b mutex >> umtx_destroy b mutex) w = umtx_destroy b mutex w.
Proof.
  split_and!.
  - apply umtx_destroy_noop.
  - destruct (umtx_destroy_Done b mutex w) as (w' & H).
    exists w'. split; [done|]. apply (umtx_destroy_null _ _ _ _ H).
  - apply umtx_destroy_twice.
Qed.

(** ** Registration *)

(** C10.  With a failure code in [*status] on entry, both registration
    functions return at once: the status and the world are what they were,
    whatever the callbacks and the state of the heap. *)
Theorem registration_after_failure (b : build) (context : Z)
    (i : option UMtxInitFn) (d l u : option UMtxFn)
    (ip dp : option UMtxAtomicFn) (status : UErrorCode) (w : world) :
  U_FAILURE status = true ->
  u_setMutexFunctions context i d l u status w = Done status w /\
  u_setAtomicIncDecFunctions b context ip dp status w = Done status w.
Proof.
  intros H. unfold u_setMutexFunctions, u_setAtomicIncDecFunctions.
  now rewrite H.
Qed.

(** In a debug build where nothing is live, with callbacks that are null
    and a heap in use, a status that is already a failure comes back as it
    is. *)
Lemma registration_after_failure_witness :
  let b := Build false false false false true false false true in
  let w := set_heap (Cmemory ∅ [] true) (initial_world []) in
  U_FAILURE U_INVALID_STATE_ERROR = true /\
  u_setMutexFunctions 0 None None None None U_INVALID_STATE_ERROR w =
    Done U_INVALID_STATE_ERROR w /\
  u_setAtomicIncDecFunctions b 0 None None U_INVALID_STATE_ERROR w =
    Done U_INVALID_STATE_ERROR w.
Proof.
  intros b w. split; [reflexivity|].
  apply (registration_after_failure b 0 None None None None None None
           U_INVALID_STATE_ERROR w).
  reflexivity.
Defined.

(** C6, as the code has it.  With no failure code in [*status] on entry, a
    null callback makes either registration function set the status to
    [U_ILLEGAL_ARGUMENT_ERROR] and leave the world as it was. *)
Theorem registration_null_callback (b : build) (context : Z)
    (i : option UMtxInitFn) (d l u : option UMtxFn)
    (ip dp : option UMtxAtomicFn) (status : UErrorCode) (w : world) :
  U_FAILURE status = false ->
  (i = None \/ d = None \/ l = None \/ u = None ->
   u_setMutexFunctions context i d l u status w =
     Done U_ILLEGAL_ARGUMENT_ERROR w) /\
  (ip = None \/ dp = None ->
   u_setAtomicIncDecFunctions b context ip dp status w =
     Done U_ILLEGAL_ARGUMENT_ERROR w).
Proof.
  intros H. unfold u_setMutexFunctions, u_setAtomicIncDecFunctions.
  rewrite H. split.
  - intros [-> | [-> | [-> | ->]]]; simpl; rewrite ?orb_true_r; done.
  - intros [-> | ->]; simpl; rewrite ?orb_true_r; done.
Qed.

(** C7, as the code has it.  With no failure code in [*status] on entry and
    no callback null, a heap that is in use makes either registration
    function set the status to [U_INVALID_STATE_ERROR] and leave the world
    as it was. *)
Theorem registration_heap_in_use (b : build) (context : Z)
    (i : UMtxInitFn) (d l u : UMtxFn) (ip dp : UMtxAtomicFn)
    (status : UErrorCode) (w : world) :
  U_FAILURE status = false ->
  gHeapInUse (heap w) = true ->
  u_setMutexFunctions context (Some i) (Some d) (Some l) (Some u) status w =
    Done U_INVALID_STATE_ERROR w /\
  u_setAtomicIncDecFunctions b context (Some ip) (Some dp) status w =
    Done U_INVALID_STATE_ERROR w.
Proof.
  intros H Hheap. unfold u_setMutexFunctions, u_setAtomicIncDecFunctions.
  rewrite H. simpl. unfold bind, cmemory_inUse, get. now rewrite Hheap.
Qed.

(** C6: the claim fails when [*status] already holds a failure code: the
    callbacks are null, and the status is not set to
    [U_ILLEGAL_ARGUMENT_ERROR]. *)
Lemma registration_null_callback_counterexample :
  u_setMutexFunctions 0 None None None None U_INVALID_STATE_ERROR
    (initial_world []) =
    Done U_INVALID_STATE_ERROR (initial_world []) /\
  u_setAtomicIncDecFunctions posix_release 0 None None U_INVALID_STATE_ERROR
    (initial_world []) =
    Done U_INVALID_STATE_ERROR (initial_world []) /\
  U_INVALID_STATE_ERROR <> U_ILLEGAL_ARGUMENT_ERROR.
Proof. split_and!; [reflexivity | reflexivity | discriminate]. Qed.

Lemma registration_null_callback_witness :
  U_FAILURE U_ZERO_ERROR = false /\
  u_setMutexFunctions 0 (Some failing_init) None (Some plain_fn) (Some plain_fn)
    U_ZERO_ERROR (initial_world []) =
    Done U_ILLEGAL_ARGUMENT_ERROR (initial_world []) /\
  u_setAtomicIncDecFunctions posix_debug 0 (Some stale_inc) None U_ZERO_ERROR
    (initial_world []) =
    Done U_ILLEGAL_ARGUMENT_ERROR (initial_world []).
Proof.
  split; [reflexivity|].
  destruct (registration_null_callback posix_debug 0 (Some failing_init) None
              (Some plain_fn) (Some plain_fn) (Some stale_inc) None
              U_ZERO_ERROR (initial_world []) eq_refl) as [Hm Ha].
  split; [apply Hm; tauto | apply Ha; tauto].
Defined.

(** C7: the claim fails when [*status] already holds a failure code: the
    heap is in use, no callback is null, and the status is not set to
    [U_INVALID_STATE_ERROR]. *)
Lemma registration_heap_in_use_counterexample :
  let w := final (umtx_init posix_release 1 null_ptr (initial_world [])) in
  gHeapInUse (heap w) = true /\
  u_setMutexFunctions 0 (Some failing_init) (Some plain_fn) (Some plain_fn)
    (Some plain_fn) U_ILLEGAL_ARGUMENT_ERROR w =
    Done U_ILLEGAL_ARGUMENT_ERROR w /\
  u_setAtomicIncDecFunctions posix_release 0 (Some stale_inc) (Some stale_dec)
    U_ILLEGAL_ARGUMENT_ERROR w =
    Done U_ILLEGAL_ARGUMENT_ERROR w /\
  U_ILLEGAL_ARGUMENT_ERROR <> U_INVALID_STATE_ERROR.
Proof. split_and!; [vm_compute; reflexivity.. | discriminate]. Qed.

Lemma registration_heap_in_use_witness :
  let w := final (umtx_init posix_release 1 null_ptr (initial_world [])) in
  U_FAILURE U_ZERO_ERROR = false /\ gHeapInUse (heap w) = true /\
  u_setMutexFunctions 0 (Some failing_init) (Some plain_fn) (Some plain_fn)
    (Some plain_fn) U_ZERO_ERROR w =
    Done U_INVALID_STATE_ERROR w /\
  u_setAtomicIncDecFunctions posix_release 0 (Some stale_inc) (Some stale_dec)
    U_ZERO_ERROR w =
    Done U_INVALID_STATE_ERROR w.
Proof.
  intros w. split; [reflexivity|].
  assert (gHeapInUse (heap w) = true) as Hheap by (vm_compute; reflexivity).
  split; [exact Hheap|].
  apply (registration_heap_in_use posix_release 0 failing_init plain_fn plain_fn
           plain_fn stale_inc stale_dec U_ZERO_ERROR w); [reflexivity | exact Hheap].
Defined.

(** ** Atomic increment and decrement *)

(** The calls of the platform inside [umtx_atomic_inc] and
    [umtx_atomic_dec], where no callback is registered and the guard is
    live where it is used. *)
Lemma umtx_atomic_inc_native b p w :
  pIncFn w = None -> (uses_guard b = true -> gIncDecMutex w <> NULL) ->
  umtx_atomic_inc b p w =
    Done (wrap32 (p + 1), wrap32 (p + 1))
      (logged (atomic_calls b (gIncDecMutex w) op_inc) w).
Proof.
  intros Hfn Hguard. unfold umtx_atomic_inc, atomic_calls, uses_guard, logged in *.
  unfold bind at 1. unfold get at 1. rewrite Hfn.
  destruct (def_WIN32 b && ICU_USE_THREADS b); [reflexivity|].
  destruct (POSIX b && ICU_USE_THREADS b); simpl in *.
  - apply Z.eqb_neq in Hguard; [|done].
    unfold bind, get, call, null_handle, ret. simpl. rewrite Hguard. simpl.
    destruct w. unfold set_os_calls. simpl. now rewrite <- app_assoc.
  - destruct w. unfold ret, set_os_calls. simpl. now rewrite app_nil_r.
Qed.

Lemma umtx_atomic_dec_native b p w :
  pDecFn w = None -> (uses_guard b = true -> gIncDecMutex w <> NULL) ->
  umtx_atomic_dec b p w =
    Done (wrap32 (p - 1), wrap32 (p - 1))
      (logged (atomic_calls b (gIncDecMutex w) op_dec) w).
Proof.
  intros Hfn Hguard. unfold umtx_atomic_dec, atomic_calls, uses_guard, logged in *.
  unfold bind at 1. unfold get at 1. rewrite Hfn.
  destruct (def_WIN32 b && ICU_USE_THREADS b); [reflexivity|].
  destruct (POSIX b && ICU_USE_THREADS b); simpl in *.
  - apply Z.eqb_neq in Hguard; [|done].
    unfold bind, get, call, null_handle, ret. simpl. rewrite Hguard. simpl.
    destruct w. unfold set_os_calls. simpl. now rewrite <- app_assoc.
  - destruct w. unfold ret, set_os_calls. simpl. now rewrite app_nil_r.
Qed.

(** Where the guard is used and is null, the first call of the platform is
    a lock of the null pointer. *)
Lemma umtx_atomic_null_guard b p w :
  uses_guard b = true -> gIncDecMutex w = NULL ->
  (pIncFn w = None ->
   umtx_atomic_inc b p w = Crashed (logged [pthread_mutex_lock NULL] w)) /\
  (pDecFn w = None ->
   umtx_atomic_dec b p w = Crashed (logged [pthread_mutex_lock NULL] w)).
Proof.
  unfold uses_guard. intros Hb Hnull.
  destruct (def_WIN32 b && ICU_USE_THREADS b) eqn:Hwin; [done|].
  simpl in Hb.
  split; intros Hfn; unfold umtx_atomic_inc, umtx_atomic_dec;
    unfold bind at 1; unfold get at 1; rewrite Hfn, Hwin, Hb;
    unfold bind, get, call; now rewrite Hnull.
Qed.

(** C2, as the code has it.  Without a registered callback,
    [umtx_atomic_inc] and [umtx_atomic_dec] return the value they leave in
    the integer (the old one plus or minus one, wrapped to 32 bits) and log
    the calls of the platform, on every build, provided the guard
    [gIncDecMutex] is live where it is used ([POSIX] with threads); where it
    is used and is null the call locks the null pointer and the run ends
    there.  With a registered callback they return what the callback
    returns.  From 0 the built-in paths give 1, then 2, then (decrementing)
    1. *)
Theorem umtx_atomic_post_update (b : build) (p : Z) (w : world) :
  (pIncFn w = None -> (uses_guard b = true -> gIncDecMutex w <> NULL) ->
   umtx_atomic_inc b p w =
     Done (wrap32 (p + 1), wrap32 (p + 1))
       (logged (atomic_calls b (gIncDecMutex w) op_inc) w)) /\
  (pDecFn w = None -> (uses_guard b = true -> gIncDecMutex w <> NULL) ->
   umtx_atomic_dec b p w =
     Done (wrap32 (p - 1), wrap32 (p - 1))
       (logged (atomic_calls b (gIncDecMutex w) op_dec) w)) /\
  (uses_guard b = true -> gIncDecMutex w = NULL ->
   (pIncFn w = None ->
    umtx_atomic_inc b p w = Crashed (logged [pthread_mutex_lock NULL] w)) /\
   (pDecFn w = None ->
    umtx_atomic_dec b p w = Crashed (logged [pthread_mutex_lock NULL] w))) /\
  (forall f, pIncFn w = Some f ->
   umtx_atomic_inc b p w = call_UMtxAtomicFn f p w) /\
  (forall f, pDecFn w = Some f ->
   umtx_atomic_dec b p w = call_UMtxAtomicFn f p w) /\
  (pIncFn w = None -> pDecFn w = None ->
   (uses_guard b = true -> gIncDecMutex w <> NULL) ->
   exists w1 w2 w3,
     umtx_atomic_inc b 0 w = Done (1, 1) w1 /\
     umtx_atomic_inc b 1 w1 = Done (2, 2) w2 /\
     umtx_atomic_dec b 2 w2 = Done (1, 1) w3).
Proof.
  split_and!.
  - apply umtx_atomic_inc_native.
  - apply umtx_atomic_dec_native.
  - apply umtx_atomic_null_guard.
  - intros f Hf. unfold umtx_atomic_inc, bind, get. now rewrite Hf.
  - intros f Hf. unfold umtx_atomic_dec, bind, get. now rewrite Hf.
  - intros Hi Hd Hguard.
    pose proof (umtx_atomic_inc_native b 0 w Hi Hguard) as H1.
    set (w1 := logged (atomic_calls b (gIncDecMutex w) op_inc) w) in *.
    pose proof (umtx_atomic_inc_native b 1 w1 Hi Hguard) as H2.
    set (w2 := logged (atomic_calls b (gIncDecMutex w1) op_inc) w1) in *.
    pose proof (umtx_atomic_dec_native b 2 w2 Hd Hguard) as H3.
    exists w1, w2. eexists. split_and!; [exact H1 | exact H2 | exact H3].
Qed.

(** After [umtx_init(NULL)] has constructed the guard. *)
Lemma umtx_atomic_post_update_witness :
  let w := final (umtx_init posix_release 1 null_ptr (initial_world [])) in
  pIncFn w = None /\ pDecFn w = None /\
  uses_guard posix_release = true /\ gIncDecMutex w <> NULL /\
  exists w1 w2 w3,
    umtx_atomic_inc posix_release 0 w = Done (1, 1) w1 /\
    umtx_atomic_inc posix_release 1 w1 = Done (2, 2) w2 /\
    umtx_atomic_dec posix_release 2 w2 = Done (1, 1) w3.
Proof.
  intros w.
  assert (pIncFn w = None) as Hi by (vm_compute; reflexivity).
  assert (pDecFn w = None) as Hd by (vm_compute; reflexivity).
  assert (gIncDecMutex w <> NULL) as Hguard by (vm_compute; discriminate).
  split_and!; [exact Hi | exact Hd | reflexivity | exact Hguard |].
  apply (umtx_atomic_post_update posix_release 0 w);
    [exact Hi | exact Hd | intros _; exact Hguard].
Defined.

(** C2: the claim fails on the callback path.  The callbacks below are
    registered in a debug build, where they pass the self-test; incrementing
    an integer that holds 1 then leaves 2 in it and returns 1, the value from
    before the update. *)
Lemma umtx_atomic_post_update_counterexample :
  let w := set_pDecFn (Some stale_dec)
             (set_pIncFn (Some stale_inc) (initial_world [])) in
  u_setAtomicIncDecFunctions posix_debug 0 (Some stale_inc) (Some stale_dec)
    U_ZERO_ERROR (initial_world []) = Done U_ZERO_ERROR w /\
  umtx_atomic_inc posix_debug 1 w = Done (1, 2) w /\
  umtx_atomic_dec posix_debug 2 w = Done (2, 1) w.
Proof. split_and!; reflexivity. Qed.

(** ** Locking and unlocking a null mutex *)

Lemma bind_get {A B : Type} (f : world -> A) (k : A -> M B) w :
  bind (get f) k w = k (f w) w.
Proof. reflexivity. Qed.

Lemma U_ASSERT_false_debug {B : Type} b (k : unit -> M B) w :
  U_DEBUG b = true -> bind (U_ASSERT b (ret false)) k w = AssertionFailed w.
Proof. intros Hb. unfold U_ASSERT, U_ASSERT_locals. now rewrite Hb. Qed.

Lemma U_ASSERT_release {B : Type} b cond (k : unit -> M B) w :
  U_DEBUG b = false -> bind (U_ASSERT b cond) k w = k tt w.
Proof. intros Hb. unfold U_ASSERT, U_ASSERT_locals. now rewrite Hb. Qed.

Lemma umtx_lock_null_debug b t mutex w :
  load w (or_global mutex) = NULL -> U_DEBUG b = true ->
  umtx_lock b t mutex w = AssertionFailed w.
Proof.
  intros Hnull Hb. unfold umtx_lock, umtx_lock_body.
  rewrite bind_assoc, bind_get, Hnull. change (NULL =? NULL) with true.
  unfold when. rewrite !bind_assoc. now apply U_ASSERT_false_debug.
Qed.

Lemma umtx_unlock_null_debug b mutex w :
  load w (or_global mutex) = NULL -> U_DEBUG b = true ->
  umtx_unlock b mutex w = AssertionFailed w.
Proof.
  intros Hnull Hb. unfold umtx_unlock.
  rewrite bind_get, Hnull. change (NULL =? NULL) with true.
  unfold U_ASSERT, U_ASSERT_locals. now rewrite Hb.
Qed.

Lemma umtx_unlock_null_release b mutex w :
  load w (or_global mutex) = NULL -> U_DEBUG b = false ->
  umtx_unlock b mutex w = Done tt w.
Proof.
  intros Hnull Hb. unfold umtx_unlock.
  rewrite bind_get, Hnull. change (NULL =? NULL) with true.
  unfold U_ASSERT, U_ASSERT_locals. now rewrite Hb.
Qed.

Lemma umtx_lock_null_release b t mutex w :
  load w (or_global mutex) = NULL -> U_DEBUG b = false ->
  umtx_lock b t mutex w =
    (umtx_init b t (or_global mutex) >> umtx_lock_no_init b mutex) w.
Proof.
  intros Hnull Hb. unfold umtx_lock, umtx_lock_no_init, umtx_lock_body.
  rewrite bind_assoc, bind_get, Hnull. change (NULL =? NULL) with true.
  unfold when at 1. rewrite bind_assoc, U_ASSERT_release by done.
  apply bind_ext. intros [] w1. symmetry.
  rewrite bind_assoc, bind_get.
  destruct (load w1 (or_global mutex) =? NULL); unfold when at 1.
  - now rewrite bind_assoc, U_ASSERT_release, bind_ret_l by done.
  - now rewrite bind_ret_l.
Qed.

(** In a release build [umtx_lock], past its call of [umtx_init], returns
    on a mutex that is live. *)
Lemma umtx_lock_no_init_live b p w :
  U_DEBUG b = false -> load w (or_global p) <> NULL ->
  exists w', umtx_lock_no_init b p w = Done tt w'.
Proof.
  intros Hb Hlive%Z.eqb_neq. unfold umtx_lock_no_init, umtx_lock_body.
  rewrite bind_assoc, bind_get, Hlive. unfold when at 1. rewrite bind_ret_l.
  assert (exists w1,
            (let* fn := get pMutexLockFn in
             match fn with
             | Some f => call_UMtxFn f (or_global p)
             | None =>
                 if ICU_USE_THREADS b then
                   let* v := get (fun w0 => load w0 (or_global p)) in
                   if def_WIN32 b then call (EnterCriticalSection v)
                   else if POSIX b then call (pthread_mutex_lock v)
                   else ret tt
                 else ret tt
             end) w = Done tt w1) as (w1 & H1).
  { rewrite bind_get.
    destruct (pMutexLockFn w); [unfold call_UMtxFn, modify; eauto|].
    destruct (ICU_USE_THREADS b); [|unfold ret; eauto]. rewrite bind_get.
    destruct (def_WIN32 b); [|destruct (POSIX b); [|unfold ret; eauto]];
      rewrite call_live by exact Hlive; eauto. }
  rewrite (bind_Done_intro _ _ _ _ _ H1).
  unfold when. destruct (def_WIN32 b && def__DEBUG b); [|unfold ret; eauto].
  destruct (bool_decide _); [|unfold ret; eauto].
  unfold bind, modify, U_ASSERT, U_ASSERT_locals. rewrite Hb. unfold ret. eauto.
Qed.

(** On a mutex that is still null it hands the null pointer to the
    platform. *)
Lemma umtx_lock_no_init_null b p w :
  U_DEBUG b = false -> load w (or_global p) = NULL ->
  pMutexLockFn w = None -> native_threads b = true ->
  umtx_lock_no_init b p w =
    Crashed (logged (platform_call b (EnterCriticalSection NULL)
                       (pthread_mutex_lock NULL)) w).
Proof.
  intros Hb Hnull Hfn Hn. unfold umtx_lock_no_init, umtx_lock_body.
  rewrite bind_assoc, bind_get, Hnull. change (NULL =? NULL) with true.
  unfold when at 1. rewrite bind_assoc, U_ASSERT_release, bind_ret_l by done.
  rewrite bind_assoc, bind_get, Hfn. unfold native_threads, platform_call in *.
  destruct (ICU_USE_THREADS b); [|done]. simpl in Hn.
  rewrite bind_assoc, bind_get, Hnull.
  destruct (def_WIN32 b); [reflexivity|]. simpl in Hn. rewrite Hn. reflexivity.
Qed.

(** C4, as the code has it.  On a null mutex, in a debug build both
    [umtx_lock] and [umtx_unlock] stop at their [U_ASSERT]; in a release
    build [umtx_lock] calls [umtx_init] on the mutex and then locks as it
    would have: it returns if [umtx_init] has left the mutex live, and hands
    the null pointer to the platform's lock if [umtx_init] has left it
    null; [umtx_unlock] returns at once and changes nothing: it initialises
    nothing. *)
Theorem umtx_lock_unlock_null (b : build) (t : positive) (mutex : UMTX_ptr)
    (w : world) :
  load w (or_global mutex) = NULL ->
  (U_DEBUG b = true ->
   umtx_lock b t mutex w = AssertionFailed w /\
   umtx_unlock b mutex w = AssertionFailed w) /\
  (U_DEBUG b = false ->
   umtx_lock b t mutex w =
     (umtx_init b t (or_global mutex) >> umtx_lock_no_init b mutex) w /\
   (forall w1, umtx_init b t (or_global mutex) w = Done tt w1 ->
      load w1 (or_global mutex) <> NULL ->
      exists w', umtx_lock b t mutex w = Done tt w') /\
   (forall w1, umtx_init b t (or_global mutex) w = Done tt w1 ->
      load w1 (or_global mutex) = NULL ->
      pMutexLockFn w1 = None -> native_threads b = true ->
      umtx_lock b t mutex w =
        Crashed (logged (platform_call b (EnterCriticalSection NULL)
                           (pthread_mutex_lock NULL)) w1)) /\
   umtx_unlock b mutex w = Done tt w).
Proof.
  intros Hnull. split; intros Hb.
  - split; [now apply umtx_lock_null_debug | now apply umtx_unlock_null_debug].
  - split_and!.
    + now apply umtx_lock_null_release.
    + intros w1 Hinit Hlive. rewrite umtx_lock_null_release by done.
      rewrite (bind_Done_intro _ _ _ _ _ Hinit).
      now apply umtx_lock_no_init_live.
    + intros w1 Hinit Hstill Hfn Hn. rewrite umtx_lock_null_release by done.
      rewrite (bind_Done_intro _ _ _ _ _ Hinit).
      now apply umtx_lock_no_init_null.
    + now apply umtx_unlock_null_release.
Qed.

Lemma umtx_lock_unlock_null_witness :
  let w := final (umtx_init posix_release 1 null_ptr (initial_world [])) in
  let w1 := final (umtx_init posix_release 1 (addr_caller 1) w) in
  load w (or_global (addr_caller 1)) = NULL /\
  U_DEBUG posix_release = false /\
  umtx_init posix_release 1 (or_global (addr_caller 1)) w = Done tt w1 /\
  load w1 (or_global (addr_caller 1)) <> NULL /\
  (exists w', umtx_lock posix_release 1 (addr_caller 1) w = Done tt w') /\
  umtx_unlock posix_release (addr_caller 1) w = Done tt w.
Proof.
  intros w w1.
  assert (load w (or_global (addr_caller 1)) = NULL) as Hnull
    by (vm_compute; reflexivity).
  assert (umtx_init posix_release 1 (or_global (addr_caller 1)) w = Done tt w1)
    as Hinit by (vm_compute; reflexivity).
  assert (load w1 (or_global (addr_caller 1)) <> NULL) as Hlive
    by (vm_compute; discriminate).
  split_and!; [exact Hnull | reflexivity | exact Hinit | exact Hlive | |];
    destruct (umtx_lock_unlock_null posix_release 1 (addr_caller 1) w Hnull)
      as [_ H];
    destruct (H eq_refl) as (_ & Hlock & _ & Hunlock).
  - exact (Hlock w1 Hinit Hlive).
  - exact Hunlock.
Defined.

(** The emergency initialisation can fail.  With the allocator refusing,
    [umtx_lock(NULL)] on the statics as the loader leaves them goes on to
    lock the null pointer. *)
Example umtx_lock_null_refused :
  let w := initial_world [true; true] in
  let w1 := final (umtx_init posix_release 1 null_ptr w) in
  umtx_init posix_release 1 null_ptr w = Done tt w1 /\
  gGlobalMutex w1 = NULL /\
  umtx_lock posix_release 1 null_ptr w =
    Crashed (logged [pthread_mutex_lock NULL] w1).
Proof. split_and!; vm_compute; reflexivity. Qed.

(** C4: the claim fails for [umtx_unlock].  In a release build, unlocking
    the null mutex of a caller leaves the world as it is and the mutex null,
    where [umtx_init] (and so [umtx_lock]) would have made it live. *)
Lemma umtx_lock_unlock_null_counterexample :
  let w := final (umtx_init posix_release 1 null_ptr (initial_world [])) in
  load w (addr_caller 1) = NULL /\
  umtx_unlock posix_release (addr_caller 1) w = Done tt w /\
  load (final (umtx_init posix_release 1 (addr_caller 1) w)) (addr_caller 1) = 3 /\
  load (final (umtx_lock posix_release 1 (addr_caller 1) w)) (addr_caller 1) = 3.
Proof. split_and!; vm_compute; reflexivity. Qed.

(** ** [umtx_init] on the global mutex *)

Lemma umtx_init_global_unfold b t w :
  umtx_init b t null_ptr w =
    (let* v := get gGlobalMutex in
     if negb (v =? NULL) then ret tt
     else
       umtx_raw_init b addr_gGlobalMutex >>
       modify (set_gRecursionCount 0) >>
       when (POSIX b) (umtx_raw_init b addr_gIncDecMutex)) w.
Proof. reflexivity. Qed.

Lemma umtx_init_global_null b t w :
  gGlobalMutex w = NULL ->
  exists w1 w',
    umtx_raw_init b addr_gGlobalMutex w = Done tt w1 /\
    (if POSIX b
     then umtx_raw_init b addr_gIncDecMutex (set_gRecursionCount 0 w1) = Done tt w'
     else w' = set_gRecursionCount 0 w1) /\
    umtx_init b t null_ptr w = Done tt w' /\
    gRecursionCount w' = 0 /\ gGlobalMutex w' = gGlobalMutex w1.
Proof.
  intros Hnull. rewrite umtx_init_global_unfold, bind_get, Hnull.
  change (negb (NULL =? NULL)) with false. cbv iota.
  destruct (returns_umtx_raw_init b addr_gGlobalMutex w) as ([] & w1 & H1).
  rewrite (bind_Done_intro _ _ _ _ _ H1).
  unfold bind at 1. unfold modify at 1. unfold when.
  destruct (POSIX b).
  - destruct (returns_umtx_raw_init b addr_gIncDecMutex (set_gRecursionCount 0 w1))
      as ([] & w' & H2).
    exists w1, w'. split_and!; try done.
    all: pose proof (lock_state_umtx_raw_init b addr_gIncDecMutex
                       (set_gRecursionCount 0 w1) eq_refl) as Hls.
    all: rewrite H2 in Hls; now injection Hls.
  - exists w1, (set_gRecursionCount 0 w1). now split_and!.
Qed.

Lemma granted_twice_granted w : granted_twice w = true -> granted w = true.
Proof. unfold granted_twice, granted. now destruct (refusals (heap w)) as [|[] ?]. Qed.

(** With the platform's mutexes, on [POSIX], and an allocator that grants
    two requests, the global mutex and the guard get two new blocks. *)
Lemma umtx_init_global_native b t w :
  gGlobalMutex w = NULL -> pMutexInitFn w = None ->
  native_threads b = true -> POSIX b = true -> granted_twice w = true ->
  exists w',
    umtx_init b t null_ptr w = Done tt w' /\
    gGlobalMutex w' = Z.pos (fresh (blocks (heap w))) /\
    gIncDecMutex w' =
      Z.pos (fresh ({[fresh (blocks (heap w))]} ∪ blocks (heap w))) /\
    gGlobalMutex w' <> gIncDecMutex w' /\
    gRecursionCount w' = 0.
Proof.
  intros Hnull Hfn Hb Hposix Hg.
  destruct (umtx_init_global_null b t w Hnull) as (w1 & w' & H1 & H2 & H & Hc & Hgm).
  rewrite Hposix in H2.
  destruct (umtx_raw_init_granted b addr_gGlobalMutex w Hfn Hb)
    as (w1' & H1' & Hl1 & _ & Hb1 & _ & Hr1 & Hfn1);
    [now apply granted_twice_granted | done |].
  rewrite H1 in H1'. injection H1' as <-.
  destruct (umtx_raw_init_granted b addr_gIncDecMutex (set_gRecursionCount 0 w1))
    as (w2' & H2' & Hl2 & Hf2 & _); try done.
  { unfold granted, granted_twice in *. simpl. rewrite Hr1.
    now destruct (refusals (heap w)) as [|[] [|[] ?]]. }
  rewrite H2 in H2'. injection H2' as <-.
  exists w'. split_and!; try done.
  - rewrite Hgm. exact Hl1.
  - simpl in Hl2. now rewrite Hl2, Hb1.
  - simpl in Hl2, Hf2, Hl1. rewrite Hgm, Hl1, Hl2, Hb1.
    intros [= Heq]. rewrite Hb1 in Hf2. apply Hf2. rewrite <- Heq.
    apply elem_of_union_l. now apply elem_of_singleton.
Qed.



(** ** Construction that fails *)

(** C9, as the code has it.  [umtx_raw_init] raises nothing.  When the
    allocator refuses, it returns with every mutex as it was (a null one is
    still null) and nothing allocated; when a registered init callback
    reports a failure, it returns with the mutex holding whatever the
    callback stored there. *)
Theorem umtx_raw_init_failure (b : build) (mutex : UMTX_ptr) (w : world) :
  (pMutexInitFn w = None -> native_threads b = true -> granted w = false ->
   exists w',
     umtx_raw_init b mutex w = Done tt w' /\
     (forall q, load w' q = load w q) /\
     blocks (heap w') = blocks (heap w)) /\
  (forall f v status u,
     pMutexInitFn w = Some f ->
     f (gMutexContext w) (load w mutex) U_ZERO_ERROR (user w) = (v, status, u) ->
     U_FAILURE status = true ->
     umtx_raw_init b mutex w = Done tt (set_user u (store mutex v w)) /\
     (mutex <> null_ptr -> load (set_user u (store mutex v w)) mutex = v)).
Proof.
  split.
  - apply umtx_raw_init_refused.
  - intros f v status u Hfn Hf Hfail. split.
    + unfold umtx_raw_init. rewrite bind_get, Hfn.
      unfold bind, call_UMtxInitFn. rewrite Hf, Hfail. reflexivity.
    + intros Hp. destruct mutex; simpl; rewrite ?lookup_insert_eq; done.
Qed.

Lemma umtx_raw_init_failure_witness :
  let w := initial_world [true] in
  pMutexInitFn w = None /\ native_threads posix_release = true /\
  granted w = false /\
  exists w',
    umtx_raw_init posix_release (addr_caller 1) w = Done tt w' /\
    (forall q, load w' q = load w q) /\
    blocks (heap w') = blocks (heap w).
Proof.
  intros w. split_and!; [reflexivity | reflexivity | reflexivity |].
  apply (umtx_raw_init_failure posix_release (addr_caller 1) w); reflexivity.
Defined.

(** C9: the claim fails for a callback that stores a handle and then
    reports a failure: the mutex is left holding that handle, not null. *)
Lemma umtx_raw_init_failure_counterexample :
  let w0 := initial_world [] in
  let w := set_gMutexContext 0
             (set_pMutexUnlockFn (Some plain_fn)
                (set_pMutexLockFn (Some plain_fn)
                   (set_pMutexDestroyFn (Some plain_fn)
                      (set_pMutexInitFn (Some failing_init) w0)))) in
  u_setMutexFunctions 0 (Some failing_init) (Some plain_fn) (Some plain_fn)
    (Some plain_fn) U_ZERO_ERROR w0 = Done U_ZERO_ERROR w /\
  U_FAILURE (snd (fst (failing_init 0 NULL U_ZERO_ERROR 0))) = true /\
  load w (addr_caller 1) = NULL /\
  umtx_raw_init posix_release (addr_caller 1) w =
    Done tt (store (addr_caller 1) 7 w) /\
  load (store (addr_caller 1) 7 w) (addr_caller 1) = 7 /\
  gGlobalMutex (final (umtx_init posix_release 1 null_ptr w)) = 7.
Proof. split_and!; reflexivity. Qed.

(** ** Teardown *)

Lemma gIncDecContext_umtx_destroy b p w :
  gIncDecContext (final (umtx_destroy b p w)) = gIncDecContext w.
Proof.
  apply (keeps_umtx_destroy gIncDecContext (fun _ => false)); try done.
  now intros [].
Qed.

(** What [umtx_cleanup] does reset: the global mutex, the four mutex
    callbacks with their context, and the two atomic callbacks.  It never
    writes [gIncDecContext], and it leaves [gIncDecMutex] alone when the
    global mutex is null. *)
Lemma umtx_cleanup_resets b w :
  exists w',
    umtx_cleanup b w = Done true w' /\
    gGlobalMutex w' = NULL /\
    pMutexInitFn w' = None /\ pMutexDestroyFn w' = None /\
    pMutexLockFn w' = None /\ pMutexUnlockFn w' = None /\
    gMutexContext w' = 0 /\ pIncFn w' = None /\ pDecFn w' = None /\
    gIncDecContext w' = gIncDecContext w /\
    (gGlobalMutex w = NULL -> gIncDecMutex w' = gIncDecMutex w).
Proof.
  destruct (umtx_destroy_Done b null_ptr w) as (w1 & H1).
  pose proof (umtx_destroy_null _ _ _ _ H1) as Hnull.
  pose proof (gIncDecContext_umtx_destroy b null_ptr w) as Hctx.
  rewrite H1 in Hctx. simpl in Hnull, Hctx.
  eexists. split.
  { unfold umtx_cleanup. rewrite (bind_Done_intro _ _ _ _ _ H1). reflexivity. }
  simpl. split_and!; try done.
  intros Hg. rewrite umtx_destroy_noop in H1 by done. now injection H1 as <-.
Qed.

(** C3: the failing run.  On [POSIX] with threads, the allocator refuses
    the global mutex and grants the guard; [umtx_init(NULL)] then leaves the
    global mutex null and the guard live, and [umtx_cleanup] returns with the
    guard still live and its block still allocated.  In every world
    [umtx_cleanup] leaves [gIncDecContext] as it was. *)
Theorem umtx_cleanup_leaves_guard :
  let w0 := initial_world [true; false] in
  let w1 := final (umtx_init posix_release 1 null_ptr w0) in
  let w2 := final (umtx_cleanup posix_release w1) in
  (umtx_init posix_release 1 null_ptr w0 = Done tt w1 /\
   gGlobalMutex w1 = NULL /\ gIncDecMutex w1 = 1 /\
   umtx_cleanup posix_release w1 = Done true w2 /\
   gGlobalMutex w2 = NULL /\ gIncDecMutex w2 = 1 /\
   blocks (heap w2) = {[1%positive]} /\
   os_calls w2 = [pthread_mutex_init 1 false]) /\
  (forall b w, exists w',
     umtx_cleanup b w = Done true w' /\
     gIncDecContext w' = gIncDecContext w /\
     (gGlobalMutex w = NULL -> gIncDecMutex w' = gIncDecMutex w)).
Proof.
  split.
  - split_and!; vm_compute; reflexivity.
  - intros b w. destruct (umtx_cleanup_resets b w) as (w' & H & Hrest).
    exists w'. split; [done|]. tauto.
Qed.

(** ** Two runs *)

(** Two threads race to initialise the same mutex of a caller: both find it
    null, both construct a [tMutex], the first installs its own, the second
    finds the mutex live and destroys its own.  The mutex holds the block of
    the first thread, and the block of the second is released. *)
Example two_threads_race :
  let b := posix_release in
  let mutex := addr_caller 1 in
  let w := final (umtx_init b 1 null_ptr (initial_world [])) in
  let race :=
    init_step b 1 mutex at_check >> init_step b 2 mutex at_check >>
    init_step b 1 mutex at_construct >> init_step b 2 mutex at_construct >>
    init_step b 1 mutex at_install >>
    let* pc := init_step b 2 mutex at_install in
    init_step b 2 mutex pc in
  race w = Done returned (final (race w)) /\
  load (final (race w)) mutex = 3 /\
  load (final (race w)) (addr_tMutex 1) = NULL /\
  load (final (race w)) (addr_tMutex 2) = NULL /\
  blocks (heap (final (race w))) = {[1; 2; 3]}%positive.
Proof. split_and!; vm_compute; reflexivity. Qed.

(** The global mutex is not recursive: in the debug build for Windows a
    second [umtx_lock(NULL)] fails the assertion on [gRecursionCount]. *)
Example global_mutex_relocked :
  let b := win32_debug in
  let w := final ((umtx_init b 1 null_ptr >> umtx_lock b 1 null_ptr)
                    (initial_world [])) in
  gRecursionCount w = 1 /\
  umtx_lock b 1 null_ptr w = AssertionFailed (set_gRecursionCount 2
    (set_os_calls (os_calls w ++ [EnterCriticalSection 1]) w)).
Proof. split_and!; vm_compute; reflexivity. Qed.

(** ** The protocol statement by statement *)

Lemma logged_nil w : logged [] w = w.
Proof. destruct w. unfold logged, set_os_calls. simpl. now rewrite app_nil_r. Qed.


Lemma wrap32_small z : - 2 ^ 31 <= z < 2 ^ 31 -> wrap32 z = z.
Proof. intros Hz. unfold wrap32. rewrite Z.mod_small; lia. Qed.

(** What [umtx_lock(NULL)] and [umtx_unlock(NULL)] do on a live global
    mutex that the platform locks, where the counter is not compiled in. *)
Lemma umtx_lock_global_plain b t w :
  gGlobalMutex w <> NULL -> pMutexLockFn w = None -> win_debug b = false ->
  umtx_lock b t null_ptr w =
    Done tt (logged (platform_call b (EnterCriticalSection (gGlobalMutex w))
                       (pthread_mutex_lock (gGlobalMutex w))) w).
Proof.
  intros Hlive%Z.eqb_neq Hl Hwd.
  unfold win_debug, umtx_lock, umtx_lock_body, platform_call in *.
  change (or_global null_ptr) with addr_gGlobalMutex.
  rewrite bind_assoc, bind_get.
  change (load w addr_gGlobalMutex) with (gGlobalMutex w). rewrite Hlive, Hwd.
  unfold when. rewrite bind_ret_l, bind_assoc, bind_get, Hl.
  destruct (ICU_USE_THREADS b); [|now rewrite logged_nil].
  rewrite bind_assoc, bind_get.
  change (load w addr_gGlobalMutex) with (gGlobalMutex w).
  destruct (def_WIN32 b);
    [unfold bind; now rewrite call_live by exact Hlive|].
  destruct (POSIX b);
    [unfold bind; now rewrite call_live by exact Hlive|].
  now rewrite logged_nil.
Qed.

Lemma umtx_unlock_global_plain b w :
  gGlobalMutex w <> NULL -> pMutexUnlockFn w = None -> win_debug b = false ->
  umtx_unlock b null_ptr w =
    Done tt (logged (platform_call b (LeaveCriticalSection (gGlobalMutex w))
                       (pthread_mutex_unlock (gGlobalMutex w))) w).
Proof.
  intros Hlive%Z.eqb_neq Hu Hwd.
  unfold win_debug, umtx_unlock, platform_call in *.
  change (or_global null_ptr) with addr_gGlobalMutex.
  rewrite bind_get.
  change (load w addr_gGlobalMutex) with (gGlobalMutex w). rewrite Hlive, Hwd.
  unfold when. rewrite bind_ret_l, bind_get, Hu.
  destruct (ICU_USE_THREADS b); [|now rewrite logged_nil].
  rewrite bind_get.
  change (load w addr_gGlobalMutex) with (gGlobalMutex w).
  destruct (def_WIN32 b); [now rewrite call_live by exact Hlive|].
  destruct (POSIX b); [now rewrite call_live by exact Hlive|].
  now rewrite logged_nil.
Qed.



(** ** The calls of the platform along a step *)






(** ** What a statement does to what the threads share *)





(** ** The platform's mutex keeps the threads apart *)







(** ** The statements return *)








(** ** One thread alone *)



(** ** [umtx_init] on a mutex of a caller, all in all *)




(** * More of the file *)

(** ** What no operation on a mutex or a counter writes *)

(** [proj] is a part of the world that no store through a [UMTX *] and no
    work of the platform, the allocator or a callback changes. *)
Section Untouched.
Context {X : Type} (proj : world -> X).
Hypothesis proj_store : forall p v w, proj (store p v w) = proj w.
Hypothesis proj_count : forall v w, proj (set_gRecursionCount v w) = proj w.
Hypothesis proj_heap : forall v w, proj (set_heap v w) = proj w.
Hypothesis proj_os_calls : forall v w, proj (set_os_calls v w) = proj w.
Hypothesis proj_user : forall v w, proj (set_user v w) = proj w.

Lemma untouched_umtx_raw_init b p : keeps proj (umtx_raw_init b p).
Proof. apply (keeps_umtx_raw_init proj (fun _ => false)); auto. Qed.

Lemma untouched_umtx_unlock b p : keeps proj (umtx_unlock b p).
Proof. apply (keeps_umtx_unlock proj (fun _ => false)); auto. Qed.

Lemma untouched_umtx_destroy b p : keeps proj (umtx_destroy b p).
Proof. apply (keeps_umtx_destroy proj (fun _ => false)); auto. Qed.

Lemma untouched_umtx_lock_body b init p :
  keeps proj (init (or_global p)) -> keeps proj (umtx_lock_body b init p).
Proof. apply (keeps_umtx_lock_body proj (fun _ => false)); auto. Qed.

Lemma untouched_umtx_init_body b lock t p :
  keeps proj (lock null_ptr) -> keeps proj (umtx_init_body b lock t p).
Proof.
  intros Hlock. unfold umtx_init_body.
  repeat first
    [ assumption
    | apply untouched_umtx_raw_init | apply untouched_umtx_unlock
    | apply untouched_umtx_destroy
    | apply keeps_ret | apply keeps_get | apply keeps_when
    | apply keeps_bind; [|intros ?]
    | apply keeps_modify; intros ?; first [apply proj_count | apply proj_store]
    | match goal with
      | |- keeps proj (if ?c then _ else _) => destruct c
      end ].
Qed.

Lemma untouched_umtx_init b t p : keeps proj (umtx_init b t p).
Proof.
  unfold umtx_init. apply untouched_umtx_init_body.
  apply untouched_umtx_lock_body. apply untouched_umtx_init_body.
  apply keeps_ret.
Qed.

Lemma untouched_umtx_lock b t p : keeps proj (umtx_lock b t p).
Proof. apply untouched_umtx_lock_body, untouched_umtx_init. Qed.

Lemma untouched_call_UMtxAtomicFn fn p : keeps proj (call_UMtxAtomicFn fn p).
Proof.
  intros w. unfold call_UMtxAtomicFn. destruct (fn _ _ _) as [[r p'] u].
  apply proj_user.
Qed.

Lemma untouched_umtx_atomic_inc b p : keeps proj (umtx_atomic_inc b p).
Proof.
  unfold umtx_atomic_inc.
  repeat first
    [ apply untouched_call_UMtxAtomicFn | apply keeps_ret | apply keeps_get
    | apply keeps_call; assumption | apply keeps_bind; [|intros ?]
    | match goal with
      | |- keeps proj (if ?c then _ else _) => destruct c
      | |- keeps proj (match ?x with _ => _ end) => destruct x
      end ].
Qed.

Lemma untouched_umtx_atomic_dec b p : keeps proj (umtx_atomic_dec b p).
Proof.
  unfold umtx_atomic_dec.
  repeat first
    [ apply untouched_call_UMtxAtomicFn | apply keeps_ret | apply keeps_get
    | apply keeps_call; assumption | apply keeps_bind; [|intros ?]
    | match goal with
      | |- keeps proj (if ?c then _ else _) => destruct c
      | |- keeps proj (match ?x with _ => _ end) => destruct x
      end ].
Qed.
End Untouched.

Lemma final_bind {A B : Type} (m : M A) (k : A -> M B) w :
  final (bind m k w) =
  match m w with
  | Done a w1 => final (k a w1)
  | AssertionFailed w1 | Crashed w1 => w1
  end.
Proof. unfold bind. now destruct (m w). Qed.

Lemma keeps_then_ret {X A : Type} (proj : world -> X) (m : M A) :
  keeps proj m -> keeps proj (m >> ret tt).
Proof. intros Hm. apply keeps_bind; [done | intros _; apply keeps_ret]. Qed.

Lemma registration_store q v w : registration (store q v w) = registration w.
Proof. now destruct q. Qed.

Lemma operations_keep_registration_init b t mutex w :
  registration (final (umtx_init b t mutex w)) = registration w.
Proof. apply (untouched_umtx_init registration); try done. apply registration_store. Qed.

(** X1.  Initialising, locking, unlocking or destroying a mutex, and
    incrementing or decrementing a counter, never changes the registration
    record: the six callbacks and the two contexts stay what registration or
    teardown made them, whether the call returns or an assertion stops it. *)
Theorem operations_keep_registration (b : build) (t : positive)
    (mutex : UMTX_ptr) (p : Z) (w : world) :
  registration (final (umtx_init b t mutex w)) = registration w /\
  registration (final (umtx_lock b t mutex w)) = registration w /\
  registration (final (umtx_unlock b mutex w)) = registration w /\
  registration (final (umtx_destroy b mutex w)) = registration w /\
  registration (final (umtx_atomic_inc b p w)) = registration w /\
  registration (final (umtx_atomic_dec b p w)) = registration w.
Proof.
  assert (forall q v w0, registration (store q v w0) = registration w0) as Hs
    by now intros [].
  split_and!.
  - now apply (untouched_umtx_init registration).
  - now apply (untouched_umtx_lock registration).
  - now apply (untouched_umtx_unlock registration).
  - now apply (untouched_umtx_destroy registration).
  - now apply (untouched_umtx_atomic_inc registration).
  - now apply (untouched_umtx_atomic_dec registration).
Qed.

(** ** Registration that succeeds *)

(** X2.  With no failure code in [*status], no callback null and a heap
    that was never used, [u_setMutexFunctions] leaves the status as it is,
    installs the four callbacks and the context together, and changes
    nothing else; the next [umtx_lock] of a live mutex of a caller is then
    the call of the lock callback with that context. *)
Theorem u_setMutexFunctions_installs (b : build) (t : positive) (context : Z)
    (i : UMtxInitFn) (d l u : UMtxFn) (status : UErrorCode) (w : world) :
  U_FAILURE status = false ->
  gHeapInUse (heap w) = false ->
  let w' := set_gMutexContext context
              (set_pMutexUnlockFn (Some u)
                 (set_pMutexLockFn (Some l)
                    (set_pMutexDestroyFn (Some d)
                       (set_pMutexInitFn (Some i) w)))) in
  u_setMutexFunctions context (Some i) (Some d) (Some l) (Some u) status w =
    Done status w' /\
  (forall n, load w (addr_caller n) <> NULL ->
     umtx_lock b t (addr_caller n) w' =
       Done tt (let '(v, us) := l context (load w (addr_caller n)) (user w) in
                set_user us (store (addr_caller n) v w'))).
Proof.
  intros Hs Hheap w'. split.
  - unfold u_setMutexFunctions. rewrite Hs. simpl.
    unfold bind, cmemory_inUse, get. now rewrite Hheap.
  - intros n Hlive%Z.eqb_neq.
    unfold umtx_lock, umtx_lock_body.
    rewrite bind_assoc, bind_get.
    change (load w' (or_global (addr_caller n))) with (load w (addr_caller n)).
    rewrite Hlive. unfold when at 1. rewrite bind_ret_l, bind_assoc, bind_get.
    change (pMutexLockFn w') with (Some l).
    unfold bind, call_UMtxFn, modify, when, ret. simpl.
    now destruct (def_WIN32 b && def__DEBUG b).
Qed.

(** ** Invariants of the calls *)

Lemma preserves_ret {A : Type} I (a : A) : preserves I (ret a).
Proof. now intros w. Qed.

Lemma preserves_get {A : Type} I (f : world -> A) : preserves I (get f).
Proof. now intros w. Qed.

Lemma preserves_modify I f : (forall w, I w -> I (f w)) -> preserves I (modify f).
Proof. intros Hf w. apply Hf. Qed.

Lemma preserves_bind {A B : Type} I (m : M A) (k : A -> M B) :
  preserves I m -> (forall a, preserves I (k a)) -> preserves I (bind m k).
Proof.
  intros Hm Hk w Hw. rewrite final_bind. specialize (Hm w Hw).
  destruct (m w) as [a w1|w1|w1]; [now apply Hk | done..].
Qed.

(** After a read, what was read is known. *)
Lemma preserves_bind_get {A B : Type} I (f : world -> A) (k : A -> M B) :
  (forall w, I w -> I (final (k (f w) w))) -> preserves I (bind (get f) k).
Proof. intros Hk w Hw. rewrite bind_get. now apply Hk. Qed.

Lemma preserves_when I c m : preserves I m -> preserves I (when c m).
Proof. destruct c; [done | intros _; apply preserves_ret]. Qed.

Lemma preserves_U_ASSERT_locals {A : Type} I b (locals : A) cond :
  (forall a, preserves I (cond a)) -> preserves I (U_ASSERT_locals b locals cond).
Proof.
  intros Hc. unfold U_ASSERT_locals. destruct (U_DEBUG b); [|apply preserves_ret].
  apply preserves_bind; [done|]. intros [[] a]; simpl; [apply preserves_ret | now intros w].
Qed.

Lemma preserves_U_ASSERT I b cond : preserves I cond -> preserves I (U_ASSERT b cond).
Proof.
  intros Hc. apply preserves_U_ASSERT_locals. intros _.
  apply preserves_bind; [done | intros c; apply preserves_ret].
Qed.

Lemma preserves_keeps {X A : Type} (proj : world -> X) (I : X -> Prop) (m : M A) :
  keeps proj m -> preserves (fun w => I (proj w)) m.
Proof. intros Hm w Hw. now rewrite Hm. Qed.

(** ** Where the platform and the allocator are out of the picture *)

(** [I] is an invariant that speaks of the heap and of the log of the
    platform's calls, and holds only where the build has no threads or a
    mutex back end is registered. *)
Section Routed.
Context (b : build) (I : world -> Prop).
Hypothesis I_store : forall p v w, I w -> I (store p v w).
Hypothesis I_count : forall v w, I w -> I (set_gRecursionCount v w).
Hypothesis I_user : forall v w, I w -> I (set_user v w).
Hypothesis I_routed :
  forall w, I w -> ICU_USE_THREADS b = false \/ backend_registered w.

Lemma preserves_call_UMtxFn fn p : preserves I (call_UMtxFn fn p).
Proof.
  apply preserves_modify. intros w Hw. destruct (fn _ _ _) as [v u].
  now apply I_user, I_store.
Qed.

Ltac routed_step :=
  first
    [ assumption
    | apply preserves_ret | apply preserves_get | apply preserves_call_UMtxFn
    | apply preserves_U_ASSERT | apply preserves_when
    | apply preserves_bind; [|intros ?]
    | apply preserves_modify; intros ? ?;
        first [now apply I_count | now apply I_store] ].

Lemma routed_umtx_raw_init p : preserves I (umtx_raw_init b p).
Proof.
  unfold umtx_raw_init. apply preserves_bind_get. intros w Hw.
  destruct (pMutexInitFn w) as [f|] eqn:Hf.
  - rewrite final_bind. unfold call_UMtxInitFn.
    destruct (f _ _ _ _) as [[v s] u]. destruct (U_FAILURE s); simpl;
      now apply I_user, I_store.
  - destruct (I_routed w Hw) as [-> | (Hi & _)].
    + simpl. now apply I_store.
    + now rewrite Hf in Hi.
Qed.

Lemma routed_platform_or_callback (fn : world -> option UMtxFn)
    (platform : M unit) p :
  (forall w, backend_registered w -> is_set (fn w) = true) ->
  preserves I
    (let* f := get fn in
     match f with
     | Some f => call_UMtxFn f p
     | None => if ICU_USE_THREADS b then platform else ret tt
     end).
Proof.
  intros Hfn. apply preserves_bind_get. intros w Hw.
  destruct (fn w) as [f|] eqn:Hf.
  - now apply preserves_call_UMtxFn.
  - destruct (I_routed w Hw) as [-> | Hreg]; [done|].
    apply Hfn in Hreg. now rewrite Hf in Hreg.
Qed.

Lemma routed_umtx_unlock p : preserves I (umtx_unlock b p).
Proof.
  unfold umtx_unlock. apply preserves_bind; [apply preserves_get|]. intros v.
  destruct (v =? NULL); [repeat routed_step|].
  apply preserves_bind; [repeat routed_step|]. intros _.
  apply routed_platform_or_callback. now intros w (_ & _ & _ & ?).
Qed.

Lemma routed_umtx_destroy_body self p :
  preserves I (self addr_gIncDecMutex) ->
  preserves I (umtx_destroy_body b self p).
Proof.
  intros Hself. unfold umtx_destroy_body.
  apply preserves_bind; [apply preserves_get|]. intros v.
  destruct (v =? NULL); [apply preserves_ret|].
  apply preserves_bind.
  { apply routed_platform_or_callback. now intros w (_ & ? & _). }
  intros _. repeat routed_step.
Qed.

Lemma routed_umtx_destroy p : preserves I (umtx_destroy b p).
Proof.
  unfold umtx_destroy. apply routed_umtx_destroy_body.
  apply routed_umtx_destroy_body. apply preserves_ret.
Qed.

Lemma routed_umtx_lock_body init p :
  preserves I (init (or_global p)) -> preserves I (umtx_lock_body b init p).
Proof.
  intros Hinit. unfold umtx_lock_body.
  apply preserves_bind; [repeat routed_step|]. intros _.
  apply preserves_bind.
  { apply routed_platform_or_callback. now intros w (_ & _ & ? & _). }
  intros _. repeat routed_step.
Qed.

Lemma routed_umtx_init_body lock t p :
  preserves I (lock null_ptr) -> preserves I (umtx_init_body b lock t p).
Proof.
  intros Hlock. unfold umtx_init_body.
  destruct (bool_decide _).
  - apply preserves_bind; [apply preserves_get|]. intros v.
    destruct (negb _); [apply preserves_ret|].
    repeat first [apply routed_umtx_raw_init | routed_step].
  - repeat first
      [ apply routed_umtx_raw_init | apply routed_umtx_unlock
      | apply routed_umtx_destroy | routed_step
      | match goal with
        | |- preserves I (if ?c then _ else _) => destruct c
        end ].
Qed.

Lemma routed_umtx_init t p : preserves I (umtx_init b t p).
Proof.
  unfold umtx_init. apply routed_umtx_init_body, routed_umtx_lock_body.
  apply routed_umtx_init_body, preserves_ret.
Qed.

Lemma routed_umtx_lock t p : preserves I (umtx_lock b t p).
Proof. apply routed_umtx_lock_body, routed_umtx_init. Qed.
End Routed.

(** X3.  In a build without threads, and in any build once a mutex back
    end is registered, initialising, locking, unlocking and destroying a
    mutex never allocates, frees or calls the platform: the heap and the log
    of the platform's calls stay as they are (and so the allocator stays
    unused if it was). *)
Theorem operations_routed (b : build) (t : positive) (mutex : UMTX_ptr)
    (w : world) :
  ICU_USE_THREADS b = false \/ backend_registered w ->
  (heap (final (umtx_init b t mutex w)) = heap w /\
   os_calls (final (umtx_init b t mutex w)) = os_calls w) /\
  (heap (final (umtx_lock b t mutex w)) = heap w /\
   os_calls (final (umtx_lock b t mutex w)) = os_calls w) /\
  (heap (final (umtx_unlock b mutex w)) = heap w /\
   os_calls (final (umtx_unlock b mutex w)) = os_calls w) /\
  (heap (final (umtx_destroy b mutex w)) = heap w /\
   os_calls (final (umtx_destroy b mutex w)) = os_calls w).
Proof.
  intros Hw.
  set (I := fun w0 => (ICU_USE_THREADS b = false \/ backend_registered w0) /\
                      heap w0 = heap w /\ os_calls w0 = os_calls w).
  assert (I w) as HI by done.
  assert (forall p v w0, I w0 -> I (store p v w0)) as Hstore
    by (intros [] v w0 H0; exact H0).
  assert (forall v w0, I w0 -> I (set_gRecursionCount v w0)) as Hcount
    by (intros v w0 H0; exact H0).
  assert (forall v w0, I w0 -> I (set_user v w0)) as Huser
    by (intros v w0 H0; exact H0).
  assert (forall w0, I w0 -> ICU_USE_THREADS b = false \/ backend_registered w0)
    as Hrouted by (intros w0 H0; apply H0).
  assert (I (final (umtx_init b t mutex w))) as (_ & ? & ?)
    by (apply (routed_umtx_init b I); assumption).
  assert (I (final (umtx_lock b t mutex w))) as (_ & ? & ?)
    by (apply (routed_umtx_lock b I); assumption).
  assert (I (final (umtx_unlock b mutex w))) as (_ & ? & ?)
    by (apply (routed_umtx_unlock b I); assumption).
  assert (I (final (umtx_destroy b mutex w))) as (_ & ? & ?)
    by (apply (routed_umtx_destroy b I); assumption).
  now split_and!.
Qed.

(** ** Invariants that every operation keeps *)

(** [I] is an invariant that no store through a [UMTX *], no call of the
    platform or of a callback, and no request to the allocator breaks. *)
Section Closed.
Context (b : build) (I : world -> Prop).
Hypothesis I_store : forall p v w, I w -> I (store p v w).
Hypothesis I_count : forall v w, I w -> I (set_gRecursionCount v w).
Hypothesis I_user : forall v w, I w -> I (set_user v w).
Hypothesis I_os_calls : forall v w, I w -> I (set_os_calls v w).
Hypothesis I_malloc : preserves I uprv_malloc.
Hypothesis I_free : forall p, preserves I (uprv_free p).

Lemma closed_call c : preserves I (call c).
Proof.
  intros w Hw. unfold call. destruct (null_handle c); now apply I_os_calls.
Qed.

Lemma closed_call_UMtxFn fn p : preserves I (call_UMtxFn fn p).
Proof.
  apply preserves_modify. intros w Hw. destruct (fn _ _ _) as [v u].
  now apply I_user, I_store.
Qed.

Lemma closed_call_UMtxInitFn fn p status :
  preserves I (call_UMtxInitFn fn p status).
Proof.
  intros w Hw. unfold call_UMtxInitFn. destruct (fn _ _ _ _) as [[v s] u].
  now apply I_user, I_store.
Qed.

Lemma closed_call_UMtxAtomicFn fn p : preserves I (call_UMtxAtomicFn fn p).
Proof.
  intros w Hw. unfold call_UMtxAtomicFn. destruct (fn _ _ _) as [[r p'] u].
  now apply I_user.
Qed.

Ltac closed_step :=
  first
    [ assumption
    | apply preserves_ret | apply preserves_get | apply closed_call
    | apply closed_call_UMtxFn | apply closed_call_UMtxInitFn
    | apply closed_call_UMtxAtomicFn | apply I_malloc | apply I_free
    | apply preserves_U_ASSERT | apply preserves_when
    | apply preserves_bind; [|intros ?]
    | apply preserves_modify; intros ? ?;
        first [now apply I_count | now apply I_store]
    | match goal with
      | |- preserves I (if ?c then _ else _) => destruct c
      | |- preserves I (match ?x with _ => _ end) => destruct x
      end ].

Lemma closed_umtx_raw_init p : preserves I (umtx_raw_init b p).
Proof. unfold umtx_raw_init. repeat closed_step. Qed.

Lemma closed_umtx_unlock p : preserves I (umtx_unlock b p).
Proof. unfold umtx_unlock. repeat closed_step. Qed.

Lemma closed_umtx_destroy_body self p :
  preserves I (self addr_gIncDecMutex) ->
  preserves I (umtx_destroy_body b self p).
Proof. intros Hself. unfold umtx_destroy_body. repeat closed_step. Qed.

Lemma closed_umtx_destroy p : preserves I (umtx_destroy b p).
Proof.
  unfold umtx_destroy. apply closed_umtx_destroy_body.
  apply closed_umtx_destroy_body, preserves_ret.
Qed.

Lemma closed_umtx_lock_body init p :
  preserves I (init (or_global p)) -> preserves I (umtx_lock_body b init p).
Proof. intros Hinit. unfold umtx_lock_body. repeat closed_step. Qed.

Lemma closed_umtx_init_body lock t p :
  preserves I (lock null_ptr) -> preserves I (umtx_init_body b lock t p).
Proof.
  intros Hlock. unfold umtx_init_body.
  repeat first
    [ apply closed_umtx_raw_init | apply closed_umtx_unlock
    | apply closed_umtx_destroy | closed_step ].
Qed.

Lemma closed_umtx_init t p : preserves I (umtx_init b t p).
Proof.
  unfold umtx_init. apply closed_umtx_init_body, closed_umtx_lock_body.
  apply closed_umtx_init_body, preserves_ret.
Qed.

Lemma closed_umtx_lock t p : preserves I (umtx_lock b t p).
Proof. apply closed_umtx_lock_body, closed_umtx_init. Qed.

Lemma closed_umtx_atomic_inc p : preserves I (umtx_atomic_inc b p).
Proof. unfold umtx_atomic_inc. repeat closed_step. Qed.

Lemma closed_umtx_atomic_dec p : preserves I (umtx_atomic_dec b p).
Proof. unfold umtx_atomic_dec. repeat closed_step. Qed.

(** The registration functions and the teardown write the registration
    record only. *)
Hypothesis I_pMutexInitFn : forall v w, I w -> I (set_pMutexInitFn v w).
Hypothesis I_pMutexDestroyFn : forall v w, I w -> I (set_pMutexDestroyFn v w).
Hypothesis I_pMutexLockFn : forall v w, I w -> I (set_pMutexLockFn v w).
Hypothesis I_pMutexUnlockFn : forall v w, I w -> I (set_pMutexUnlockFn v w).
Hypothesis I_gMutexContext : forall v w, I w -> I (set_gMutexContext v w).
Hypothesis I_pIncFn : forall v w, I w -> I (set_pIncFn v w).
Hypothesis I_pDecFn : forall v w, I w -> I (set_pDecFn v w).

Ltac closed_reg_step :=
  first
    [ apply closed_umtx_destroy | apply closed_umtx_atomic_inc
    | apply closed_umtx_atomic_dec
    | apply preserves_U_ASSERT_locals; intros ?
    | apply preserves_modify; intros ? ?;
        first [ now apply I_pMutexInitFn | now apply I_pMutexDestroyFn
              | now apply I_pMutexLockFn | now apply I_pMutexUnlockFn
              | now apply I_gMutexContext | now apply I_pIncFn
              | now apply I_pDecFn ]
    | closed_step ].

Lemma closed_u_setMutexFunctions context i d l u status :
  preserves I (u_setMutexFunctions context i d l u status).
Proof. unfold u_setMutexFunctions, cmemory_inUse. repeat closed_reg_step. Qed.

Lemma closed_u_setAtomicIncDecFunctions context ip dp status :
  preserves I (u_setAtomicIncDecFunctions b context ip dp status).
Proof.
  unfold u_setAtomicIncDecFunctions, cmemory_inUse. repeat closed_reg_step.
Qed.

Lemma closed_umtx_cleanup : preserves I (umtx_cleanup b).
Proof. unfold umtx_cleanup. repeat closed_reg_step. Qed.

Lemma closed_run_call t c : preserves I (run_call b t c).
Proof.
  destruct c; simpl;
    first [ apply closed_umtx_init | apply closed_umtx_lock
          | apply closed_umtx_unlock | apply closed_umtx_destroy
          | apply preserves_bind; [|intros ?; apply preserves_ret] ].
  - apply closed_u_setMutexFunctions.
  - apply closed_umtx_atomic_inc.
  - apply closed_umtx_atomic_dec.
  - apply closed_u_setAtomicIncDecFunctions.
  - apply closed_umtx_cleanup.
Qed.

Lemma closed_run_calls t cs : preserves I (run_calls b t cs).
Proof.
  induction cs as [|c cs IH]; simpl; [apply preserves_ret|].
  apply preserves_bind; [apply closed_run_call | now intros _].
Qed.
End Closed.

(** ** What holds after any sequence of calls *)

(** X4.  Once the allocator has been used it stays used, whatever is called
    afterwards ([umtx_cleanup] included): from then on both registration
    functions refuse callbacks that are not null with
    [U_INVALID_STATE_ERROR], and change nothing. *)
Theorem allocator_use_is_final (b : build) (t : positive)
    (cs : list api_call) (w : world) (context : Z)
    (i : UMtxInitFn) (d l u : UMtxFn) (ip dp : UMtxAtomicFn)
    (status : UErrorCode) :
  gHeapInUse (heap w) = true ->
  U_FAILURE status = false ->
  let w' := final (run_calls b t cs w) in
  gHeapInUse (heap w') = true /\
  u_setMutexFunctions context (Some i) (Some d) (Some l) (Some u) status w' =
    Done U_INVALID_STATE_ERROR w' /\
  u_setAtomicIncDecFunctions b context (Some ip) (Some dp) status w' =
    Done U_INVALID_STATE_ERROR w'.
Proof.
  intros Hw Hs w'.
  assert (gHeapInUse (heap w') = true) as Hw'.
  { apply (closed_run_calls b (fun w0 => gHeapInUse (heap w0) = true));
      try done.
    - now intros [].
    - intros w0 H0. unfold uprv_malloc.
      now destruct (refusals (heap w0)) as [|[] ?].
    - intros p w0 H0. unfold uprv_free, modify. simpl. now destruct p. }
  split; [done|].
  unfold u_setMutexFunctions, u_setAtomicIncDecFunctions. rewrite Hs. simpl.
  unfold bind, cmemory_inUse, get. now rewrite Hw'.
Qed.

(** X5.  No sequence of calls ever writes [gIncDecContext]: the context
    given to [u_setAtomicIncDecFunctions] is dropped, and the atomic
    callbacks are called with the context the world started with. *)
Theorem gIncDecContext_never_written (b : build) (t : positive)
    (cs : list api_call) (w : world) :
  gIncDecContext (final (run_calls b t cs w)) = gIncDecContext w.
Proof.
  apply (closed_run_calls b (fun w0 => gIncDecContext w0 = gIncDecContext w));
    try done.
  - now intros [].
  - intros w0 H0. unfold uprv_malloc.
    now destruct (refusals (heap w0)) as [|[] ?].
  - intros p w0 H0. unfold uprv_free, modify. simpl. now destruct p.
Qed.

Lemma bind_modify {B : Type} f (k : unit -> M B) w :
  bind (modify f) k w = k tt (f w).
Proof. reflexivity. Qed.

Lemma closed_malloc_fields (I : world -> Prop) :
  (forall v w, I w -> I (set_heap v w)) -> preserves I uprv_malloc.
Proof.
  intros Hheap w Hw. unfold uprv_malloc.
  destruct (refusals (heap w)) as [|[] ?]; simpl; now apply Hheap.
Qed.

Lemma closed_free_fields (I : world -> Prop) p :
  (forall v w, I w -> I (set_heap v w)) -> preserves I (uprv_free p).
Proof.
  intros Hheap w Hw. unfold uprv_free, modify. simpl.
  destruct p; simpl; try done; now apply Hheap.
Qed.

(** The mutex callbacks are all set or all null. *)
Lemma mutex_callbacks_all_or_none b t c w :
  is_set (pMutexDestroyFn w) = is_set (pMutexInitFn w) /\
  is_set (pMutexLockFn w) = is_set (pMutexInitFn w) /\
  is_set (pMutexUnlockFn w) = is_set (pMutexInitFn w) ->
  let w' := final (run_call b t c w) in
  is_set (pMutexDestroyFn w') = is_set (pMutexInitFn w') /\
  is_set (pMutexLockFn w') = is_set (pMutexInitFn w') /\
  is_set (pMutexUnlockFn w') = is_set (pMutexInitFn w').
Proof.
  intros Hw.
  set (I := fun w0 : world =>
              is_set (pMutexDestroyFn w0) = is_set (pMutexInitFn w0) /\
              is_set (pMutexLockFn w0) = is_set (pMutexInitFn w0) /\
              is_set (pMutexUnlockFn w0) = is_set (pMutexInitFn w0)).
  assert (forall p v w0, I w0 -> I (store p v w0)) as Hstore by now intros [].
  assert (preserves I uprv_malloc) as Hm by now apply closed_malloc_fields.
  assert (forall p, preserves I (uprv_free p)) as Hf
    by (intros p; now apply closed_free_fields).
  change (I w) in Hw. cbv zeta.
  change (I (final (run_call b t c w))).
  destruct c; simpl.
  - now apply (closed_umtx_init b I).
  - now apply (closed_umtx_lock b I).
  - now apply (closed_umtx_unlock b I).
  - now apply (closed_umtx_destroy b I).
  - rewrite final_bind. unfold u_setMutexFunctions.
    destruct (U_FAILURE status); [done|].
    destruct i, d, l, u; simpl; try done.
    unfold bind, cmemory_inUse, get. now destruct (gHeapInUse (heap w)).
  - apply preserves_bind; [|intros ?; apply preserves_ret|done].
    now apply (closed_umtx_atomic_inc b I).
  - apply preserves_bind; [|intros ?; apply preserves_ret|done].
    now apply (closed_umtx_atomic_dec b I).
  - apply preserves_bind; [|intros ?; apply preserves_ret|done].
    now apply (closed_u_setAtomicIncDecFunctions b I).
  - destruct (umtx_destroy_Done b null_ptr w) as (w1 & H1).
    unfold umtx_cleanup. rewrite bind_assoc, (bind_Done_intro _ _ _ _ _ H1).
    done.
Qed.

(** The atomic callbacks are both set or both null. *)
Lemma atomic_callbacks_all_or_none b t c w :
  is_set (pDecFn w) = is_set (pIncFn w) ->
  is_set (pDecFn (final (run_call b t c w))) =
  is_set (pIncFn (final (run_call b t c w))).
Proof.
  intros Hw.
  set (I := fun w0 : world => is_set (pDecFn w0) = is_set (pIncFn w0)).
  assert (forall p v w0, I w0 -> I (store p v w0)) as Hstore by now intros [].
  assert (preserves I uprv_malloc) as Hm by now apply closed_malloc_fields.
  assert (forall p, preserves I (uprv_free p)) as Hf
    by (intros p; now apply closed_free_fields).
  change (I w) in Hw. change (I (final (run_call b t c w))).
  destruct c; simpl.
  - now apply (closed_umtx_init b I).
  - now apply (closed_umtx_lock b I).
  - now apply (closed_umtx_unlock b I).
  - now apply (closed_umtx_destroy b I).
  - apply preserves_bind; [|intros ?; apply preserves_ret|done].
    now apply (closed_u_setMutexFunctions I).
  - apply preserves_bind; [|intros ?; apply preserves_ret|done].
    now apply (closed_umtx_atomic_inc b I).
  - apply preserves_bind; [|intros ?; apply preserves_ret|done].
    now apply (closed_umtx_atomic_dec b I).
  - rewrite final_bind. unfold u_setAtomicIncDecFunctions.
    destruct (U_FAILURE status); [done|].
    destruct ip as [fi|], dp as [fd|]; simpl; try done.
    unfold cmemory_inUse. rewrite bind_get.
    destruct (gHeapInUse (heap w)); [done|].
    rewrite !bind_modify.
    set (w1 := set_pDecFn (Some fd) (set_pIncFn (Some fi) w)).
    set (J := fun w0 : world => pIncFn w0 = Some fi /\ pDecFn w0 = Some fd).
    assert (J w1) as HJ by done.
    assert (forall p v w0, J w0 -> J (store p v w0)) as HJs by now intros [].
    assert (preserves J uprv_malloc) as HJm by now apply closed_malloc_fields.
    assert (forall p, preserves J (uprv_free p)) as HJf
      by (intros p; now apply closed_free_fields).
    match goal with
    | |- I match ?m w1 with _ => _ end =>
        assert (preserves J m) as Hrest
    end.
    { repeat first
        [ apply preserves_ret
        | apply (closed_umtx_atomic_inc b J); done
        | apply (closed_umtx_atomic_dec b J); done
        | apply preserves_U_ASSERT_locals; intros ?
        | apply preserves_U_ASSERT
        | apply preserves_bind; [|intros ?] ]. }
    specialize (Hrest w1 HJ).
    match goal with
    | |- I match ?m w1 with _ => _ end => destruct (m w1) as [a w2|w2|w2]
    end; simpl in Hrest; destruct Hrest as [Hi Hd]; unfold I; now rewrite Hi, Hd.
  - destruct (umtx_destroy_Done b null_ptr w) as (w1 & H1).
    unfold umtx_cleanup. rewrite bind_assoc, (bind_Done_intro _ _ _ _ _ H1).
    done.
Qed.

(** X6.  The callbacks are registered and cleared as units: if the four
    mutex callbacks are all set or all null, and the two atomic callbacks
    both set or both null (as when nothing is registered), they are so after
    any sequence of calls, whether it returns or an assertion stops it. *)
Theorem callbacks_all_or_none (b : build) (t : positive)
    (cs : list api_call) (w : world) :
  all_or_none w -> all_or_none (final (run_calls b t cs w)).
Proof.
  revert w. induction cs as [|c cs IH]; intros w Hw; [done|].
  simpl. rewrite final_bind.
  assert (all_or_none (final (run_call b t c w))) as Hc.
  { destruct Hw as (H1 & H2 & H3 & H4).
    pose proof (mutex_callbacks_all_or_none b t c w (conj H1 (conj H2 H3)))
      as (? & ? & ?).
    pose proof (atomic_callbacks_all_or_none b t c w H4). done. }
  destruct (run_call b t c w) as [[] w1|w1|w1]; [now apply IH | done..].
Qed.

(** X7.  With no failure code in [*status], no callback null and a heap
    that was never used, [u_setAtomicIncDecFunctions] installs the two
    callbacks and does not store the context.  A release build does nothing
    more: it does not call them.  A debug build then runs the self-test with
    the old [gIncDecContext]: it returns when incrementing 0 gives 1 and
    leaves 1, and decrementing that gives 0 and leaves 0; otherwise an
    assertion fails, with the callbacks installed. *)
Theorem u_setAtomicIncDecFunctions_installs (b : build) (context : Z)
    (ip dp : UMtxAtomicFn) (status : UErrorCode) (w : world) :
  U_FAILURE status = false ->
  gHeapInUse (heap w) = false ->
  let w1 := set_pDecFn (Some dp) (set_pIncFn (Some ip) w) in
  gIncDecContext w1 = gIncDecContext w /\
  (U_DEBUG b = false ->
   u_setAtomicIncDecFunctions b context (Some ip) (Some dp) status w =
     Done status w1) /\
  (U_DEBUG b = true ->
   let '(r1, t1, u1) := ip (gIncDecContext w) 0 (user w) in
   let '(r2, t2, u2) := dp (gIncDecContext w) t1 u1 in
   u_setAtomicIncDecFunctions b context (Some ip) (Some dp) status w =
     if (r1 =? 1) && (t1 =? 1) then
       if (r2 =? 0) && (t2 =? 0) then Done status (set_user u2 w1)
       else AssertionFailed (set_user u2 w1)
     else AssertionFailed (set_user u1 w1)).
Proof.
  intros Hs Hheap w1. split; [reflexivity|].
  unfold u_setAtomicIncDecFunctions. rewrite Hs. simpl.
  unfold cmemory_inUse. rewrite bind_get, Hheap, !bind_modify. fold w1.
  unfold U_ASSERT, U_ASSERT_locals. split; intros ->; [reflexivity|].
  destruct (ip (gIncDecContext w) 0 (user w)) as [[r1 t1] u1] eqn:Hip.
  destruct (dp (gIncDecContext w) t1 u1) as [[r2 t2] u2] eqn:Hdp.
  unfold umtx_atomic_inc, umtx_atomic_dec, bind, get, call_UMtxAtomicFn, ret.
  simpl. rewrite Hip. simpl.
  destruct (r1 =? 1); simpl; [|reflexivity].
  destruct (t1 =? 1); simpl; [|reflexivity].
  rewrite Hdp. simpl.
  destruct (r2 =? 0); simpl; [|reflexivity].
  destruct (t2 =? 0); reflexivity.
Qed.

(** ** Locking and unlocking a live mutex *)




(** ** The recursion counter *)


(** X9.  The global mutex, live and locked by the platform.  In the debug
    build for Windows ([WIN32] and [_DEBUG], assertions on), [umtx_lock(NULL)]
    counts up and returns only if the counter was 0, and [umtx_unlock(NULL)]
    counts down and returns only if the counter was 1; otherwise the
    assertion fails, for the lock after the platform's call and for the
    unlock before it.  Where [WIN32] or [_DEBUG] is not defined the counter
    takes no part: whatever it holds, no assertion stops either call, the
    counter is left as it is, and the call made is the platform's lock or
    unlock of the global mutex.  Whether that lock comes back when the mutex
    is held is the platform's matter, and nothing here looks at it. *)
Theorem global_mutex_recursion_check (b : build) (t : positive) (w : world) :
  gGlobalMutex w <> NULL ->
  pMutexLockFn w = None -> pMutexUnlockFn w = None ->
  - 2 ^ 31 < gRecursionCount w < 2 ^ 31 - 1 ->
  let c := gRecursionCount w in
  let v := gGlobalMutex w in
  (win_debug b = true -> U_DEBUG b = true ->
   umtx_lock b t null_ptr w =
     (if c =? 0 then Done tt else AssertionFailed)
       (set_gRecursionCount (c + 1)
          (logged (platform_call b (EnterCriticalSection v)
                     (pthread_mutex_lock v)) w)) /\
   umtx_unlock b null_ptr w =
     if c =? 1 then
       Done tt (logged (platform_call b (LeaveCriticalSection v)
                          (pthread_mutex_unlock v))
                  (set_gRecursionCount 0 w))
     else AssertionFailed (set_gRecursionCount (c - 1) w)) /\
  (win_debug b = false ->
   let locking := umtx_lock b t null_ptr w in
   let unlocking := umtx_unlock b null_ptr w in
   asserted locking = false /\ gRecursionCount (final locking) = c /\
   os_calls (final locking) =
     os_calls w ++ platform_call b (EnterCriticalSection v) (pthread_mutex_lock v) /\
   asserted unlocking = false /\ gRecursionCount (final unlocking) = c /\
   os_calls (final unlocking) =
     os_calls w ++ platform_call b (LeaveCriticalSection v) (pthread_mutex_unlock v)).
Proof.
  intros Hlive Hl Hu Hc c v. subst c v. split.
  - apply Z.eqb_neq in Hlive.
    assert (wrap32 (gRecursionCount w + 1) = gRecursionCount w + 1) as Hup
      by (apply wrap32_small; lia).
    assert (wrap32 (gRecursionCount w - 1) = gRecursionCount w - 1) as Hdown
      by (apply wrap32_small; lia).
    assert ((gRecursionCount w + 1 =? 1) = (gRecursionCount w =? 0)) as Hup1
      by (destruct (Z.eqb_spec (gRecursionCount w) 0),
            (Z.eqb_spec (gRecursionCount w + 1) 1); lia).
    assert ((gRecursionCount w - 1 =? 0) = (gRecursionCount w =? 1)) as Hdown1
      by (destruct (Z.eqb_spec (gRecursionCount w) 1),
            (Z.eqb_spec (gRecursionCount w - 1) 0); lia).
    unfold win_debug, umtx_lock, umtx_lock_body, umtx_unlock, platform_call.
    change (or_global null_ptr) with addr_gGlobalMutex.
    unfold U_ASSERT, U_ASSERT_locals, when, bind, get, modify, call, ret,
      null_handle.
    change (load w addr_gGlobalMutex) with (gGlobalMutex w).
    rewrite Hlive. simpl.
    intros Hwd Hd. rewrite Hwd, Hd, Hl. split.
    + destruct (ICU_USE_THREADS b), (def_WIN32 b), (POSIX b); simpl;
        rewrite ?Hlive; rewrite ?logged_nil; unfold logged; simpl;
        rewrite Hup, Hup1; now destruct (gRecursionCount w =? 0).
    + simpl. rewrite Hdown, Hdown1.
      destruct (Z.eqb_spec (gRecursionCount w) 1) as [Heq|]; [|reflexivity].
      change (pMutexUnlockFn (set_gRecursionCount (gRecursionCount w - 1) w))
        with (pMutexUnlockFn w).
      rewrite Hu, Heq. change (1 - 1) with 0.
      destruct (ICU_USE_THREADS b), (def_WIN32 b), (POSIX b); simpl;
        rewrite ?Hlive; rewrite ?logged_nil; reflexivity.
  - intros Hwd locking unlocking. subst locking unlocking.
    rewrite umtx_lock_global_plain, umtx_unlock_global_plain by done.
    now split_and!.
Qed.

(** ** What [umtx_destroy] reaches *)

Lemma umtx_destroy_incdec b w :
  umtx_destroy b addr_gIncDecMutex w =
  umtx_destroy_body b (fun _ => ret tt) addr_gIncDecMutex w.
Proof.
  unfold umtx_destroy. unfold umtx_destroy_body at 1.
  unfold umtx_destroy_body at 2.
  apply bind_ext. intros v w1. destruct (v =? NULL); [done|].
  apply bind_ext. intros _ w2. apply bind_ext. intros _ w3.
  unfold when. now destruct (POSIX b).
Qed.

(** Destroying the mutex of a caller leaves the two statics and the other
    callers' mutexes alone. *)
Lemma umtx_destroy_caller_frame b n w :
  let others := fun w0 => (gGlobalMutex w0, gIncDecMutex w0, delete n (handles w0)) in
  others (final (umtx_destroy b (addr_caller n) w)) = others w.
Proof.
  intros others. unfold umtx_destroy.
  apply (keeps_umtx_destroy_body others
           (fun p => negb (bool_decide (p = addr_caller n)))); try done.
  - intros p v w0 Hp. apply negb_false_iff, bool_decide_eq_true in Hp. subst p.
    unfold others. simpl. now rewrite delete_insert_eq.
  - change (or_global (addr_caller n)) with (addr_caller n).
    now rewrite bool_decide_eq_true_2.
Qed.

(** Without [POSIX], destroying the global mutex leaves the guard alone. *)
Lemma umtx_destroy_global_no_cascade b w :
  POSIX b = false ->
  gIncDecMutex (final (umtx_destroy b null_ptr w)) = gIncDecMutex w.
Proof.
  intros Hposix. unfold umtx_destroy. unfold umtx_destroy_body at 1.
  rewrite Hposix.
  set (mine := fun p => bool_decide (p = addr_gIncDecMutex)).
  assert (forall p v w0, mine p = false ->
            gIncDecMutex (store p v w0) = gIncDecMutex w0) as Hstore
    by (intros [] v w0 Hp; done).
  change (or_global null_ptr) with addr_gGlobalMutex.
  revert w. change (keeps gIncDecMutex
    (let* v := get (fun w0 => load w0 addr_gGlobalMutex) in
     if v =? NULL then ret tt
     else
       (let* fn := get pMutexDestroyFn in
        match fn with
        | Some f => call_UMtxFn f addr_gGlobalMutex
        | None =>
            if ICU_USE_THREADS b then
              let* v := get (fun w0 => load w0 addr_gGlobalMutex) in
              if def_WIN32 b then
                call (DeleteCriticalSection v) >> uprv_free v
              else if false then
                call (pthread_mutex_destroy v) >> uprv_free v
              else ret tt
            else ret tt
        end) >>
       modify (store addr_gGlobalMutex NULL) >> ret tt)).
  repeat first
    [ apply keeps_ret | apply keeps_get
    | apply keeps_call; done | apply keeps_uprv_free; done
    | apply (keeps_call_UMtxFn gIncDecMutex mine); done
    | apply keeps_modify; intros ?; now apply Hstore
    | apply keeps_bind; [|intros ?]
    | match goal with
      | |- keeps _ (if ?c then _ else _) => destruct c
      | |- keeps _ (match ?x with _ => _ end) => destruct x
      end ].
Qed.

(** X10.  [umtx_destroy] returns in every build.  On a live global mutex
    it leaves the global mutex null, on [POSIX] the guard null as well, and
    without [POSIX] the guard as it was; it never changes a mutex of a
    caller.  On a mutex of a caller it leaves that mutex null and the global
    mutex, the guard and every other mutex of a caller as they were. *)
Theorem umtx_destroy_reach (b : build) (n : positive) (w : world) :
  (exists w',
     umtx_destroy b null_ptr w = Done tt w' /\
     gGlobalMutex w' = NULL /\ handles w' = handles w /\
     (gGlobalMutex w <> NULL -> POSIX b = true -> gIncDecMutex w' = NULL) /\
     (POSIX b = false -> gIncDecMutex w' = gIncDecMutex w)) /\
  (exists w',
     umtx_destroy b (addr_caller n) w = Done tt w' /\
     load w' (addr_caller n) = NULL /\
     gGlobalMutex w' = gGlobalMutex w /\ gIncDecMutex w' = gIncDecMutex w /\
     forall n', n' <> n -> load w' (addr_caller n') = load w (addr_caller n')).
Proof.
  split.
  - destruct (umtx_destroy_Done b null_ptr w) as (w' & H). exists w'.
    split_and!; try done.
    + apply (umtx_destroy_null _ _ _ _ H).
    + rewrite <- (final_Done _ _ _ _ H). now apply handles_umtx_destroy.
    + intros Hlive%Z.eqb_neq Hposix. revert H.
      unfold umtx_destroy. unfold umtx_destroy_body at 1.
      change (or_global null_ptr) with addr_gGlobalMutex.
      rewrite bind_get. change (load w addr_gGlobalMutex) with (gGlobalMutex w).
      rewrite Hlive, Hposix. unfold when.
      rewrite bool_decide_eq_true_2 by done. intros H.
      apply bind_Done in H as (? & w1 & _ & H).
      apply bind_Done in H as (? & w2 & _ & H).
      rewrite <- umtx_destroy_incdec in H.
      apply (umtx_destroy_null _ _ _ _ H).
    + intros Hposix. rewrite <- (final_Done _ _ _ _ H).
      now apply umtx_destroy_global_no_cascade.
  - destruct (umtx_destroy_Done b (addr_caller n) w) as (w' & H). exists w'.
    pose proof (umtx_destroy_caller_frame b n w) as Hframe.
    rewrite H in Hframe. simpl in Hframe. injection Hframe as Hg Hi Hh.
    split_and!; try done.
    + apply (umtx_destroy_null _ _ _ _ H).
    + intros n' Hn'. simpl.
      rewrite <- (lookup_delete_ne (handles w') n n') by done.
      rewrite Hh. now rewrite lookup_delete_ne.
Qed.

(** ** Teardown and restart *)

Lemma refusals_umtx_destroy b p w :
  refusals (heap (final (umtx_destroy b p w))) = refusals (heap w).
Proof.
  apply (closed_umtx_destroy b (fun w0 => refusals (heap w0) = refusals (heap w)));
    try done.
  - now intros [].
  - intros v w0 H0. unfold uprv_free, modify. simpl. now destruct v.
Qed.

(** X11.  After [umtx_cleanup], [umtx_init(NULL)] starts over with the
    platform's mutexes: in a build with threads, if the allocator grants the
    request, the global mutex is live again in a block that was not in use,
    the counter is zero and no callback is registered; on [POSIX], if the
    allocator grants two requests, the guard is live again as well. *)
Theorem cleanup_then_init (b : build) (t : positive) (w : world) :
  native_threads b = true -> granted w = true ->
  exists w1 w2,
    umtx_cleanup b w = Done true w1 /\
    umtx_init b t null_ptr w1 = Done tt w2 /\
    gGlobalMutex w2 = Z.pos (fresh (blocks (heap w1))) /\
    (fresh (blocks (heap w1)) ∉ blocks (heap w1)) /\
    gRecursionCount w2 = 0 /\
    pMutexInitFn w2 = None /\ pMutexDestroyFn w2 = None /\
    pMutexLockFn w2 = None /\ pMutexUnlockFn w2 = None /\
    (POSIX b = true -> granted_twice w = true ->
     gIncDecMutex w2 <> NULL /\ gIncDecMutex w2 <> gGlobalMutex w2).
Proof.
  intros Hb Hg.
  destruct (umtx_cleanup_resets b w)
    as (w1 & H1 & Hnull & Hi & Hd & Hl & Hu & _).
  assert (refusals (heap w1) = refusals (heap w)) as Hr.
  { revert H1. unfold umtx_cleanup. intros H1.
    apply bind_Done in H1 as ([] & w0 & H0 & H1).
    injection H1 as <-. simpl. rewrite <- (final_Done _ _ _ _ H0).
    apply refusals_umtx_destroy. }
  assert (granted w1 = true) as Hg1 by (unfold granted in *; now rewrite Hr).
  destruct (umtx_init_global_null b t w1 Hnull) as (wa & w2 & Ha & Hb2 & H2 & Hc & Hgm).
  destruct (umtx_raw_init_granted b addr_gGlobalMutex w1 Hi Hb Hg1)
    as (wa' & Ha' & Hla & Hfresh & _); [done|].
  rewrite Ha in Ha'. injection Ha' as <-.
  pose proof (operations_keep_registration_init b t null_ptr w1) as Hreg.
  rewrite H2 in Hreg. simpl in Hreg. unfold registration in Hreg.
  injection Hreg as Hi2 Hd2 Hl2 Hu2 _ _ _ _.
  exists w1, w2. split_and!; try done; try congruence.
  { rewrite Hgm. exact Hla. }
  intros Hposix Hg2.
  assert (granted_twice w1 = true) as Hg21
    by (unfold granted_twice in *; now rewrite Hr).
  destruct (umtx_init_global_native b t w1 Hnull Hi Hb Hposix Hg21)
    as (w2' & H2' & Hgl & Hinc & Hne & _).
  rewrite H2 in H2'. injection H2' as <-.
  split; [rewrite Hinc; discriminate | congruence].
Qed.

(** ** The race for a mutex, block by block *)

Lemma umtx_lock_live_no_init b t p w :
  load w (or_global p) <> NULL -> umtx_lock b t p w = umtx_lock_no_init b p w.
Proof.
  intros Hlive%Z.eqb_neq. unfold umtx_lock, umtx_lock_no_init, umtx_lock_body.
  rewrite !bind_assoc, !bind_get, Hlive. reflexivity.
Qed.

(** Locking the live global mutex, and unlocking, leave the heap, the
    registration record and every [UMTX] of a caller or a thread alone. *)
Lemma umtx_lock_global_rest b t w :
  gGlobalMutex w <> NULL ->
  let rest := fun w0 => (heap w0, registration w0, handles w0, frames w0) in
  rest (final (umtx_lock b t null_ptr w)) = rest w.
Proof.
  intros Hlive rest. rewrite umtx_lock_live_no_init by done.
  apply (keeps_umtx_lock_body rest (fun p => negb (is_global p))); try done.
  now intros [].
Qed.

Lemma umtx_unlock_global_rest b w :
  let rest := fun w0 => (heap w0, registration w0, handles w0, frames w0) in
  rest (final (umtx_unlock b null_ptr w)) = rest w.
Proof.
  intros rest.
  apply (keeps_umtx_unlock rest (fun p => negb (is_global p))); try done.
  now intros [].
Qed.

Lemma init_step_registration b t mutex pc w :
  registration (final (init_step b t mutex pc w)) = registration w.
Proof.
  revert w. change (keeps registration (init_step b t mutex pc)).
  pose proof registration_store as Hs.
  destruct pc; simpl;
    repeat first
      [ apply keeps_ret | apply keeps_get | apply keeps_when
      | apply (untouched_umtx_lock registration); done
      | apply (untouched_umtx_unlock registration); done
      | apply (untouched_umtx_raw_init registration); done
      | apply (untouched_umtx_destroy registration); done
      | apply keeps_modify; intros ?; apply Hs
      | apply keeps_bind; [|intros ?] ].
Qed.

(** The two critical sections leave the heap alone when the global mutex
    is live. *)
Lemma umtx_lock_global_Done_heap b t w a w' :
  gGlobalMutex w <> NULL -> umtx_lock b t null_ptr w = Done a w' ->
  heap w' = heap w.
Proof.
  intros Hlive H. pose proof (umtx_lock_global_rest b t w Hlive) as E.
  cbv zeta in E. rewrite H in E. simpl in E. congruence.
Qed.

Lemma umtx_unlock_global_Done_heap b w a w' :
  umtx_unlock b null_ptr w = Done a w' -> heap w' = heap w.
Proof.
  intros H. pose proof (umtx_unlock_global_rest b w) as E.
  cbv zeta in E. rewrite H in E. simpl in E. congruence.
Qed.

Lemma step_check_heap b t n w pc w1 :
  gGlobalMutex w <> NULL ->
  init_step b t (addr_caller n) at_check w = Done pc w1 ->
  heap w1 = heap w.
Proof.
  intros Hlive H. unfold init_step in H.
  apply bind_Done in H as (? & w0 & Hw0 & H1).
  assert (heap w0 = heap w /\ gGlobalMutex w0 = gGlobalMutex w) as [E0 G0]
    by (injection Hw0 as _ <-; done).
  apply bind_Done in H1 as (? & wa & Ha & H2).
  apply bind_Done in H2 as (isInitialized & ? & [= <- <-] & H3).
  apply bind_Done in H3 as (? & wb & Hb & [= <- <-]).
  apply umtx_lock_global_Done_heap in Ha; [|congruence].
  apply umtx_unlock_global_Done_heap in Hb. congruence.
Qed.

Lemma step_install_heap b t n w pc w1 :
  gGlobalMutex w <> NULL ->
  init_step b t (addr_caller n) at_install w = Done pc w1 ->
  heap w1 = heap w.
Proof.
  intros Hlive H. unfold init_step in H.
  apply bind_Done in H as (? & wa & Ha & H1).
  apply bind_Done in H1 as (? & wm & Hm & H2).
  apply bind_Done in H2 as (? & wb & Hb & [= <- <-]).
  apply umtx_lock_global_Done_heap in Ha; [|done].
  apply umtx_unlock_global_Done_heap in Hb.
  assert (heap wm = heap wa) as Em.
  { revert Hm. unfold bind, get, when, modify, ret.
    destruct (_ =? _); intros [= E]; subst wm; reflexivity. }
  congruence.
Qed.

(** Destroying its [tMutex], a thread leaves the [tMutex] of the others
    alone. *)
Lemma umtx_destroy_tMutex_frame b t w :
  delete t (frames (final (umtx_destroy b (addr_tMutex t) w))) = delete t (frames w).
Proof.
  unfold umtx_destroy.
  apply (keeps_umtx_destroy_body (fun w0 => delete t (frames w0))
           (fun p => negb (bool_decide (p = addr_tMutex t)))); try done.
  - intros p v w0 Hp. apply negb_false_iff, bool_decide_eq_true in Hp. subst p.
    simpl. now rewrite delete_insert_eq.
  - change (or_global (addr_tMutex t)) with (addr_tMutex t).
    now rewrite bool_decide_eq_true_2.
Qed.

Lemma platform_calm_step b w w' :
  registration w' = registration w -> calm b w' ->
  platform_calm b w -> platform_calm b w'.
Proof.
  unfold registration. intros [= Hi Hd _ _ _ _ _ _] Hc (_ & Hi0 & Hd0).
  split; [done|]. split; congruence.
Qed.

(** What one step of a thread does to the mutex, to the thread's [tMutex]
    and to the allocated blocks, on a platform with its own mutexes. *)
Lemma init_step_native b t n pc w :
  native_threads b = true -> platform_calm b w ->
  temp_ok pc (load w (addr_tMutex t)) -> pc <> returned ->
  exists pc' w',
    init_step b t (addr_caller n) pc w = Done pc' w' /\
    platform_calm b w' /\
    (forall t', t' <> t -> load w' (addr_tMutex t') = load w (addr_tMutex t')) /\
    step_effect pc (load w (addr_caller n)) (load w (addr_tMutex t))
      (blocks (heap w))
      pc' (load w' (addr_caller n)) (load w' (addr_tMutex t))
      (blocks (heap w')).
Proof.
  intros Hb Hpl Htemp Hpc.
  pose proof Hpl as (Hcalm & Hi & Hd).
  destruct (init_step_calm b t n pc w Hcalm) as (pc' & w' & H & Hcalm').
  exists pc', w'. split; [done|]. split.
  { apply (platform_calm_step b w); [|done..].
    rewrite <- (final_Done _ _ _ _ H). apply init_step_registration. }
  destruct pc; [| | | |done].
  - pose proof (step_check _ _ _ _ _ _ H) as (Hh & Hf & ->).
    apply step_check_heap in H; [|apply Hcalm].
    simpl. rewrite Hh, Hf, H, lookup_insert_eq. simpl. split.
    { intros t' Ht'. now rewrite lookup_insert_ne. }
    destruct (default NULL (handles w !! n) =? NULL) eqn:Hv.
    + apply Z.eqb_eq in Hv. rewrite Hv. constructor.
    + apply Z.eqb_neq in Hv. now constructor.
  - pose proof (step_construct _ _ _ _ _ _ H) as (-> & Hraw & Hh).
    change (load w (addr_tMutex t) = NULL) in Htemp. rewrite Htemp.
    replace (load w' (addr_caller n)) with (load w (addr_caller n))
      by (simpl; now rewrite Hh).
    destruct (granted w) eqn:Hg.
    + destruct (umtx_raw_init_granted b (addr_tMutex t) w Hi Hb Hg)
        as (w1 & H1 & Hl & Hfresh & Hbl & Hq & _); [done|].
      rewrite Hraw in H1. injection H1 as <-. split.
      { intros t' Ht'. apply Hq. congruence. }
      rewrite Hl, Hbl. now constructor.
    + destruct (umtx_raw_init_refused b (addr_tMutex t) w Hi Hb Hg)
        as (w1 & H1 & Hq & Hbl).
      rewrite Hraw in H1. injection H1 as <-. split.
      { intros t' _. apply Hq. }
      rewrite Hq, Hbl, Htemp. constructor.
  - pose proof (step_install _ _ _ _ _ _ H) as Hs.
    apply step_install_heap in H; [|apply Hcalm]. rewrite H.
    destruct (load w (addr_caller n) =? NULL) eqn:Hv.
    + destruct Hs as (Hh & Hf & ->). apply Z.eqb_eq in Hv. rewrite Hv.
      simpl. rewrite Hh, Hf, !lookup_insert_eq. simpl. split.
      { intros t' Ht'. now rewrite lookup_insert_ne. }
      constructor.
    + destruct Hs as (Hh & Hf & ->). apply Z.eqb_neq in Hv.
      simpl in *. rewrite Hh, Hf. split; [done|].
      destruct (default NULL (frames w !! t) =? NULL) eqn:Ht.
      * apply Z.eqb_eq in Ht. rewrite Ht. now constructor.
      * apply Z.eqb_neq in Ht. now constructor.
  - pose proof (step_discard _ _ _ _ _ _ H) as (-> & Hdes & Hh & Hnull).
    destruct Htemp as (a & Ha).
    destruct (umtx_destroy_native b (addr_tMutex t) a w Hd Hb)
      as (w1 & H1 & Hbl & _); [done..|].
    rewrite Hdes in H1. injection H1 as <-.
    pose proof (umtx_destroy_tMutex_frame b t w) as Hfr.
    rewrite Hdes in Hfr. simpl in Hfr. split.
    { intros t' Ht'. simpl.
      rewrite <- (lookup_delete_ne (frames w') t t') by done.
      rewrite Hfr. now rewrite lookup_delete_ne by done. }
    rewrite Hnull, Hbl, Ha.
    replace (load w' (addr_caller n)) with (load w (addr_caller n))
      by (simpl; now rewrite Hh).
    constructor.
Qed.

Lemma holds_block_at pc pc' tv a :
  pc' = at_install \/ pc' = at_discard ->
  holds_block pc tv a -> holds_block pc' tv a.
Proof. intros Hpc [_ Htv]. now split. Qed.

Lemma holds_block_inj pc pc' tv a a' :
  holds_block pc tv a -> holds_block pc' tv a' -> a = a'.
Proof. intros [_ H] [_ H']. congruence. Qed.

Lemma holds_block_idle pc tv a :
  pc = at_check \/ pc = at_construct \/ pc = returned \/ tv = NULL ->
  ~ holds_block pc tv a.
Proof. intros Hpc [[-> | ->] ->]; now destruct Hpc as [|[|[|]]]. Qed.

(** Every effect of a step keeps the accounts. *)
Lemma accounts_effect B0 pc hv tvt B pc' hv' tvt' B' :
  step_effect pc hv tvt B pc' hv' tvt' B' ->
  forall (pcs : gmap positive init_pc) (tv tv' : positive -> UMTX) t,
  tv t = tvt -> tv' t = tvt' -> pcs !! t = Some pc ->
  (forall t', t' <> t -> tv' t' = tv t') ->
  accounts B0 pcs hv tv B -> accounts B0 (<[t := pc']> pcs) hv' tv' B'.
Proof.
  intros Heff pcs tv tv' t Etv Etv' Ht Hoth (H2 & H3 & H4 & H5 & H6 & H7 & H8).
  pose proof (H3 t pc Ht) as Htemp. rewrite Etv in Htemp.
  pose proof (fun a => H6 t pc a Ht) as Hheld.
  pose proof (fun t' pc0 a => H7 t t' pc pc0 a Ht) as Huniq.
  assert (forall a, a ∈ B ->
            (a ∈ B0) \/ hv = Z.pos a \/ holds_block pc (tv t) a \/
            exists t0 pc0, (<[t := pc']> pcs) !! t0 = Some pc0 /\
                           holds_block pc0 (tv' t0) a) as Hcover.
  { intros a Ha. destruct (H8 a Ha) as [|[|(t0 & pc0 & Hl & Hh)]]; [tauto..|].
    destruct (decide (t0 = t)) as [->|Hne].
    - rewrite Ht in Hl. injection Hl as <-. tauto.
    - right. right. right. exists t0, pc0.
      rewrite lookup_insert_ne, Hoth by done. done. }
  rewrite Etv in Hheld, Huniq, Hcover. clear H8.
  destruct Heff as [hv tvt B Hlive | tvt B | hv B | hv a B Hfresh | tvt B
                   | hv B Hlive | hv tvt B Hlive Hkept | hv a B].
  all: unfold accounts; split_and!.
  all: try done.
  all: intros;
    repeat match goal with
    | H : (<[?k := _]> _) !! ?t0 = Some _ |- _ =>
        destruct (decide (t0 = k)) as [->|?];
        [rewrite lookup_insert_eq in H; injection H as <-
        |rewrite lookup_insert_ne in H by done]
    end.
  all: repeat match goal with
    | H : ?t0 <> _ |- _ => rewrite (Hoth t0 H) in *
    end.
  all: rewrite ?Etv' in *.
  all: try done.
  all: try (eapply H3; eassumption).
  all: try (eapply H5; eassumption).
  all: try (eapply H6; eassumption).
  all: try (eapply H7; eassumption).
  all: try match goal with
    | H : holds_block ?p ?v ?x |- _ =>
        exfalso; apply (holds_block_idle p v x);
        [first [by left | by right; left | by do 2 right; left | by do 3 right]
        |exact H]
    end.
  all: try match goal with
    | Ha : ?x ∈ _ |- _ \/ _ \/ _ =>
        destruct (Hcover x Ha) as [?|[?|[Hh|?]]]; [tauto | tauto | | tauto]
    end.
  all: try match goal with
    | H : holds_block ?p ?v ?x |- _ =>
        exfalso; apply (holds_block_idle p v x);
        [first [by left | by right; left | by do 2 right; left | by do 3 right]
        |exact H]
    end.
  all: try (by left).
  all: try (right; eexists; reflexivity).
  all: try (destruct Htemp as [|]; done).
  - (* a block is granted: the blocks of the start *)
    set_unfold; intuition (subst; eauto; congruence).
  - destruct (H5 _ H). set_unfold; intuition (subst; eauto; congruence).
  - assert (a0 = a) by (destruct H0 as [_ E]; congruence). subst a0.
    split_and!; [set_unfold; intuition (subst; eauto; congruence) | set_unfold; intuition (subst; eauto; congruence) |].
    intros E. now destruct (H5 _ E).
  - destruct (H6 _ _ _ H H0) as (? & ? & ?). split_and!; [set_unfold; intuition (subst; eauto; congruence) | done..].
  - assert (a0 = a) by (destruct H8 as [_ E]; congruence). subst a0.
    now destruct (H6 _ _ _ H H1).
  - assert (a0 = a) by (destruct H1 as [_ E]; congruence). subst a0.
    now destruct (H6 _ _ _ H0 H8).
  - apply elem_of_union in H as [Hin%elem_of_singleton | Hin].
    + subst a0. right. right. exists t, at_install.
      rewrite lookup_insert_eq, Etv'. split; [done|]. split; [by left | done].
    + destruct (Hcover _ Hin) as [?|[?|[Hh|?]]]; [tauto | tauto | | tauto].
      now destruct Hh as [[|] _].
  - (* the thread hands its block to the mutex *)
    destruct (Hheld a) as (? & ? & _); [split; [by left | done] | done].
  - destruct (H6 _ _ _ H H0) as (? & ? & _). split_and!; [done..|].
    intros E. apply n. symmetry.
    apply (Huniq t0 pc a H); [split; [by left | done] | done].
  - destruct (Hcover _ H) as [?|[?|[Hh|?]]]; [tauto | done | | tauto].
    right. left. apply Hh.
  - (* the thread keeps its block, to destroy it *)
    apply Hheld. eapply holds_block_at; [by left | exact H0].
  - symmetry. apply (Huniq t0 pc a H); [|done].
    eapply holds_block_at; [by left | exact H8].
  - apply (Huniq t' pc' a H0); [|done].
    eapply holds_block_at; [by left | exact H1].
  - right. right. exists t, at_discard. rewrite lookup_insert_eq, Etv'.
    split; [done|]. eapply holds_block_at; [by right | exact Hh].
  - (* the thread destroys its block *)
    destruct (Hheld a) as (? & ? & _); [split; [by right | done] |]. set_unfold; intuition (subst; eauto; congruence).
  - destruct (H5 _ H).
    destruct (Hheld a) as (_ & _ & Hne); [split; [by right | done] |].
    assert (a0 <> a) by congruence. set_unfold; intuition (subst; eauto; congruence).
  - destruct (H6 _ _ _ H H0) as (? & ? & ?). split_and!; [|done..].
    assert (a0 <> a); [|set_unfold; intuition (subst; eauto; congruence)].
    intros ->. apply n. symmetry.
    apply (Huniq t0 pc a H); [split; [by right | done] | done].
  - apply elem_of_difference in H as [Hin Hne].
    destruct (Hcover _ Hin) as [?|[?|[Hh|?]]]; [tauto | tauto | | tauto].
    exfalso. apply Hne, elem_of_singleton. destruct Hh as [_ E]. congruence.
Qed.

Lemma race_accounts_step b n B0 s s' :
  native_threads b = true -> race_accounts b n B0 s ->
  sys_step b (addr_caller n) s s' -> race_accounts b n B0 s'.
Proof.
  intros Hb [Hpl Hacc] Hstep.
  destruct Hstep as [pcs w w' t pc pc' Ht Hpc Hs]. cbn [fst snd] in *.
  pose proof Hacc as (_ & H3 & _).
  destruct (init_step_native b t n pc w Hb Hpl (H3 t pc Ht) Hpc)
    as (pc1 & w1 & Hs1 & Hpl1 & Hoth & Heff).
  rewrite Hs in Hs1. injection Hs1 as <- <-.
  split; [done|].
  now apply (accounts_effect B0 _ _ _ _ _ _ _ _ Heff pcs
               (fun t => load w (addr_tMutex t))
               (fun t => load w' (addr_tMutex t)) t).
Qed.

Lemma race_accounts_steps b n B0 s s' :
  native_threads b = true -> race_accounts b n B0 s ->
  rtc (sys_step b (addr_caller n)) s s' -> race_accounts b n B0 s'.
Proof.
  intros Hb Hacc Hrun. induction Hrun as [|s s1 s' Hstep _ IH]; [done|].
  apply IH. now apply (race_accounts_step b n B0 s).
Qed.

(** A step of a thread, with the points after it given as a map. *)
Lemma sys_step_thread_to b mutex pcs w t pc pc' pcs' w' :
  pcs !! t = Some pc -> pc <> returned ->
  init_step b t mutex pc w = Done pc' w' -> pcs' = <[t := pc']> pcs ->
  sys_step b mutex (pcs, w) (pcs', w').
Proof. intros Ht Hpc Hs ->. now apply (sys_step_thread b mutex pcs w w' t pc). Qed.

(** X12.  Threads race through [umtx_init] for one null mutex of a caller,
    on a platform with its own mutexes, interleaved in any way.  When all
    have returned, either the mutex is still null and the allocated blocks
    are those of the start, or the mutex holds one block that was not
    allocated at the start and the allocated blocks are those of the start
    and that one: no block of a thread that lost the race is left. *)
Theorem race_leaves_one_block b n pcs0 w0 pcs w :
  native_threads b = true -> platform_calm b w0 ->
  load w0 (addr_caller n) = NULL ->
  (forall t pc, pcs0 !! t = Some pc -> pc = at_check) ->
  rtc (sys_step b (addr_caller n)) (pcs0, w0) (pcs, w) ->
  (forall t pc, pcs !! t = Some pc -> pc = returned) ->
  (load w (addr_caller n) = NULL /\ blocks (heap w) = blocks (heap w0)) \/
  (exists a, load w (addr_caller n) = Z.pos a /\
             (a ∉ blocks (heap w0)) /\
             blocks (heap w) = {[a]} ∪ blocks (heap w0)).
Proof.
  intros Hb Hpl Hnull Hstart Hrun Hend.
  assert (race_accounts b n (blocks (heap w0)) (pcs0, w0)) as Hacc0.
  { split; [done|]. cbn [fst snd]. rewrite Hnull. split_and!.
    - now left.
    - intros t pc Ht. now rewrite (Hstart t pc Ht).
    - done.
    - done.
    - intros t pc a Ht Hh. rewrite (Hstart t pc Ht) in Hh.
      now destruct Hh as [[|] _].
    - intros t t' pc pc' a Ht _ Hh. rewrite (Hstart t pc Ht) in Hh.
      now destruct Hh as [[|] _].
    - intros a Ha. now left. }
  destruct (race_accounts_steps b n _ _ _ Hb Hacc0 Hrun)
    as (_ & H2 & _ & H4 & H5 & _ & _ & H8).
  cbn [fst snd] in *.
  assert (forall a, a ∈ blocks (heap w) ->
            (a ∈ blocks (heap w0)) \/ load w (addr_caller n) = Z.pos a) as Hcover.
  { intros a Ha. destruct (H8 a Ha) as [|[|(t & pc & Ht & Hh)]]; [tauto..|].
    rewrite (Hend t pc Ht) in Hh. now destruct Hh as [[|] _]. }
  destruct H2 as [Hv | (a & Hv)].
  - left. split; [done|]. apply set_eq. intros a. split; [|apply H4].
    intros Ha. destruct (Hcover a Ha) as [|Hv']; [done|].
    rewrite Hv in Hv'. discriminate.
  - right. exists a. destruct (H5 a Hv) as (Hin & Hout). split_and!; [done..|].
    apply set_eq. intros a'. rewrite elem_of_union, elem_of_singleton. split.
    + intros Ha. destruct (Hcover a' Ha) as [|Hv']; [tauto|]. left. congruence.
    + intros [-> | Ha]; [done | now apply H4].
Qed.

Lemma init_step_advances b t n pc w pc' w' :
  pc <> returned -> init_step b t (addr_caller n) pc w = Done pc' w' ->
  (steps_left pc' < steps_left pc)%nat.
Proof.
  intros Hpc H. destruct pc; [| | | |done].
  - apply step_check in H as (_ & _ & ->). simpl. case_match; simpl; lia.
  - apply step_construct in H as (-> & _). simpl. lia.
  - apply step_install in H. repeat case_match; destruct H as (_ & _ & ->);
      simpl; lia.
  - apply step_discard in H as (-> & _). simpl. lia.
Qed.

Lemma sys_steps_calm b n s s' :
  calm b (snd s) -> rtc (sys_step b (addr_caller n)) s s' -> calm b (snd s').
Proof.
  intros Hcalm Hrun. induction Hrun as [|s s1 s' Hstep _ IH]; [done|].
  apply IH. destruct Hstep as [pcs w w' t pc pc' _ _ Hs]. simpl in *.
  destruct (init_step_calm b t n pc w Hcalm) as (pc1 & w1 & Hs1 & Hcalm1).
  rewrite Hs in Hs1. now injection Hs1 as <- <-.
Qed.

(** X13.  Threads race through [umtx_init] for a mutex of a caller while
    the global mutex is live, is locked by the platform and is not held.
    In every state an interleaving reaches, the next step of a thread that
    has not returned returns: no [U_ASSERT] stops it; it takes the thread
    forward, so that a thread returns after four steps at most; and it
    leaves the global mutex as the next step needs it. *)
Theorem race_thread_advances b n pcs0 w0 pcs w t pc :
  calm b w0 ->
  rtc (sys_step b (addr_caller n)) (pcs0, w0) (pcs, w) ->
  pcs !! t = Some pc -> pc <> returned ->
  exists pc' w',
    init_step b t (addr_caller n) pc w = Done pc' w' /\
    sys_step b (addr_caller n) (pcs, w) (<[t := pc']> pcs, w') /\
    (steps_left pc' < steps_left pc)%nat /\ calm b w'.
Proof.
  intros Hcalm Hrun Ht Hpc.
  pose proof (sys_steps_calm b n (pcs0, w0) (pcs, w) Hcalm Hrun) as Hcalm1.
  simpl in Hcalm1.
  destruct (init_step_calm b t n pc w Hcalm1) as (pc' & w' & Hs & Hcalm').
  exists pc', w'. split_and!; [done | | | done].
  - now apply (sys_step_thread b (addr_caller n) pcs w w' t pc).
  - now apply (init_step_advances b t n pc w pc' w').
Qed.

(** ** A counter *)



Lemma set_os_calls_app w calls calls' :
  set_os_calls (os_calls (set_os_calls (os_calls w ++ calls) w) ++ calls')
    (set_os_calls (os_calls w ++ calls) w) =
  set_os_calls (os_calls w ++ calls ++ calls') w.
Proof. destruct w. unfold set_os_calls. simpl. now rewrite app_assoc. Qed.




(** ** The global mutex, from [umtx_init] to [umtx_cleanup] *)

(** The platform's disposal of the global mutex releases its block, and on
    [POSIX] goes on to the guard. *)
Lemma umtx_destroy_global_native b a w :
  pMutexDestroyFn w = None -> native_threads b = true ->
  gGlobalMutex w = Z.pos a ->
  exists w1,
    umtx_destroy b null_ptr w =
      (if POSIX b then umtx_destroy b addr_gIncDecMutex w1 else Done tt w1) /\
    blocks (heap w1) = blocks (heap w) ∖ {[a]} /\
    gGlobalMutex w1 = NULL /\ gIncDecMutex w1 = gIncDecMutex w /\
    pMutexDestroyFn w1 = None.
Proof.
  intros Hfn Hb Ha. unfold umtx_destroy. unfold umtx_destroy_body at 1.
  change (or_global null_ptr) with addr_gGlobalMutex.
  rewrite bind_get. change (load w addr_gGlobalMutex) with (gGlobalMutex w).
  rewrite Ha. change (Z.pos a =? NULL) with false. cbv iota.
  rewrite bool_decide_eq_true_2 by done.
  set (cascade := umtx_destroy_body b (fun _ => ret tt) addr_gIncDecMutex).
  unfold native_threads in Hb.
  destruct (ICU_USE_THREADS b); [|done]. simpl in Hb.
  assert (forall w1, cascade w1 = umtx_destroy_body b
            (umtx_destroy_body b (fun _ => ret tt)) addr_gIncDecMutex w1) as Hc
    by (intros w1; symmetry; apply umtx_destroy_incdec).
  unfold bind at 1 2 3. unfold get at 1. rewrite Hfn.
  unfold bind at 1. unfold get at 1.
  change (load w addr_gGlobalMutex) with (gGlobalMutex w). rewrite Ha.
  unfold uprv_free, call, modify, when, bind, ret.
  destruct (def_WIN32 b), (POSIX b); try done; simpl;
    rewrite ?Hc; (eexists; split; [reflexivity|]); simpl; done.
Qed.

Lemma umtx_cleanup_Done b w r w' :
  umtx_cleanup b w = Done r w' ->
  exists w0, umtx_destroy b null_ptr w = Done tt w0 /\
    heap w' = heap w0 /\ gIncDecMutex w' = gIncDecMutex w0 /\
    gGlobalMutex w' = gGlobalMutex w0.
Proof.
  unfold umtx_cleanup. intros H.
  apply bind_Done in H as ([] & w0 & H0 & H). injection H as _ <-.
  now exists w0.
Qed.

(** Disposing of a guard that is null or holds a block. *)
Lemma umtx_destroy_guard_native b w :
  pMutexDestroyFn w = None -> native_threads b = true ->
  (gIncDecMutex w = NULL \/ exists g, gIncDecMutex w = Z.pos g) ->
  exists w', umtx_destroy b addr_gIncDecMutex w = Done tt w' /\
    gIncDecMutex w' = NULL /\ gGlobalMutex w' = gGlobalMutex w /\
    blocks (heap w') =
      match gIncDecMutex w with
      | Z.pos g => blocks (heap w) ∖ {[g]}
      | _ => blocks (heap w)
      end.
Proof.
  intros Hfn Hb [Hnull | (g & Hg)].
  - exists w. rewrite Hnull. split_and!; try done.
    now apply umtx_destroy_noop.
  - destruct (umtx_destroy_native b addr_gIncDecMutex g w Hfn Hb)
      as (w' & H & Hbl & _); [done..|].
    exists w'. rewrite Hg. split_and!; try done.
    + apply (umtx_destroy_null _ _ _ _ H).
    + rewrite <- (final_Done _ _ _ _ H), umtx_destroy_incdec.
      apply gGlobalMutex_destroy_incdec.
Qed.

(** What [umtx_init(NULL)] allocates when the first request is granted. *)
Lemma umtx_init_global_blocks b t w :
  native_threads b = true -> pMutexInitFn w = None ->
  gGlobalMutex w = NULL -> granted w = true ->
  exists a w',
    umtx_init b t null_ptr w = Done tt w' /\
    gGlobalMutex w' = Z.pos a /\ (a ∉ blocks (heap w)) /\
    (forall q, q <> addr_gGlobalMutex -> q <> addr_gIncDecMutex ->
       load w' q = load w q) /\
    if POSIX b && granted_twice w then
      exists g, gIncDecMutex w' = Z.pos g /\
        (g ∉ blocks (heap w)) /\ g <> a /\
        blocks (heap w') = {[g]} ∪ ({[a]} ∪ blocks (heap w))
    else
      gIncDecMutex w' = gIncDecMutex w /\
      blocks (heap w') = {[a]} ∪ blocks (heap w).
Proof.
  intros Hb Hi Hg Hgrant.
  destruct (umtx_init_global_null b t w Hg)
    as (w1 & w2 & Hraw & Hsecond & Hinit & _ & Hgm).
  destruct (umtx_raw_init_granted b addr_gGlobalMutex w Hi Hb Hgrant)
    as (w0 & H1 & Hl1 & Hfresh & Hbl1 & Hq1 & Hr1 & Hi1); [done|].
  rewrite Hraw in H1. injection H1 as <-.
  exists (fresh (blocks (heap w))), w2. split; [done|].
  split; [now rewrite Hgm|]. split; [done|].
  pose proof (Hq1 addr_gIncDecMutex ltac:(done)) as Hguard1. simpl in Hguard1.
  destruct (POSIX b) eqn:Hposix; simpl.
  - set (w1c := set_gRecursionCount 0 w1) in *.
    assert (granted w1c = granted_twice w) as Hgrant1.
    { unfold granted, granted_twice in *. subst w1c. simpl. rewrite Hr1.
      now destruct (refusals (heap w)) as [|[] [|[] ?]]. }
    destruct (granted_twice w).
    + destruct (umtx_raw_init_granted b addr_gIncDecMutex w1c Hi1 Hb Hgrant1)
        as (w3 & H2 & Hl2 & Hfresh2 & Hbl2 & Hq2 & _); [done|].
      rewrite Hsecond in H2. injection H2 as <-. split.
      { intros q Hq Hq'. rewrite Hq2 by done. rewrite <- Hq1 by done.
        now destruct q. }
      exists (fresh (blocks (heap w1c))).
      change (blocks (heap w1c)) with (blocks (heap w1)) in *.
      assert (forall x, x = fresh (blocks (heap w)) \/ x ∈ blocks (heap w) ->
                x ∈ blocks (heap w1)) as Hin1.
      { intros x Hx. rewrite Hbl1. set_unfold. tauto. }
      split_and!; try done.
      * intros Hin. apply Hfresh2, Hin1. now right.
      * intros Heq. apply Hfresh2, Hin1. now left.
      * now rewrite Hbl2, Hbl1.
    + destruct (umtx_raw_init_refused b addr_gIncDecMutex w1c Hi1 Hb Hgrant1)
        as (w3 & H2 & Hq2 & Hbl2).
      rewrite Hsecond in H2. injection H2 as <-. split.
      { intros q Hq Hq'. rewrite Hq2. rewrite <- Hq1 by done. now destruct q. }
      split.
      * change (load w2 addr_gIncDecMutex = gIncDecMutex w).
        now rewrite (Hq2 addr_gIncDecMutex).
      * now rewrite Hbl2.
  - subst w2. split; [|now split].
    intros q Hq Hq'. rewrite <- Hq1 by done. now destruct q.
Qed.

(** What [umtx_cleanup] releases with the platform's mutexes: the block of
    the global mutex, and on [POSIX] the block of the guard. *)
Lemma umtx_cleanup_native b a w :
  native_threads b = true -> pMutexDestroyFn w = None ->
  gGlobalMutex w = Z.pos a ->
  (gIncDecMutex w = NULL \/ exists g, gIncDecMutex w = Z.pos g) ->
  exists w',
    umtx_cleanup b w = Done true w' /\ gGlobalMutex w' = NULL /\
    gIncDecMutex w' = (if POSIX b then NULL else gIncDecMutex w) /\
    blocks (heap w') =
      match gIncDecMutex w with
      | Z.pos g => if POSIX b then blocks (heap w) ∖ {[a]} ∖ {[g]}
                   else blocks (heap w) ∖ {[a]}
      | _ => blocks (heap w) ∖ {[a]}
      end.
Proof.
  intros Hb Hd Hga Hguard.
  destruct (umtx_cleanup_resets b w) as (w' & Hcl & Hnull & _).
  destruct (umtx_cleanup_Done b w true w' Hcl) as (w0 & Hdes & Hheap & Hgd & _).
  destruct (umtx_destroy_global_native b a w Hd Hb Hga)
    as (wd & Hdes1 & Hbld & _ & Hgdd & Hdd).
  rewrite Hdes in Hdes1.
  exists w'. split; [done|]. split; [done|]. rewrite Hgd, Hheap.
  destruct (POSIX b) eqn:Hposix.
  - destruct (umtx_destroy_guard_native b wd Hdd Hb)
      as (w0' & Hdes2 & Hgnull & _ & Hbl0); [now rewrite Hgdd|].
    rewrite <- Hdes1 in Hdes2. injection Hdes2 as <-.
    split; [done|]. rewrite Hbl0, Hgdd, Hbld. now destruct (gIncDecMutex w).
  - injection Hdes1 as ->. split; [done|]. rewrite Hbld.
    now destruct (gIncDecMutex w).
Qed.

(** X15.  The global mutex from [umtx_init(NULL)] to [umtx_cleanup], with
    the platform's mutexes, from a state where the global mutex and the
    guard are null.  If the allocator grants the first request, the global
    mutex is live after [umtx_init(NULL)] in a block of its own, and
    [umtx_cleanup] leaves the global mutex and the guard null and the
    allocated blocks as they were before [umtx_init(NULL)], whether the
    guard was constructed or not. *)
Theorem global_mutex_round_trip (b : build) (t : positive) (w : world) :
  native_threads b = true ->
  pMutexInitFn w = None -> pMutexDestroyFn w = None ->
  gGlobalMutex w = NULL -> gIncDecMutex w = NULL -> granted w = true ->
  exists w1 w2,
    umtx_init b t null_ptr w = Done tt w1 /\ gGlobalMutex w1 <> NULL /\
    blocks (heap w1) <> blocks (heap w) /\
    umtx_cleanup b w1 = Done true w2 /\
    gGlobalMutex w2 = NULL /\ gIncDecMutex w2 = NULL /\
    blocks (heap w2) = blocks (heap w).
Proof.
  intros Hb Hi Hd Hg Hguard Hgrant.
  destruct (umtx_init_global_blocks b t w Hb Hi Hg Hgrant)
    as (a & w1 & Hinit & Hga & Hfresh & _ & Hblocks).
  assert (pMutexDestroyFn w1 = None) as Hd1.
  { pose proof (operations_keep_registration_init b t null_ptr w) as Hreg.
    rewrite Hinit in Hreg. simpl in Hreg. unfold registration in Hreg.
    injection Hreg as _ Hd1 _ _ _ _ _ _. congruence. }
  assert (a ∈ blocks (heap w1)) as Hin.
  { destruct (POSIX b && granted_twice w);
      [destruct Hblocks as (g & _ & _ & _ & ->) | destruct Hblocks as [_ ->]];
      set_unfold; tauto. }
  destruct (umtx_cleanup_native b a w1 Hb Hd1 Hga) as (w2 & Hcl & Hnull & Hgd & Hbl).
  { destruct (POSIX b && granted_twice w);
      [destruct Hblocks as (g & -> & _) | destruct Hblocks as [-> _]]; eauto. }
  exists w1, w2. split; [done|]. split; [rewrite Hga; discriminate|].
  split; [intros Heq; now rewrite Heq in Hin|].
  split; [done|]. split; [done|].
  destruct (POSIX b) eqn:Hposix; simpl in Hblocks.
  - split; [done|]. rewrite Hbl. destruct (granted_twice w).
    + destruct Hblocks as (g & -> & Hg1 & Hg2 & ->).
      apply set_eq. intros x. set_unfold. split; [tauto|].
      intros Hx. split_and!; [tauto | now intros -> | now intros ->].
    + destruct Hblocks as [-> ->]. rewrite Hguard.
      apply set_eq. intros x. set_unfold. split; [tauto|].
      intros Hx. split; [tauto|]. now intros ->.
  - destruct Hblocks as [Hgn Hbl1]. split; [congruence|].
    rewrite Hbl, Hbl1, Hgn, Hguard.
    apply set_eq. intros x. set_unfold. split; [tauto|].
    intros Hx. split; [tauto|]. now intros ->.
Qed.

(** X16.  On [POSIX], [umtx_init(NULL)] constructs the guard without looking
    at it.  From a state where the global mutex is null and the guard holds
    an allocated block, which is where [umtx_cleanup] leaves them when only
    the guard had been constructed, a granted [umtx_init(NULL)] puts a new
    block in the guard; [umtx_cleanup] then releases the two new blocks and
    leaves both statics null, and the old block of the guard stays
    allocated with no static holding it. *)
Theorem guard_block_lost (b : build) (t : positive) (g : positive) (w : world) :
  native_threads b = true -> POSIX b = true ->
  pMutexInitFn w = None -> pMutexDestroyFn w = None ->
  gGlobalMutex w = NULL -> gIncDecMutex w = Z.pos g ->
  g ∈ blocks (heap w) -> granted_twice w = true ->
  exists w1 w2,
    umtx_init b t null_ptr w = Done tt w1 /\
    gGlobalMutex w1 <> Z.pos g /\ gIncDecMutex w1 <> Z.pos g /\
    (g ∈ blocks (heap w1)) /\
    umtx_cleanup b w1 = Done true w2 /\
    gGlobalMutex w2 = NULL /\ gIncDecMutex w2 = NULL /\
    (g ∈ blocks (heap w2)) /\ blocks (heap w2) = blocks (heap w).
Proof.
  intros Hb Hposix Hi Hd Hg Hguard Hin Hgrant2.
  pose proof (granted_twice_granted w Hgrant2) as Hgrant.
  destruct (umtx_init_global_blocks b t w Hb Hi Hg Hgrant)
    as (a & w1 & Hinit & Hga & Hfresh & _ & Hblocks).
  rewrite Hposix, Hgrant2 in Hblocks. simpl in Hblocks.
  destruct Hblocks as (g' & Hguard1 & Hg1 & Hg2 & Hbl1).
  assert (pMutexDestroyFn w1 = None) as Hd1.
  { pose proof (operations_keep_registration_init b t null_ptr w) as Hreg.
    rewrite Hinit in Hreg. simpl in Hreg. unfold registration in Hreg.
    injection Hreg as _ Hd1 _ _ _ _ _ _. congruence. }
  destruct (umtx_cleanup_native b a w1 Hb Hd1 Hga) as (w2 & Hcl & Hnull & Hgd & Hbl);
    [eauto|].
  rewrite Hposix in Hgd. rewrite Hguard1, Hposix, Hbl1 in Hbl.
  assert (blocks (heap w2) = blocks (heap w)) as Hsame.
  { rewrite Hbl. apply set_eq. intros x. set_unfold. split; [tauto|].
    intros Hx. split_and!; [tauto | now intros -> | now intros ->]. }
  exists w1, w2. split_and!; try done.
  - rewrite Hga. intros [= ->]. done.
  - rewrite Hguard1. intros [= ->]. done.
  - rewrite Hbl1. set_unfold. tauto.
  - now rewrite Hsame.
Qed.

(** ** A mutex of a caller, from [umtx_init] to [umtx_destroy] *)

(** X17.  A mutex of a caller from [umtx_init] to [umtx_destroy], with the
    platform's mutexes and the global mutex in order.  On a null mutex, if
    the allocator grants the request, [umtx_init] returns with the mutex
    live in a block that was not allocated, and nothing else allocated;
    [umtx_destroy] then leaves the mutex null and the allocated blocks as
    they were before [umtx_init]. *)
Theorem caller_mutex_round_trip (b : build) (t n : positive) (w : world) :
  native_threads b = true -> platform_calm b w ->
  load w (addr_caller n) = NULL -> granted w = true ->
  exists a w1 w2,
    umtx_init b t (addr_caller n) w = Done tt w1 /\
    load w1 (addr_caller n) = Z.pos a /\ (a ∉ blocks (heap w)) /\
    blocks (heap w1) = {[a]} ∪ blocks (heap w) /\
    load w1 (addr_tMutex t) = NULL /\
    umtx_destroy b (addr_caller n) w1 = Done tt w2 /\
    load w2 (addr_caller n) = NULL /\ blocks (heap w2) = blocks (heap w).
Proof.
  intros Hb Hpl Hnull Hgrant.
  (* the first critical section *)
  destruct (init_step_native b t n at_check w Hb Hpl I ltac:(done))
    as (pc1 & w1 & Hs1 & Hpl1 & _ & _).
  pose proof (step_check _ _ _ _ _ _ Hs1) as (Hh1 & Hf1 & Hpc1).
  rewrite Hnull in Hpc1. simpl in Hpc1. subst pc1.
  pose proof (step_check_heap _ _ _ _ _ _ (proj1 (proj1 Hpl)) Hs1) as Hheap1.
  assert (load w1 (addr_tMutex t) = NULL) as Htemp1
    by (simpl; now rewrite Hf1, lookup_insert_eq).
  assert (load w1 (addr_caller n) = NULL) as Hnull1
    by (simpl in *; now rewrite Hh1).
  (* the construction *)
  assert (granted w1 = true) as Hgrant1 by (unfold granted in *; now rewrite Hheap1).
  destruct (umtx_raw_init_granted b (addr_tMutex t) w1 (proj1 (proj2 Hpl1)) Hb Hgrant1)
    as (w2 & Hraw & Hl2 & Hfresh & Hbl2 & Hq2 & _); [done|].
  assert (init_step b t (addr_caller n) at_construct w1 = Done at_install w2) as Hs2.
  { simpl. now rewrite (bind_Done_intro _ _ _ _ _ Hraw). }
  destruct (init_step_native b t n at_construct w1 Hb Hpl1 Htemp1 ltac:(done))
    as (pc2 & w2' & Hs2' & Hpl2 & _ & _).
  rewrite Hs2 in Hs2'. injection Hs2' as <- <-.
  assert (load w2 (addr_caller n) = NULL) as Hnull2
    by (rewrite Hq2 by done; exact Hnull1).
  (* the second critical section *)
  destruct (init_step_native b t n at_install w2 Hb Hpl2) as
    (pc3 & w3 & Hs3 & Hpl3 & _ & _); [right; eauto | done |].
  pose proof (step_install _ _ _ _ _ _ Hs3) as Hinst.
  rewrite Hnull2 in Hinst. simpl in Hinst. destruct Hinst as (Hh3 & Hf3 & ->).
  pose proof (step_install_heap _ _ _ _ _ _ (proj1 (proj1 Hpl2)) Hs3) as Hheap3.
  assert (umtx_init b t (addr_caller n) w = Done tt w3) as Hinit.
  { rewrite umtx_init_run, init_run_step, (bind_Done_intro _ _ _ _ _ Hs1) by done.
    rewrite init_run_step, (bind_Done_intro _ _ _ _ _ Hs2) by done.
    rewrite init_run_step, (bind_Done_intro _ _ _ _ _ Hs3) by done.
    apply init_run_returned. }
  assert (load w3 (addr_caller n) = Z.pos (fresh (blocks (heap w)))) as Hlive.
  { simpl. rewrite Hh3, lookup_insert_eq. simpl.
    change (load w2 (addr_tMutex t) = Z.pos (fresh (blocks (heap w)))).
    now rewrite Hl2, Hheap1. }
  assert (blocks (heap w3) = {[fresh (blocks (heap w))]} ∪ blocks (heap w)) as Hbl3
    by now rewrite Hheap3, Hbl2, Hheap1.
  (* the disposal *)
  destruct (umtx_destroy_native b (addr_caller n) (fresh (blocks (heap w))) w3
              (proj2 (proj2 Hpl3)) Hb) as (w4 & Hdes & Hbl4 & _); [done..|].
  exists (fresh (blocks (heap w))), w3, w4. split_and!; try done.
  - apply is_fresh.
  - simpl. now rewrite Hf3, lookup_insert_eq.
  - apply (umtx_destroy_null _ _ _ _ Hdes).
  - rewrite Hbl4, Hbl3. pose proof (is_fresh (blocks (heap w))) as Hfr.
    apply set_eq. intros x. set_unfold. split; [tauto|].
    intros Hx. split; [tauto|]. now intros ->.
Qed.

(** ** The build without threads *)

Lemma umtx_raw_init_without_threads b p w :
  ICU_USE_THREADS b = false -> pMutexInitFn w = None ->
  umtx_raw_init b p w = Done tt (store p (as_UMTX p) w).
Proof.
  intros Hb Hfn. unfold umtx_raw_init. rewrite bind_get, Hfn, Hb. reflexivity.
Qed.

Lemma as_UMTX_not_null p : p <> null_ptr -> as_UMTX p <> NULL.
Proof. now destruct p. Qed.

(** Without threads [umtx_init] allocates nothing and calls no primitive of
    the platform. *)
Lemma umtx_init_without_threads_heap b t mutex w :
  ICU_USE_THREADS b = false ->
  heap (final (umtx_init b t mutex w)) = heap w /\
  os_calls (final (umtx_init b t mutex w)) = os_calls w.
Proof.
  intros Hb.
  set (I := fun w0 => heap w0 = heap w /\ os_calls w0 = os_calls w).
  assert (I (final (umtx_init b t mutex w))) as HI; [|exact HI].
  apply (routed_umtx_init b I).
  - now intros [] v w0 H0.
  - now intros v w0 H0.
  - now intros v w0 H0.
  - intros w0 _. now left.
  - done.
Qed.

(** X18.  The build without threads, with no init callback registered.
    [umtx_init] still leaves a null mutex live, so that locking it does not
    meet the check for an uninitialised mutex, and it allocates nothing and
    calls no primitive of the platform: the global mutex gets its own
    address, and a mutex of a caller gets the address of the local [tMutex]
    of the call that initialised it, not its own, since [umtx_raw_init] is
    run on [tMutex] and the value is then copied.  The other mutexes of
    callers are left as they are. *)
Theorem umtx_init_without_threads (b : build) (t n : positive) (w : world) :
  ICU_USE_THREADS b = false -> pMutexInitFn w = None ->
  (gGlobalMutex w = NULL ->
   exists w', umtx_init b t null_ptr w = Done tt w' /\
     gGlobalMutex w' = as_UMTX addr_gGlobalMutex /\ gGlobalMutex w' <> NULL /\
     handles w' = handles w /\
     heap w' = heap w /\ os_calls w' = os_calls w) /\
  (U_DEBUG b = false \/ calm b w -> load w (addr_caller n) = NULL ->
   exists w', umtx_init b t (addr_caller n) w = Done tt w' /\
     load w' (addr_caller n) = as_UMTX (addr_tMutex t) /\
     load w' (addr_caller n) <> NULL /\
     load w' (addr_tMutex t) = NULL /\
     (forall n', n' <> n -> load w' (addr_caller n') = load w (addr_caller n')) /\
     heap w' = heap w /\ os_calls w' = os_calls w).
Proof.
  intros Hb Hfn. split.
  - intros Hg.
    destruct (umtx_init_global_null b t w Hg)
      as (w1 & w' & Hraw & Hsecond & Hinit & _ & Hgm).
    rewrite umtx_raw_init_without_threads in Hraw by done. injection Hraw as <-.
    pose proof (umtx_init_without_threads_heap b t null_ptr w Hb) as [Hheap Hlog].
    rewrite Hinit in Hheap, Hlog. simpl in Hheap, Hlog.
    exists w'. split_and!; [done | now rewrite Hgm | now rewrite Hgm | | done..].
    destruct (POSIX b); [|now subst w'].
    rewrite umtx_raw_init_without_threads in Hsecond by done.
    now injection Hsecond as <-.
  - intros Hquiet Hnull.
    destruct (umtx_init_quiet b t n w) as (w' & Hinit); [tauto|].
    destruct (umtx_init_installs b t n w w' Hnull Hinit)
      as (w1 & w2 & Hs1 & Hraw & Hh & Htemp).
    assert (pMutexInitFn w1 = None) as Hfn1.
    { pose proof (init_step_registration b t (addr_caller n) at_check w) as Hreg.
      rewrite Hs1 in Hreg. simpl in Hreg. unfold registration in Hreg.
      injection Hreg as Hfn1 _ _ _ _ _ _ _. congruence. }
    rewrite umtx_raw_init_without_threads in Hraw by done.
    assert (w2 = store (addr_tMutex t) (as_UMTX (addr_tMutex t)) w1) as ->
      by congruence.
    rewrite load_store_eq in Hh by done.
    pose proof (umtx_init_without_threads_heap b t (addr_caller n) w Hb)
      as [Hheap Hlog].
    rewrite Hinit in Hheap, Hlog. simpl in Hheap, Hlog.
    exists w'. split_and!; try done.
    + simpl. now rewrite Hh, lookup_insert_eq.
    + simpl. now rewrite Hh, lookup_insert_eq.
    + intros n' Hn'. simpl. now rewrite Hh, lookup_insert_ne.
Qed.

(** ** The properties above at sample inputs *)

Lemma u_setMutexFunctions_installs_witness :
  U_FAILURE U_ZERO_ERROR = false /\
  gHeapInUse (heap (initial_world [])) = false /\
  u_setMutexFunctions 5 (Some counting_init) (Some plain_fn) (Some plain_fn)
    (Some plain_fn) U_ZERO_ERROR (initial_world []) =
    Done U_ZERO_ERROR
      (set_gMutexContext 5
         (set_pMutexUnlockFn (Some plain_fn)
            (set_pMutexLockFn (Some plain_fn)
               (set_pMutexDestroyFn (Some plain_fn)
                  (set_pMutexInitFn (Some counting_init) (initial_world [])))))).
Proof.
  split; [reflexivity|]. split; [reflexivity|].
  destruct (u_setMutexFunctions_installs posix_release 1 5 counting_init
              plain_fn plain_fn plain_fn U_ZERO_ERROR (initial_world [])
              eq_refl eq_refl) as [H _].
  exact H.
Defined.

Lemma operations_routed_witness :
  let b := posix_release in
  let w := set_pMutexUnlockFn (Some plain_fn)
             (set_pMutexLockFn (Some plain_fn)
                (set_pMutexDestroyFn (Some plain_fn)
                   (set_pMutexInitFn (Some counting_init) (initial_world [])))) in
  let w1 := final (umtx_init b 1 (addr_caller 1) w) in
  (ICU_USE_THREADS b = false \/ backend_registered w) /\
  umtx_init b 1 (addr_caller 1) w = Done tt w1 /\
  gGlobalMutex w1 = 1 /\ gIncDecMutex w1 = 2 /\ load w1 (addr_caller 1) = 3 /\
  heap w1 = heap w /\ os_calls w1 = os_calls w.
Proof.
  intros b w w1.
  assert (ICU_USE_THREADS b = false \/ backend_registered w) as Hw
    by (right; repeat split).
  split; [exact Hw|].
  split; [vm_compute; reflexivity|]. split; [vm_compute; reflexivity|].
  split; [vm_compute; reflexivity|]. split; [vm_compute; reflexivity|].
  destruct (operations_routed b 1 (addr_caller 1) w Hw) as [H _].
  exact H.
Defined.

Lemma allocator_use_is_final_witness :
  let w := final (umtx_init posix_release 1 null_ptr (initial_world [])) in
  let w' := final (run_calls posix_release 1 [call_umtx_cleanup] w) in
  gHeapInUse (heap w) = true /\ U_FAILURE U_ZERO_ERROR = false /\
  gHeapInUse (heap w') = true /\
  u_setMutexFunctions 0 (Some counting_init) (Some plain_fn) (Some plain_fn)
    (Some plain_fn) U_ZERO_ERROR w' = Done U_INVALID_STATE_ERROR w'.
Proof.
  intros w w'.
  assert (gHeapInUse (heap w) = true) as Hw by (vm_compute; reflexivity).
  split; [exact Hw|]. split; [reflexivity|].
  destruct (allocator_use_is_final posix_release 1 [call_umtx_cleanup] w 0
              counting_init plain_fn plain_fn plain_fn exact_inc exact_dec
              U_ZERO_ERROR Hw eq_refl) as (H1 & H2 & _).
  split; [exact H1 | exact H2].
Defined.

Lemma callbacks_all_or_none_witness :
  all_or_none (initial_world []) /\
  all_or_none
    (final (run_calls posix_debug 1
              [call_u_setMutexFunctions 0 (Some counting_init) None None None
                 U_ZERO_ERROR;
               call_u_setAtomicIncDecFunctions 0 (Some stale_inc)
                 (Some exact_dec) U_ZERO_ERROR;
               call_umtx_init None; call_umtx_cleanup]
              (initial_world []))).
Proof.
  assert (all_or_none (initial_world [])) as Hw by (repeat split).
  split; [exact Hw|]. apply callbacks_all_or_none. exact Hw.
Defined.

Lemma u_setAtomicIncDecFunctions_installs_witness :
  U_FAILURE U_ZERO_ERROR = false /\
  gHeapInUse (heap (initial_world [])) = false /\
  u_setAtomicIncDecFunctions posix_release 9 (Some exact_inc) (Some exact_dec)
    U_ZERO_ERROR (initial_world []) =
    Done U_ZERO_ERROR
      (set_pDecFn (Some exact_dec) (set_pIncFn (Some exact_inc) (initial_world []))).
Proof.
  split; [reflexivity|]. split; [reflexivity|].
  destruct (u_setAtomicIncDecFunctions_installs posix_release 9 exact_inc
              exact_dec U_ZERO_ERROR (initial_world []) eq_refl eq_refl)
    as (_ & H & _).
  exact (H eq_refl).
Defined.


Lemma global_mutex_recursion_check_witness :
  let w := final (umtx_init win32_debug 1 null_ptr (initial_world [])) in
  gGlobalMutex w <> NULL /\
  pMutexLockFn w = None /\ pMutexUnlockFn w = None /\
  - 2 ^ 31 < gRecursionCount w < 2 ^ 31 - 1 /\
  win_debug win32_debug = true /\ U_DEBUG win32_debug = true /\
  umtx_unlock win32_debug null_ptr w =
    (if gRecursionCount w =? 1 then
       Done tt (logged (platform_call win32_debug
                          (LeaveCriticalSection (gGlobalMutex w))
                          (pthread_mutex_unlock (gGlobalMutex w)))
                  (set_gRecursionCount 0 w))
     else AssertionFailed (set_gRecursionCount (gRecursionCount w - 1) w)).
Proof.
  intros w.
  assert (gGlobalMutex w = 1) as Hv by (vm_compute; reflexivity).
  assert (gGlobalMutex w <> NULL) as Hlive by (rewrite Hv; discriminate).
  assert (pMutexLockFn w = None) as Hl by (vm_compute; reflexivity).
  assert (pMutexUnlockFn w = None) as Hu by (vm_compute; reflexivity).
  assert (gRecursionCount w = 0) as Hc0 by (vm_compute; reflexivity).
  assert (- 2 ^ 31 < gRecursionCount w < 2 ^ 31 - 1) as Hc by (rewrite Hc0; lia).
  split_and!; [exact Hlive | exact Hl | exact Hu | apply Hc | apply Hc
              | reflexivity | reflexivity |].
  destruct (global_mutex_recursion_check win32_debug 1 w Hlive Hl Hu Hc)
    as [H _].
  destruct (H eq_refl eq_refl) as [_ H']. exact H'.
Defined.

Lemma cleanup_then_init_witness :
  let w := final (umtx_init posix_release 1 null_ptr (initial_world [])) in
  native_threads posix_release = true /\ granted w = true /\
  exists w1 w2,
    umtx_cleanup posix_release w = Done true w1 /\
    umtx_init posix_release 1 null_ptr w1 = Done tt w2 /\
    gGlobalMutex w2 = Z.pos (fresh (blocks (heap w1))).
Proof.
  intros w.
  assert (granted w = true) as Hg by (vm_compute; reflexivity).
  split; [reflexivity|]. split; [exact Hg|].
  destruct (cleanup_then_init posix_release 1 w eq_refl Hg)
    as (w1 & w2 & H1 & H2 & H3 & _).
  exists w1, w2. split_and!; assumption.
Defined.

Lemma race_leaves_one_block_witness :
  let b := posix_release in
  let mutex := addr_caller 1 in
  let w0 := final (umtx_init b 1 null_ptr (initial_world [])) in
  let w1 := final (init_step b 1 mutex at_check w0) in
  let w2 := final (init_step b 2 mutex at_check w1) in
  let w3 := final (init_step b 1 mutex at_construct w2) in
  let w4 := final (init_step b 2 mutex at_construct w3) in
  let w5 := final (init_step b 1 mutex at_install w4) in
  let w6 := final (init_step b 2 mutex at_install w5) in
  let w := final (init_step b 2 mutex at_discard w6) in
  let pcs0 : gmap positive init_pc := {[1%positive := at_check; 2%positive := at_check]} in
  let pcs : gmap positive init_pc := {[1%positive := returned; 2%positive := returned]} in
  native_threads b = true /\ platform_calm b w0 /\
  load w0 mutex = NULL /\
  (forall t pc, pcs0 !! t = Some pc -> pc = at_check) /\
  rtc (sys_step b mutex) (pcs0, w0) (pcs, w) /\
  (forall t pc, pcs !! t = Some pc -> pc = returned) /\
  ((load w mutex = NULL /\ blocks (heap w) = blocks (heap w0)) \/
   (exists a, load w mutex = Z.pos a /\ (a ∉ blocks (heap w0)) /\
              blocks (heap w) = {[a]} ∪ blocks (heap w0))).
Proof.
  intros b mutex w0 w1 w2 w3 w4 w5 w6 w pcs0 pcs.
  assert (native_threads b = true) as Hb by reflexivity.
  assert (platform_calm b w0) as Hpl
    by (split_and!; first [by vm_compute | intros _; by vm_compute]).
  assert (load w0 mutex = NULL) as Hnull by (vm_compute; reflexivity).
  assert (forall t pc, pcs0 !! t = Some pc -> pc = at_check) as Hstart.
  { intros t pc [[_ <-] | [_ [_ <-]%lookup_singleton_Some]]%lookup_insert_Some;
      reflexivity. }
  assert (forall t pc, pcs !! t = Some pc -> pc = returned) as Hend.
  { intros t pc [[_ <-] | [_ [_ <-]%lookup_singleton_Some]]%lookup_insert_Some;
      reflexivity. }
  assert (rtc (sys_step b mutex) (pcs0, w0) (pcs, w)) as Hrun.
  { apply (rtc_l _ _ ({[1%positive := at_construct; 2%positive := at_check]}, w1)).
    { apply (sys_step_thread_to b mutex pcs0 w0 1 at_check at_construct);
        [vm_compute; reflexivity | discriminate | vm_compute; reflexivity..]. }
    apply (rtc_l _ _ ({[1%positive := at_construct; 2%positive := at_construct]}, w2)).
    { apply (sys_step_thread_to b mutex _ w1 2 at_check at_construct);
        [vm_compute; reflexivity | discriminate | vm_compute; reflexivity..]. }
    apply (rtc_l _ _ ({[1%positive := at_install; 2%positive := at_construct]}, w3)).
    { apply (sys_step_thread_to b mutex _ w2 1 at_construct at_install);
        [vm_compute; reflexivity | discriminate | vm_compute; reflexivity..]. }
    apply (rtc_l _ _ ({[1%positive := at_install; 2%positive := at_install]}, w4)).
    { apply (sys_step_thread_to b mutex _ w3 2 at_construct at_install);
        [vm_compute; reflexivity | discriminate | vm_compute; reflexivity..]. }
    apply (rtc_l _ _ ({[1%positive := returned; 2%positive := at_install]}, w5)).
    { apply (sys_step_thread_to b mutex _ w4 1 at_install returned);
        [vm_compute; reflexivity | discriminate | vm_compute; reflexivity..]. }
    apply (rtc_l _ _ ({[1%positive := returned; 2%positive := at_discard]}, w6)).
    { apply (sys_step_thread_to b mutex _ w5 2 at_install at_discard);
        [vm_compute; reflexivity | discriminate | vm_compute; reflexivity..]. }
    apply rtc_once.
    apply (sys_step_thread_to b mutex _ w6 2 at_discard returned);
      [vm_compute; reflexivity | discriminate | vm_compute; reflexivity..]. }
  split_and!; [done..|].
  exact (race_leaves_one_block b 1 pcs0 w0 pcs w Hb Hpl Hnull Hstart Hrun Hend).
Defined.

Lemma race_thread_advances_witness :
  let b := win32_debug in
  let mutex := addr_caller 1 in
  let w0 := final (umtx_init b 1 null_ptr (initial_world [])) in
  let w1 := final (init_step b 1 mutex at_check w0) in
  let pcs0 : gmap positive init_pc := {[1%positive := at_check; 2%positive := at_check]} in
  let pcs : gmap positive init_pc := {[1%positive := at_construct; 2%positive := at_check]} in
  calm b w0 /\
  rtc (sys_step b mutex) (pcs0, w0) (pcs, w1) /\
  pcs !! 2%positive = Some at_check /\ at_check <> returned /\
  exists pc' w',
    init_step b 2 mutex at_check w1 = Done pc' w' /\
    sys_step b mutex (pcs, w1) (<[2%positive := pc']> pcs, w') /\
    (steps_left pc' < steps_left at_check)%nat /\ calm b w'.
Proof.
  intros b mutex w0 w1 pcs0 pcs.
  assert (calm b w0) as Hcalm
    by (split_and!; first [by vm_compute | intros _; by vm_compute]).
  assert (rtc (sys_step b mutex) (pcs0, w0) (pcs, w1)) as Hrun.
  { apply rtc_once.
    apply (sys_step_thread_to b mutex pcs0 w0 1 at_check at_construct);
      [vm_compute; reflexivity | discriminate | vm_compute; reflexivity..]. }
  assert (pcs !! 2%positive = Some at_check) as Ht by (vm_compute; reflexivity).
  assert (at_check <> returned) as Hpc by discriminate.
  split_and!; [done..|].
  exact (race_thread_advances b 1 pcs0 w0 pcs w1 2 at_check Hcalm Hrun Ht Hpc).
Defined.


Lemma global_mutex_round_trip_witness :
  let b := posix_release in
  let w := initial_world [false; true] in
  native_threads b = true /\
  pMutexInitFn w = None /\ pMutexDestroyFn w = None /\
  gGlobalMutex w = NULL /\ gIncDecMutex w = NULL /\ granted w = true /\
  exists w1 w2,
    umtx_init b 1 null_ptr w = Done tt w1 /\ gGlobalMutex w1 <> NULL /\
    blocks (heap w1) <> blocks (heap w) /\
    umtx_cleanup b w1 = Done true w2 /\
    gGlobalMutex w2 = NULL /\ gIncDecMutex w2 = NULL /\
    blocks (heap w2) = blocks (heap w).
Proof.
  intros b w. split_and!; [reflexivity..|].
  exact (global_mutex_round_trip b 1 w eq_refl eq_refl eq_refl eq_refl eq_refl
           eq_refl).
Defined.

Lemma guard_block_lost_witness :
  let b := posix_release in
  let w := final (umtx_cleanup b
                    (final (umtx_init b 1 null_ptr (initial_world [true; false])))) in
  native_threads b = true /\ POSIX b = true /\
  pMutexInitFn w = None /\ pMutexDestroyFn w = None /\
  gGlobalMutex w = NULL /\ gIncDecMutex w = Z.pos 1 /\
  (1%positive ∈ blocks (heap w)) /\ granted_twice w = true /\
  exists w1 w2,
    umtx_init b 1 null_ptr w = Done tt w1 /\
    gGlobalMutex w1 <> Z.pos 1 /\ gIncDecMutex w1 <> Z.pos 1 /\
    (1%positive ∈ blocks (heap w1)) /\
    umtx_cleanup b w1 = Done true w2 /\
    gGlobalMutex w2 = NULL /\ gIncDecMutex w2 = NULL /\
    (1%positive ∈ blocks (heap w2)) /\ blocks (heap w2) = blocks (heap w).
Proof.
  intros b w.
  assert (pMutexInitFn w = None) as Hi by (vm_compute; reflexivity).
  assert (pMutexDestroyFn w = None) as Hd by (vm_compute; reflexivity).
  assert (gGlobalMutex w = NULL) as Hg by (vm_compute; reflexivity).
  assert (gIncDecMutex w = Z.pos 1) as Hguard by (vm_compute; reflexivity).
  assert (1%positive ∈ blocks (heap w)) as Hin.
  { assert (blocks (heap w) = {[1%positive]}) as -> by (vm_compute; reflexivity).
    now apply elem_of_singleton. }
  assert (granted_twice w = true) as Hgrant by (vm_compute; reflexivity).
  split_and!; [reflexivity | reflexivity | done..|].
  exact (guard_block_lost b 1 1 w eq_refl eq_refl Hi Hd Hg Hguard Hin Hgrant).
Defined.

Lemma caller_mutex_round_trip_witness :
  let b := win32_debug in
  let w := final (umtx_init b 1 null_ptr (initial_world [])) in
  native_threads b = true /\ platform_calm b w /\
  load w (addr_caller 1) = NULL /\ granted w = true /\
  exists a w1 w2,
    umtx_init b 1 (addr_caller 1) w = Done tt w1 /\
    load w1 (addr_caller 1) = Z.pos a /\ (a ∉ blocks (heap w)) /\
    blocks (heap w1) = {[a]} ∪ blocks (heap w) /\
    load w1 (addr_tMutex 1) = NULL /\
    umtx_destroy b (addr_caller 1) w1 = Done tt w2 /\
    load w2 (addr_caller 1) = NULL /\ blocks (heap w2) = blocks (heap w).
Proof.
  intros b w.
  assert (native_threads b = true) as Hb by reflexivity.
  assert (platform_calm b w) as Hpl
    by (split_and!; first [by vm_compute | intros _; by vm_compute]).
  assert (load w (addr_caller 1) = NULL) as Hnull by (vm_compute; reflexivity).
  assert (granted w = true) as Hgrant by (vm_compute; reflexivity).
  split_and!; [done..|].
  exact (caller_mutex_round_trip b 1 1 w Hb Hpl Hnull Hgrant).
Defined.

Lemma umtx_init_without_threads_witness :
  let b := Build false false false false false false false false in
  let w := initial_world [] in
  ICU_USE_THREADS b = false /\ pMutexInitFn w = None /\
  gGlobalMutex w = NULL /\ (U_DEBUG b = false \/ calm b w) /\
  load w (addr_caller 1) = NULL /\
  (exists w', umtx_init b 1 null_ptr w = Done tt w' /\
     gGlobalMutex w' = as_UMTX addr_gGlobalMutex /\ gGlobalMutex w' <> NULL /\
     handles w' = handles w /\
     heap w' = heap w /\ os_calls w' = os_calls w) /\
  (exists w', umtx_init b 1 (addr_caller 1) w = Done tt w' /\
     load w' (addr_caller 1) = as_UMTX (addr_tMutex 1) /\
     load w' (addr_caller 1) <> NULL /\
     load w' (addr_tMutex 1) = NULL /\
     (forall n', n' <> 1%positive ->
        load w' (addr_caller n') = load w (addr_caller n')) /\
     heap w' = heap w /\ os_calls w' = os_calls w).
Proof.
  intros b w.
  assert (U_DEBUG b = false \/ calm b w) as Hquiet by (left; reflexivity).
  destruct (umtx_init_without_threads b 1 1 w eq_refl eq_refl) as [Hglobal Hcaller].
  split_and!; [reflexivity.. | exact Hquiet | reflexivity | |].
  - exact (Hglobal eq_refl).
  - exact (Hcaller Hquiet eq_refl).
Defined.
